(** * ContactPro backend: identifier extraction, profile normalisation,
    scrape orchestration and the dashboard ledger

  A shallow embedding of the parts of the server that carry its logic:

  - [LinkedinHelper]  : [extractLinkedInId] of linkedinHelper.js
  - [ProfileModel]    : [extractLinkedInId] of the Profile model, used by
                        its pre-save hook
  - [Scraper]         : routes/linkedinScraper.js, the
                        [/scrape-linkedin] handler and
                        [transformLinkedInDataWithPhone]
  - [Store]           : the dashboard and profile collections
  - [DashboardRoutes] : the dashboard routes [GET /], [POST /] and
                        [PATCH /activity]
  - [Spec]            : the vocabulary the statements are written in

  JavaScript strings are sequences of UTF-16 code units.  They are
  modelled here as sequences of 8-bit characters, read as the code units
  0..255 (ASCII and Latin-1); [null]/[undefined] is [None]. *)

From Stdlib Require Import ZArith Lia Bool Ascii String List.
From stdpp Require Import base option list strings gmap pretty.
Import ListNotations.

Local Open Scope string_scope.

(* ===================================================================== *)
(** ** JavaScript string primitives *)
(* ===================================================================== *)

Module Js.

Definition chars := list ascii.

Definition code (c : ascii) : N := N_of_ascii c.

Definition between (lo hi : N) (c : ascii) : bool :=
  (lo <=? code c)%N && (code c <=? hi)%N.

(** [String.prototype.toLowerCase] on one code unit below 256:
    A-Z and the Latin-1 capitals U+00C0..U+00DE (without U+00D7, the
    multiplication sign) move up by 32, every other unit is fixed. *)
Definition lower_char (c : ascii) : ascii :=
  if between 65 90 c then ascii_of_N (code c + 32)
  else if between 192 222 c && negb (code c =? 215)%N
       then ascii_of_N (code c + 32)
  else c.

(** [Canonicalize] of the regular-expression semantics without the [u]
    flag: the upper-case of the code unit, except that a unit of 128 or
    more is never sent below 128 and a unit with a longer upper-case
    (U+00DF) is fixed.  U+00B5 and U+00FF have their upper-case outside
    the code units modelled and nothing modelled shares it, so they are
    fixed here. *)
Definition canonicalize (c : ascii) : ascii :=
  if between 97 122 c then ascii_of_N (code c - 32)
  else if between 224 254 c && negb (code c =? 247)%N
       then ascii_of_N (code c - 32)
  else c.

(** White space and line terminators, as [trim] sees them (below 256). *)
Definition is_space (c : ascii) : bool :=
  between 9 13 c || (code c =? 32)%N || (code c =? 160)%N.

Definition lower_chars (l : chars) : chars := map lower_char l.

Definition toLowerCase (s : string) : string :=
  string_of_list_ascii (lower_chars (list_ascii_of_string s)).

Fixpoint drop_spaces (l : chars) : chars :=
  match l with
  | c :: l' => if is_space c then drop_spaces l' else l
  | [] => []
  end.

Definition trim_chars (l : chars) : chars :=
  rev (drop_spaces (rev (drop_spaces l))).

Definition trim (s : string) : string :=
  string_of_list_ascii (trim_chars (list_ascii_of_string s)).

Fixpoint starts_with (w l : chars) : bool :=
  match w, l with
  | [], _ => true
  | a :: w', b :: l' => Ascii.eqb a b && starts_with w' l'
  | _ :: _, [] => false
  end.

Fixpoint includes_chars (l w : chars) : bool :=
  starts_with w l ||
  match l with
  | [] => false
  | _ :: l' => includes_chars l' w
  end.

(** [s.includes(w)] *)
Definition includes (s w : string) : bool :=
  includes_chars (list_ascii_of_string s) (list_ascii_of_string w).

(** Truthiness of a string value that may be absent. *)
Definition truthy (v : option string) : bool :=
  match v with
  | Some s => negb (String.eqb s "")
  | None => false
  end.

(** [a || b] on possibly absent strings. *)
Definition or_else (a b : option string) : option string :=
  if truthy a then a else b.

(** [a || ''] *)
Definition or_empty (a : option string) : string :=
  match a with
  | Some s => s
  | None => ""
  end.

(** What evaluating an expression can do: produce a value or throw. *)
Inductive completion (A : Type) : Type :=
| Normal (a : A)
| Throw (message : string).
Arguments Normal {A} a.
Arguments Throw {A} message.

End Js.

Infix "|||" := Js.or_else (at level 50, left associativity).

(* ===================================================================== *)
(** ** Regular expressions: a backtracking matcher *)
(* ===================================================================== *)

Module Regex.
Import Js.

Inductive class_item : Type :=
| Word                        (* \w *)
| Range (lo hi : ascii)       (* a-b *)
| One (c : ascii).            (* a single character *)

Inductive atom : Type :=
| Chr (c : ascii)                               (* a pattern character *)
| Class (negated : bool) (items : list class_item).  (* [...] and [^...] *)

Inductive regex : Type :=
| Empty
| Atom (a : atom)
| Eos                          (* $ without the m flag *)
| Cat (r1 r2 : regex)
| Or (r1 r2 : regex)           (* r1|r2 *)
| Plus (a : atom)              (* greedy a+ on a one-character matcher *)
| Capture (r : regex).         (* the capturing group *)

Definition is_word (c : ascii) : bool :=
  between 97 122 c || between 65 90 c || between 48 57 c || (code c =? 95)%N.

Definition item_mem (it : class_item) (c : ascii) : bool :=
  match it with
  | Word => is_word c
  | Range lo hi => between (code lo) (code hi) c
  | One a => Ascii.eqb a c
  end.

Definition all_chars : chars := map ascii_of_nat (seq 0 256).

(** Membership of [c] in the character set of a class.  Under the [i]
    flag a character belongs when some member of the set has the same
    canonical form. *)
Definition set_mem (ignoreCase : bool) (items : list class_item) (c : ascii) : bool :=
  if ignoreCase then
    existsb (fun a => existsb (fun it => item_mem it a) items
                      && Ascii.eqb (canonicalize a) (canonicalize c)) all_chars
  else existsb (fun it => item_mem it c) items.

Definition atom_matches (ignoreCase : bool) (a : atom) (c : ascii) : bool :=
  match a with
  | Chr p => if ignoreCase then Ascii.eqb (canonicalize p) (canonicalize c)
             else Ascii.eqb p c
  | Class negated items => xorb negated (set_mem ignoreCase items c)
  end.

Section Matcher.
Variable ignoreCase : bool.
Variable R : Type.

(** [p*], greedy: the longest run first, then shorter ones. *)
Fixpoint star (p : ascii -> bool) (s : chars) (k : chars -> option R) : option R :=
  match s with
  | c :: s' =>
      if p c then
        match star p s' k with
        | Some r => Some r
        | None => k s
        end
      else k s
  | [] => k []
  end.

(** [run r s cap k]: match [r] at the front of [s], then continue with
    [k] on what is left; [cap] is the text held by the group. *)
Fixpoint run (r : regex) (s : chars) (cap : option chars)
         (k : chars -> option chars -> option R) : option R :=
  match r with
  | Empty => k s cap
  | Atom a =>
      match s with
      | c :: s' => if atom_matches ignoreCase a c then k s' cap else None
      | [] => None
      end
  | Eos =>
      match s with
      | [] => k s cap
      | _ :: _ => None
      end
  | Cat r1 r2 => run r1 s cap (fun s1 cap1 => run r2 s1 cap1 k)
  | Or r1 r2 =>
      match run r1 s cap k with
      | Some x => Some x
      | None => run r2 s cap k
      end
  | Plus a =>
      match s with
      | c :: s' =>
          if atom_matches ignoreCase a c
          then star (atom_matches ignoreCase a) s' (fun s2 => k s2 cap)
          else None
      | [] => None
      end
  | Capture r1 =>
      run r1 s cap
          (fun s1 _ => k s1 (Some (firstn (length s - length s1) s)))
  end.
End Matcher.

Arguments star {R} p s k.
Arguments run ignoreCase {R} r s cap k.

(** The characters of a pattern, one after the other. *)
Definition Lit (w : string) : regex :=
  fold_right (fun c r => Cat (Atom (Chr c)) r) Empty (list_ascii_of_string w).

(** The match array of [String.prototype.match] without the [g] flag;
    only entry 1, the group, is kept ([None] when the group took no part
    in the match). *)
Record match_array : Type := { group1 : option chars }.

Definition match_here (ignoreCase : bool) (r : regex) (s : chars) : option match_array :=
  run ignoreCase r s None (fun _ cap => Some {| group1 := cap |}).

(** The leftmost position at which the pattern matches. *)
Fixpoint exec (ignoreCase : bool) (r : regex) (s : chars) : option match_array :=
  match match_here ignoreCase r s with
  | Some m => Some m
  | None =>
      match s with
      | [] => None
      | _ :: s' => exec ignoreCase r s'
      end
  end.

(** [s.match(re)] *)
Definition str_match (s : string) (ignoreCase : bool) (r : regex) : option match_array :=
  exec ignoreCase r (list_ascii_of_string s).

End Regex.

(* ===================================================================== *)
(** ** linkedinHelper.js *)
(* ===================================================================== *)

Module LinkedinHelper.
Import Js Regex.

(** [/linkedin\.com\/in\/([\w\-%.0-9]+)(?:[/?]|$)/i] *)
Definition id_class : atom :=
  Class false [Word; One "-"; One "%"; One "."; Range "0" "9"].

Definition pattern : regex :=
  Cat (Lit "linkedin.com/in/")
      (Cat (Capture (Plus id_class))
           (Or (Atom (Class false [One "/"; One "?"])) Eos)).

Definition extractLinkedInId (url : option string) : completion (option string) :=
  if negb (truthy url) then Normal None
  else
    match str_match (or_empty url) true pattern with
    | Some m =>
        match group1 m with
        | Some g => Normal (Some (toLowerCase (string_of_list_ascii g)))
        | None => Throw "Cannot read properties of undefined (reading 'toLowerCase')"
        end
    | None => Normal None
    end.

End LinkedinHelper.

(* ===================================================================== *)
(** ** The Profile model: pre-save identifier *)
(* ===================================================================== *)

Module ProfileModel.
Import Js Regex.

(** [/linkedin\.com\/in\/([^/?]+)/] *)
Definition pattern : regex :=
  Cat (Lit "linkedin.com/in/")
      (Capture (Plus (Class true [One "/"; One "?"]))).

Definition extractLinkedInId (url : option string) : completion (option string) :=
  if negb (truthy url) then Normal None
  else
    match str_match (or_empty url) false pattern with
    | Some m =>
        match group1 m with
        | Some g => Normal (Some (toLowerCase (string_of_list_ascii g)))
        | None => Throw "Cannot read properties of undefined (reading 'toLowerCase')"
        end
    | None => Normal None
    end.

End ProfileModel.

(* ===================================================================== *)
(** ** The document store *)
(* ===================================================================== *)

Module Store.

(** Modelled from the spec: the Dashboard schema (models/Dashboard.js is
    not among the sources).  One ledger per user: a points balance, three
    counters, two id lists, the activity log and a timestamp.  The routes
    guard [unlockedContactIds] against being absent, so it is optional. *)
Record Dashboard : Type := {
  userId : string;
  availablePoints : Z;
  totalContacts : Z;
  unlockedProfiles : Z;
  myUploads : Z;
  uploadedProfileIds : list string;
  unlockedContactIds : option (list string);
  recentActivity : list string;
  updatedAt : nat
}.

(** A stored profile, as far as the dashboard routes look at it. *)
Record ProfileDoc : Type := { uploadedBy : string }.

Inductive DbWrite : Type :=
| DashboardCreate (user : string)
| DashboardSave (user : string)
| DashboardUpdate (user : string).

(** The database and the outside world a request handler acts on:
    dashboards by user id, the profile collection, the writes issued to
    the dashboard collection (oldest first). *)
Record World : Type := {
  dashboards : gmap string Dashboard;
  profiles : list ProfileDoc;
  dashboard_writes : list DbWrite
}.

End Store.

(* ===================================================================== *)
(** ** routes/linkedinScraper.js *)
(* ===================================================================== *)

Module Scraper.
Import Js Store.

(** *** The third-party payload *)

Record DatePart : Type := { month : option Z; year : option Z }.

Record TimePeriod : Type := {
  startDate : option DatePart;
  endDate : option DatePart
}.

Record Company : Type := { industries : option (list string) }.

Record Position : Type := {
  title : option string;
  pos_companyName : option string;
  pos_company : option Company;
  locationName : option string;
  timePeriod : option TimePeriod
}.

(** An entry of [skills], [courses] or [certifications]: a plain string,
    or an object that may carry [name] and [title]. *)
Inductive Entry : Type :=
| Plain (s : string)
| Named (name title : option string).

Record LinkedInProfile : Type := {
  firstName : option string;
  lastName : option string;
  fullName : option string;
  jobTitle : option string;
  occupation : option string;
  companyName : option string;
  industryName : option string;
  geoLocationName : option string;
  geoCountryName : option string;
  li_phone : option string;
  li_email : option string;
  pictureUrl : option string;
  profilePicture : option string;
  inputUrl : option string;
  li_url : option string;
  linkedinUrl : option string;
  positions : option (list Position);
  skills : option (list Entry);
  courses : option (list Entry);
  certifications : option (list Entry)
}.

(** A profile descriptor of the request body, and the same after
    validation ([validProfiles]). *)
Record RawDescriptor : Type := {
  raw_url : option string;
  raw_phone : option string;
  raw_email : option string;
  raw_extraLinks : option (list string)      (* [None]: not an array *)
}.

Record ProfileInput : Type := {
  url : string;
  phone : string;
  email : string;
  extraLinks : list string
}.

(** The record handed to the profiles endpoint.  The three rendered text
    fields ([workExperience], [education], [companySize]) are left out:
    nothing below reads them and rendering them cannot throw. *)
Record ContactData : Type := {
  c_name : string;
  c_jobTitle : string;
  c_company : string;
  c_location : string;
  c_industry : string;
  c_experience : Z;
  c_seniorityLevel : string;
  c_skills : list string;
  c_email : string;
  c_phone : string;
  c_avatar : string;
  c_uploadedBy : string;
  c_linkedinUrl : string;
  c_extraLinks : list string
}.

(** *** transformLinkedInDataWithPhone *)

(** [e => typeof e === 'string' ? e : e.name || e.title || ''] *)
Definition entry_text (e : Entry) : string :=
  match e with
  | Plain s => s
  | Named name title => or_empty (name ||| title)
  end.

(** [s => s.trim()] as a filter: keep what is not blank. *)
Definition not_blank (s : string) : bool := negb (String.eqb (trim s) "").

Definition entry_names (l : list Entry) : list string :=
  filter (fun s => not_blank s = true) (map entry_text l).

(** [new Set(...)]: insertion keeps the order and ignores a value that
    is already a member; spreading the set lists it in that order. *)
Definition set_add (members : list string) (x : string) : list string :=
  if existsb (String.eqb x) members then members else (members ++ [x])%list.

Definition new_Set (l : list string) : list string := fold_left set_add l [].

Definition collect_skills (p : LinkedInProfile) : list string :=
  let skills0 : list string := [] in
  let skills1 :=
    match skills p with
    | Some l => (skills0 ++ entry_names l)%list
    | None => skills0
    end in
  let skills2 :=
    match courses p with
    | Some l => (skills1 ++ entry_names l)%list
    | None => skills1
    end in
  let skills3 :=
    match certifications p with
    | Some l => (skills2 ++ firstn 10 (entry_names l))%list
    | None => skills2
    end in
  firstn 25 (new_Set skills3).

Definition first_position (p : LinkedInProfile) : option Position :=
  match positions p with
  | Some (x :: _) => Some x
  | _ => None
  end.

(** Truthiness of a number that may be absent. *)
Definition truthy_num (v : option Z) : bool :=
  match v with
  | Some z => negb (z =? 0)%Z
  | None => false
  end.

(** [position.timePeriod && position.timePeriod.startDate &&
    position.timePeriod.startDate.year] *)
Definition start_year (pos : Position) : option Z :=
  match timePeriod pos with
  | Some tp =>
      match startDate tp with
      | Some d => if truthy_num (year d) then year d else None
      | None => None
      end
  | None => None
  end.

(** The body of the [forEach] that looks for the earliest start year. *)
Definition earliest_step (earliestStartYear : option Z) (pos : Position) : option Z :=
  match start_year pos with
  | Some y =>
      if negb (truthy_num earliestStartYear)
         || (y <? default 0%Z earliestStartYear)%Z
      then Some y
      else earliestStartYear
  | None => earliestStartYear
  end.

Definition experience_years (currentYear : Z) (p : LinkedInProfile) : Z :=
  match positions p with
  | Some (x :: l) =>
      let earliestStartYear := fold_left earliest_step (x :: l) None in
      if truthy_num earliestStartYear
      then Z.max 0 (currentYear - default 0%Z earliestStartYear)
      else 0%Z
  | _ => 0%Z
  end.

Definition job_title (p : LinkedInProfile) : string :=
  or_empty (jobTitle p ||| occupation p ||| (first_position p ≫= title)).

Definition seniority (jobTitle : string) (experienceYears : Z) : string :=
  let titleLower := toLowerCase jobTitle in
  if includes titleLower "ceo" || includes titleLower "cto"
     || includes titleLower "cfo" || includes titleLower "chief"
  then "C-Level"
  else if includes titleLower "vp" || includes titleLower "vice president"
  then "VP"
  else if includes titleLower "director" || includes titleLower "manager"
  then "Director"
  else if includes titleLower "senior" || includes titleLower "lead"
          || includes titleLower "principal"
  then "Senior"
  else if includes titleLower "junior" || (experienceYears <? 2)%Z
  then "Entry-level"
  else "Mid-level".

Definition industry_of (p : LinkedInProfile) : string :=
  let industry := or_empty (industryName p ||| Some "Other") in
  if negb (truthy (Some industry)) || String.eqb industry "Other" then
    match (first_position p ≫= pos_company) ≫= industries with
    | Some (i :: _) => i
    | _ => industry
    end
  else industry.

Definition default_avatar : string :=
  "https://images.pexels.com/photos/771742/pexels-photo-771742.jpeg?auto=compress&cs=tinysrgb&w=150&h=150&fit=crop".

Definition transformLinkedInDataWithPhone
    (currentYear : Z) (linkedInProfile : option LinkedInProfile)
    (userId : string) (profileInput : ProfileInput) : completion ContactData :=
  match linkedInProfile with
  | None => Throw "No profile data received"
  | Some p =>
      let experienceYears := experience_years currentYear p in
      let jobTitle := job_title p in
      Normal {|
        c_name :=
          or_empty
            (Some (trim (or_empty (firstName p ||| Some "") ++ " "
                         ++ or_empty (lastName p ||| Some "")))
             ||| fullName p);
        c_jobTitle := jobTitle;
        c_company :=
          or_empty (companyName p ||| (first_position p ≫= pos_companyName));
        c_location :=
          or_empty (geoLocationName p ||| geoCountryName p
                    ||| (first_position p ≫= locationName));
        c_industry := industry_of p;
        c_experience := experienceYears;
        c_seniorityLevel := seniority jobTitle experienceYears;
        c_skills := collect_skills p;
        c_email := or_empty (Some (email profileInput) ||| li_email p);
        c_phone := or_empty (Some (phone profileInput) ||| li_phone p);
        c_avatar :=
          or_empty (pictureUrl p ||| profilePicture p ||| Some default_avatar);
        c_uploadedBy := userId;
        c_linkedinUrl :=
          or_empty (inputUrl p ||| li_url p ||| linkedinUrl p
                    ||| Some (url profileInput));
        c_extraLinks := extraLinks profileInput
      |}
  end.

(** [contactData.name && (contactData.experience > 0 ||
    contactData.company || contactData.jobTitle)], as a truth value. *)
Definition hasMinimumData (c : ContactData) : bool :=
  truthy (Some (c_name c))
  && ((0 <? c_experience c)%Z
      || truthy (Some (c_company c))
      || truthy (Some (c_jobTitle c))).

(** *** The handler's effects *)

(** What a [fetch] can come back with: it threw (or reading the body
    did), it answered without [ok], or it answered with a body. *)
Inductive reply (A : Type) : Type :=
| Failed (message : string)
| NotOk (status : nat)
| Ok (body : A).
Arguments Failed {A} message.
Arguments NotOk {A} status.
Arguments Ok {A} body.

(** The answer of the profiles endpoint to one save: the call threw, it
    was refused (with the [message] of the error body, if any), or the
    contact was saved. *)
Inductive save_reply : Type :=
| SaveThrew (message : string)
| SaveRefused (status : nat) (message : option string)
| Saved.

Record RunData : Type := { run_id : string; defaultDatasetId : string }.

(** The answers of the scraping service and of the profiles endpoint to
    the calls of one request: to the run submission, to the n-th status
    poll (from 0), to the retrieval of the items, and to the save of the
    i-th item. *)
Record Upstream : Type := {
  start_run : list string -> reply RunData;
  run_status : nat -> reply string;
  dataset_items : reply (list (option LinkedInProfile));
  save_profile : nat -> ContactData -> save_reply
}.

(** Outbound calls and waits, in the order they happen. *)
Inductive Call : Type :=
| StartRun (urls : list string)
| Sleep (ms : nat)
| GetRunStatus (runId : string)
| GetItems (datasetId : string)
| SaveProfile (contact : ContactData).

Record Summary : Type := {
  s_name : string;
  s_jobTitle : string;
  s_company : string;
  s_phone : string
}.

(** One entry of [results.results]: [status] is 'success' with [data], or
    'failed' with [error]. *)
Inductive ItemResult : Type :=
| ItemSuccess (url : string) (data : Summary)
| ItemFailed (url : string) (error : string).

Record Results : Type := {
  total : nat;
  processed : nat;
  successful : nat;
  failed : nat;
  results : list ItemResult
}.

(** The state a running handler works on: the [results] object it
    mutates, the outbound calls made so far, and the database. *)
Record HState : Type := {
  h_results : Results;
  h_calls : list Call;
  h_world : World
}.

Definition M (A : Type) : Type := HState -> completion A * HState.

Definition ret {A} (a : A) : M A := fun st => (Normal a, st).

Definition throw {A} (message : string) : M A := fun st => (Throw message, st).

Definition bind {A B} (m : M A) (f : A -> M B) : M B :=
  fun st =>
    match m st with
    | (Normal a, st') => f a st'
    | (Throw e, st') => (Throw e, st')
    end.

(** [try { body } catch (error) { handler(error.message) }] *)
Definition try_catch {A} (body : M A) (handler : string -> M A) : M A :=
  fun st =>
    match body st with
    | (Normal a, st') => (Normal a, st')
    | (Throw e, st') => handler e st'
    end.

Notation "x <- m ;; f" := (bind m (fun x => f))
  (at level 100, m at next level, right associativity).
Notation "m ;;; f" := (bind m (fun _ => f))
  (at level 100, right associativity).

Definition call (c : Call) : M unit :=
  fun st => (Normal tt,
             {| h_results := h_results st;
                h_calls := (h_calls st ++ [c])%list;
                h_world := h_world st |}).

Definition update_results (f : Results -> Results) : M unit :=
  fun st => (Normal tt,
             {| h_results := f (h_results st);
                h_calls := h_calls st;
                h_world := h_world st |}).

Definition incr_processed (r : Results) : Results :=
  {| total := total r; processed := S (processed r);
     successful := successful r; failed := failed r; results := results r |}.

Definition record_success (u : string) (d : Summary) (r : Results) : Results :=
  {| total := total r; processed := processed r;
     successful := S (successful r); failed := failed r;
     results := (results r ++ [ItemSuccess u d])%list |}.

Definition record_failure (u : string) (e : string) (r : Results) : Results :=
  {| total := total r; processed := processed r;
     successful := successful r; failed := S (failed r);
     results := (results r ++ [ItemFailed u e])%list |}.

(** *** POST /scrape-linkedin *)

Record Request : Type := {
  profilesData : option (list RawDescriptor);     (* [None]: not an array *)
  req_userId : option string
}.

Record Env : Type := { APIFY_API_KEY : option string }.

Inductive Response : Type :=
| ErrorResponse (status : nat) (error : string)
| ScrapeResponse (status : nat) (success : bool) (res : Results) (pointsEarned : nat).

Definition is_profile_url (d : RawDescriptor) : bool :=
  truthy (raw_url d)
  && (includes (or_empty (raw_url d)) "linkedin.com/in/"
      || includes (or_empty (raw_url d)) "linkedin.com/pub/").

Definition structure (d : RawDescriptor) : ProfileInput :=
  {| url := trim (or_empty (raw_url d));
     phone := trim (or_empty (raw_phone d ||| Some ""));
     email := trim (or_empty (raw_email d ||| Some ""));
     extraLinks :=
       match raw_extraLinks d with
       | Some l => filter (fun x => truthy (Some x) = true) l
       | None => []
       end |}.

Definition valid_profiles (l : list RawDescriptor) : list ProfileInput :=
  map structure (filter (fun d => is_profile_url d = true) l).

Definition maxAttempts : nat := 60.

(** The polling loop [while (runStatus === 'RUNNING' && attempts <
    maxAttempts)]; [remaining] is [maxAttempts - attempts]. *)
Fixpoint poll (up : Upstream) (runId : string) (remaining attempts : nat)
         (runStatus : string) : M string :=
  if String.eqb runStatus "RUNNING" then
    match remaining with
    | O => ret runStatus
    | S remaining' =>
        call (Sleep 3000) ;;;
        call (GetRunStatus runId) ;;;
        match run_status up attempts with
        | Ok status => poll up runId remaining' (S attempts) status
        | NotOk _ => throw "Failed to check scraping status"
        | Failed e => throw e
        end
    end
  else ret runStatus.

(** Submission, polling and retrieval: everything of the inner [try]
    that comes before the loop over the profiles. *)
Definition scrape (up : Upstream) (validProfiles : list ProfileInput)
  : M (list (option LinkedInProfile)) :=
  let urls := map url validProfiles in
  call (StartRun urls) ;;;
  match start_run up urls with
  | Failed e => throw e
  | NotOk status => throw ("LinkedIn scraping service failed: " ++ pretty status)
  | Ok runData =>
      runStatus <- poll up (run_id runData) maxAttempts 0 "RUNNING" ;;
      if negb (String.eqb runStatus "SUCCEEDED")
      then throw ("Scraping failed with status: " ++ runStatus)
      else
        call (GetItems (defaultDatasetId runData)) ;;;
        match dataset_items up with
        | Failed e => throw e
        | NotOk status => throw ("Failed to fetch scraping results: " ++ pretty status)
        | Ok scrapedData => ret scrapedData
        end
  end.

Definition insufficient_data : string :=
  "Insufficient profile data - profile must have a name and either experience, company, or job title".

(** One turn of the loop over [validProfiles]. *)
Definition process_profile (up : Upstream) (currentYear : Z) (userId : string)
    (i : nat) (profileInput : ProfileInput)
    (profileData : option LinkedInProfile) : M unit :=
  try_catch
    (update_results incr_processed ;;;
     match profileData with
     | None => throw "No profile data received"
     | Some _ =>
         match transformLinkedInDataWithPhone currentYear profileData
                 userId profileInput with
         | Throw e => throw e
         | Normal contactData =>
             if negb (hasMinimumData contactData) then throw insufficient_data
             else
               call (SaveProfile contactData) ;;;
               match save_profile up i contactData with
               | SaveThrew e => throw e
               | SaveRefused status message =>
                   throw (or_empty
                            (message
                             ||| Some ("Failed to save contact: " ++ pretty status)))
               | Saved =>
                   update_results
                     (record_success (url profileInput)
                        {| s_name := c_name contactData;
                           s_jobTitle := c_jobTitle contactData;
                           s_company := c_company contactData;
                           s_phone := c_phone contactData |})
               end
         end
     end)
    (fun error => update_results (record_failure (url profileInput) error)).

(** [for (let i = 0; i < validProfiles.length; i++)], from index [i] on;
    [scrapedData[i]] is absent past the end of the array. *)
Fixpoint process_from (up : Upstream) (currentYear : Z) (userId : string)
         (scrapedData : list (option LinkedInProfile)) (i : nat)
         (rest : list ProfileInput) : M unit :=
  match rest with
  | [] => ret tt
  | profileInput :: rest' =>
      process_profile up currentYear userId i profileInput
        (mjoin (scrapedData !! i)) ;;;
      process_from up currentYear userId scrapedData (S i) rest'
  end.

(** The [catch (scrapingError)] block. *)
Fixpoint mark_all_failed (validProfiles : list ProfileInput) : M unit :=
  match validProfiles with
  | [] => ret tt
  | profile :: rest =>
      update_results incr_processed ;;;
      update_results (record_failure (url profile) "LinkedIn scraping service failed") ;;;
      mark_all_failed rest
  end.

Definition fresh_results (n : nat) : Results :=
  {| total := n; processed := 0; successful := 0; failed := 0; results := [] |}.

(** The inner [try { ... } catch (scrapingError) { ... }]. *)
Definition batch (up : Upstream) (currentYear : Z) (userId : string)
    (validProfiles : list ProfileInput) : M unit :=
  try_catch
    (scrapedData <- scrape up validProfiles ;;
     process_from up currentYear userId scrapedData 0 validProfiles)
    (fun _ => mark_all_failed validProfiles).

Definition scrape_linkedin (env : Env) (up : Upstream) (currentYear : Z)
    (req : Request) (w : World) : Response * list Call * World :=
  match profilesData req with
  | None | Some [] =>
      (ErrorResponse 400 "ProfilesData array is required and cannot be empty", [], w)
  | Some (d :: ds) =>
      if negb (truthy (req_userId req))
      then (ErrorResponse 400 "User ID is required", [], w)
      else
        let userId := or_empty (req_userId req) in
        let validProfiles := valid_profiles (d :: ds) in
        if (length validProfiles =? 0)%nat
        then (ErrorResponse 400 "No valid LinkedIn URLs found", [], w)
        else if negb (truthy (APIFY_API_KEY env))
        then (ErrorResponse 500 "LinkedIn scraping service not configured", [], w)
        else
          let st0 := {| h_results := fresh_results (length validProfiles);
                        h_calls := []; h_world := w |} in
          match batch up currentYear userId validProfiles st0 with
          | (Normal _, st) =>
              (ScrapeResponse 200 true (h_results st)
                 (successful (h_results st) * 10),
               h_calls st, h_world st)
          | (Throw e, st) =>
              (ErrorResponse 500 "Internal server error", h_calls st, h_world st)
          end
  end.

End Scraper.

(* ===================================================================== *)
(** ** The dashboard routes *)
(* ===================================================================== *)

Module DashboardRoutes.
Import Js Store.

(** *** The collection operations the routes use *)

Definition findOne (user : string) (w : World) : option Dashboard :=
  dashboards w !! user.

(** Writing document [d] of [user] back: [create], [save] and
    [findOneAndUpdate] all end in this. *)
Definition store (kind : string -> DbWrite) (user : string) (d : Dashboard)
    (w : World) : World :=
  {| dashboards := <[user := d]> (dashboards w);
     profiles := profiles w;
     dashboard_writes := (dashboard_writes w ++ [kind user])%list |}.

(** [Profile.countDocuments({ uploadedBy: userId })] *)
Definition countDocuments (user : string) (w : World) : Z :=
  Z.of_nat (length (filter (fun p => uploadedBy p = user) (profiles w))).

(** Modelled from the spec: the defaults of the Dashboard schema
    (models/Dashboard.js is not among the sources), used for the fields
    an upsert does not set: 100 points, counters at zero, empty lists. *)
Definition schema_defaults (user : string) (now : nat) : Dashboard :=
  {| userId := user; availablePoints := 100; totalContacts := 0;
     unlockedProfiles := 0; myUploads := 0; uploadedProfileIds := [];
     unlockedContactIds := Some []; recentActivity := []; updatedAt := now |}.

(** The last [n] elements: [$slice: -n], and [slice(-n)]. *)
Definition lastn {A} (n : nat) (l : list A) : list A :=
  drop (length l - n) l.

(** [$push: { field: { $each: items, $slice: -n } }] on one array. *)
Definition push_each_slice (n : nat) (items l : list string) : list string :=
  lastn n (l ++ items)%list.

Inductive Response : Type :=
| ErrorJson (status : nat) (error : string)
| DashboardJson (d : Dashboard)
| ActivityJson (success : bool) (activity : string) (totalActivities : nat).

(** *** GET / *)

Definition get_dashboard (now : nat) (user : string) (w : World) : Response * World :=
  let '(dashboard, w1) :=
    match findOne user w with
    | Some d => (d, w)
    | None =>
        let d := {| userId := user; availablePoints := 100; totalContacts := 0;
                    unlockedProfiles := 0; myUploads := 0;
                    uploadedProfileIds := []; unlockedContactIds := Some [];
                    recentActivity := ["Welcome! Dashboard created."];
                    updatedAt := now |} in
        (d, store DashboardCreate user d w)
    end in
  let actualUploads := countDocuments user w1 in
  let actualUnlockedCount :=
    match unlockedContactIds dashboard with
    | Some ids => Z.of_nat (length ids)
    | None => 0%Z
    end in
  if negb (myUploads dashboard =? actualUploads)%Z
     || negb (unlockedProfiles dashboard =? actualUnlockedCount)%Z
  then
    let d := {| userId := userId dashboard;
                availablePoints := availablePoints dashboard;
                totalContacts := actualUploads;
                unlockedProfiles := actualUnlockedCount;
                myUploads := actualUploads;
                uploadedProfileIds := uploadedProfileIds dashboard;
                unlockedContactIds := unlockedContactIds dashboard;
                recentActivity := recentActivity dashboard;
                updatedAt := updatedAt dashboard |} in
    (DashboardJson d, store DashboardSave user d w1)
  else (DashboardJson dashboard, w1).

(** *** POST / *)

Record UpdateBody : Type := {
  b_availablePoints : option Z;
  b_totalContacts : option Z;
  b_unlockedProfiles : option Z;
  b_myUploads : option Z;
  b_unlockedContactIds : option (list string);
  b_uploadedProfileIds : option (list string);
  b_recentActivity : option (list string)
}.

(** [findOneAndUpdate({ userId }, { $set: updateData }, { new: true,
    upsert: true })], the undefined entries of [updateData] removed. *)
Definition post_dashboard (now : nat) (user : string) (body : UpdateBody)
    (w : World) : Response * World :=
  let old := default (schema_defaults user now) (findOne user w) in
  let d := {| userId := userId old;
              availablePoints := default (availablePoints old) (b_availablePoints body);
              totalContacts := default (totalContacts old) (b_totalContacts body);
              unlockedProfiles := default (unlockedProfiles old) (b_unlockedProfiles body);
              myUploads := default (myUploads old) (b_myUploads body);
              uploadedProfileIds := default [] (b_uploadedProfileIds body);
              unlockedContactIds := Some (default [] (b_unlockedContactIds body));
              recentActivity := default [] (b_recentActivity body);
              updatedAt := now |} in
  (DashboardJson d, store DashboardUpdate user d w).

(** *** PATCH /activity *)

Definition patch_activity (now : nat) (user : string) (activity : option string)
    (w : World) : Response * World :=
  if negb (truthy activity) then (ErrorJson 400 "Activity message required", w)
  else
    let old := default (schema_defaults user now) (findOne user w) in
    let d := {| userId := userId old;
                availablePoints := availablePoints old;
                totalContacts := totalContacts old;
                unlockedProfiles := unlockedProfiles old;
                myUploads := myUploads old;
                uploadedProfileIds := uploadedProfileIds old;
                unlockedContactIds := unlockedContactIds old;
                recentActivity :=
                  push_each_slice 20 [or_empty activity] (recentActivity old);
                updatedAt := now |} in
    (ActivityJson true (or_empty activity) (length (recentActivity d)),
     store DashboardUpdate user d w).

(** A run of activity appends for one user, oldest request first. *)
Definition patch_activities (now : nat) (user : string) (activities : list string)
    (w : World) : World :=
  fold_left (fun w a => snd (patch_activity now user (Some a) w)) activities w.

(** The activity log stored for a user; empty when there is no dashboard. *)
Definition activity_log (user : string) (w : World) : list string :=
  match findOne user w with
  | Some d => recentActivity d
  | None => []
  end.

End DashboardRoutes.

(* ===================================================================== *)
(** ** Vocabulary of the statements *)
(* ===================================================================== *)

Module Spec.
Import Js Regex.

(** A character of an identifier: a word character, a hyphen, a percent
    sign, a dot or a digit. *)
Definition id_char (c : ascii) : bool :=
  is_word c || Ascii.eqb c "-" || Ascii.eqb c "%" || Ascii.eqb c "."
  || between 48 57 c.

Definition is_terminator (c : ascii) : bool :=
  Ascii.eqb c "/" || Ascii.eqb c "?".

(** What may follow an identifier: [/], [?] or the end of the string. *)
Definition terminated (rest : chars) : bool :=
  match rest with
  | [] => true
  | c :: _ => is_terminator c
  end.

Definition marker : string := "linkedin.com/in/".

(** [s] reads [pre], then [linkedin.com/in/] in any letter case, then the
    identifier [run], which ends the string or is followed by [/] or [?]. *)
Definition Occurs (s pre run : string) : Prop :=
  exists lit rest : string,
    s = pre ++ lit ++ run ++ rest
    /\ toLowerCase lit = marker
    /\ run <> ""
    /\ forallb id_char (list_ascii_of_string run) = true
    /\ terminated (list_ascii_of_string rest) = true.

(** The longest prefix of [s] made of characters satisfying [p], and what
    comes after it. *)
Fixpoint run_of (p : ascii -> bool) (s : chars) : chars :=
  match s with
  | c :: s' => if p c then c :: run_of p s' else []
  | [] => []
  end.

Fixpoint after_run (p : ascii -> bool) (s : chars) : chars :=
  match s with
  | c :: s' => if p c then after_run p s' else s
  | [] => []
  end.

(** The pattern characters [w] at the front of [s], letter case aside. *)
Fixpoint lit_prefix (w s : chars) : bool :=
  match w, s with
  | [], _ => true
  | a :: w', b :: s' => Ascii.eqb a (lower_char b) && lit_prefix w' s'
  | _ :: _, [] => false
  end.

(** The identifier found when the helper's pattern is tried at the very
    front of [s]. *)
Definition token_here (s : chars) : option chars :=
  if lit_prefix (list_ascii_of_string marker) s then
    let t := drop 16 s in
    match run_of id_char t with
    | [] => None
    | r => if terminated (after_run id_char t) then Some r else None
    end
  else None.

(** *** Seniority *)

(** [title] contains the keyword [kw], letter case aside. *)
Definition Mentions (title kw : string) : Prop :=
  exists pre mid post : string,
    title = pre ++ mid ++ post /\ toLowerCase mid = kw.

Definition MentionsAny (title : string) (kws : list string) : Prop :=
  exists kw, In kw kws /\ Mentions title kw.

Definition c_level_words : list string := ["ceo"; "cto"; "cfo"; "chief"].
Definition vp_words : list string := ["vp"; "vice president"].
Definition director_words : list string := ["director"; "manager"].
Definition senior_words : list string := ["senior"; "lead"; "principal"].

(** The precedence of the seniority rules: the first rule that applies
    gives the level. *)
Inductive Seniority (title : string) (years : Z) : string -> Prop :=
| seniority_c_level :
    MentionsAny title c_level_words ->
    Seniority title years "C-Level"
| seniority_vp :
    ~ MentionsAny title c_level_words ->
    MentionsAny title vp_words ->
    Seniority title years "VP"
| seniority_director :
    ~ MentionsAny title c_level_words ->
    ~ MentionsAny title vp_words ->
    MentionsAny title director_words ->
    Seniority title years "Director"
| seniority_senior :
    ~ MentionsAny title c_level_words ->
    ~ MentionsAny title vp_words ->
    ~ MentionsAny title director_words ->
    MentionsAny title senior_words ->
    Seniority title years "Senior"
| seniority_entry :
    ~ MentionsAny title c_level_words ->
    ~ MentionsAny title vp_words ->
    ~ MentionsAny title director_words ->
    ~ MentionsAny title senior_words ->
    Mentions title "junior" \/ (years < 2)%Z ->
    Seniority title years "Entry-level"
| seniority_mid :
    ~ MentionsAny title c_level_words ->
    ~ MentionsAny title vp_words ->
    ~ MentionsAny title director_words ->
    ~ MentionsAny title senior_words ->
    ~ (Mentions title "junior" \/ (years < 2)%Z) ->
    Seniority title years "Mid-level".

(** A string field that is there and not empty, and one that is not. *)
Definition present (v : option string) (s : string) : Prop :=
  v = Some s /\ s <> "".

Definition absent (v : option string) : Prop :=
  v = None \/ v = Some "".

(** The title the level is derived from: the payload's [jobTitle], else
    its [occupation], else the title of its first position, else none. *)
Inductive EffectiveTitle (p : Scraper.LinkedInProfile) : string -> Prop :=
| title_of_payload s :
    present (Scraper.jobTitle p) s -> EffectiveTitle p s
| title_of_occupation s :
    absent (Scraper.jobTitle p) -> present (Scraper.occupation p) s ->
    EffectiveTitle p s
| title_of_first_position pos rest s :
    absent (Scraper.jobTitle p) -> absent (Scraper.occupation p) ->
    Scraper.positions p = Some (pos :: rest) ->
    present (Scraper.title pos) s ->
    EffectiveTitle p s
| title_missing :
    absent (Scraper.jobTitle p) -> absent (Scraper.occupation p) ->
    (forall pos rest, Scraper.positions p = Some (pos :: rest) ->
                      absent (Scraper.title pos)) ->
    EffectiveTitle p "".

(** A payload with nothing in it, to build examples from. *)
Definition empty_profile : Scraper.LinkedInProfile :=
  {| Scraper.firstName := None; Scraper.lastName := None;
     Scraper.fullName := None; Scraper.jobTitle := None;
     Scraper.occupation := None; Scraper.companyName := None;
     Scraper.industryName := None; Scraper.geoLocationName := None;
     Scraper.geoCountryName := None; Scraper.li_phone := None;
     Scraper.li_email := None; Scraper.pictureUrl := None;
     Scraper.profilePicture := None; Scraper.inputUrl := None;
     Scraper.li_url := None; Scraper.linkedinUrl := None;
     Scraper.positions := None; Scraper.skills := None;
     Scraper.courses := None; Scraper.certifications := None |}.

Definition titled (t : string) : Scraper.LinkedInProfile :=
  {| Scraper.firstName := Some "Ada"; Scraper.lastName := Some "Lovelace";
     Scraper.fullName := None; Scraper.jobTitle := Some t;
     Scraper.occupation := None; Scraper.companyName := None;
     Scraper.industryName := None; Scraper.geoLocationName := None;
     Scraper.geoCountryName := None; Scraper.li_phone := None;
     Scraper.li_email := None; Scraper.pictureUrl := None;
     Scraper.profilePicture := None; Scraper.inputUrl := None;
     Scraper.li_url := None; Scraper.linkedinUrl := None;
     Scraper.positions := None; Scraper.skills := None;
     Scraper.courses := None; Scraper.certifications := None |}.

Definition sample_input : Scraper.ProfileInput :=
  {| Scraper.url := "https://www.linkedin.com/in/ada";
     Scraper.phone := ""; Scraper.email := ""; Scraper.extraLinks := [] |}.

(** *** Skills *)

(** A blank string: nothing but white space. *)
Definition Blank (s : string) : Prop :=
  Forall (fun c => is_space c = true) (list_ascii_of_string s).

#[global] Instance Blank_dec (s : string) : Decision (Blank s).
Proof. unfold Blank. apply _. Defined.

(** The text of an entry: the entry itself when it is a string, else its
    [name], else its [title], else nothing. *)
Inductive EntryText : Scraper.Entry -> string -> Prop :=
| text_plain s : EntryText (Scraper.Plain s) s
| text_name name title s :
    present name s -> EntryText (Scraper.Named name title) s
| text_title name title s :
    absent name -> present title s -> EntryText (Scraper.Named name title) s
| text_none name title :
    absent name -> absent title -> EntryText (Scraper.Named name title) "".

(** The names a source contributes: the texts of its entries, blank ones
    discarded; an absent source contributes none. *)
Definition names_of (source : option (list Scraper.Entry)) : list string :=
  filter (fun s => ~ Blank s) (map Scraper.entry_text (default [] source)).

(** Deduplication that keeps the first occurrence of every value. *)
Fixpoint keep_first (l : list string) : list string :=
  match l with
  | [] => []
  | x :: l' => x :: filter (fun y => y <> x) (keep_first l')
  end.

(** *** The scrape handler *)

(** A record with a name and at least one of: experience, a company, a
    job title. *)
Definition Sufficient (c : Scraper.ContactData) : Prop :=
  Scraper.c_name c <> ""
  /\ ((0 < Scraper.c_experience c)%Z
      \/ Scraper.c_company c <> ""
      \/ Scraper.c_jobTitle c <> "").

(** The contacts sent to the profiles endpoint among some calls. *)
Fixpoint saves (calls : list Scraper.Call) : list Scraper.ContactData :=
  match calls with
  | [] => []
  | Scraper.SaveProfile c :: rest => c :: saves rest
  | _ :: rest => saves rest
  end.

(** The number of status polls among some calls. *)
Fixpoint polls (calls : list Scraper.Call) : nat :=
  match calls with
  | [] => 0
  | Scraper.GetRunStatus _ :: rest => S (polls rest)
  | _ :: rest => polls rest
  end.

(** The number of successful entries of a result list. *)
Fixpoint successes (l : list Scraper.ItemResult) : nat :=
  match l with
  | [] => 0
  | Scraper.ItemSuccess _ _ :: rest => S (successes rest)
  | Scraper.ItemFailed _ _ :: rest => successes rest
  end.

(** The state the handler starts its work in. *)
Definition initial_state (validProfiles : list Scraper.ProfileInput)
    (w : Store.World) : Scraper.HState :=
  {| Scraper.h_results := Scraper.fresh_results (length validProfiles);
     Scraper.h_calls := []; Scraper.h_world := w |}.

(** A request that passes validation, with the profiles that remain. *)
Definition Validated (env : Scraper.Env) (req : Scraper.Request)
    (validProfiles : list Scraper.ProfileInput) : Prop :=
  exists descriptors,
    Scraper.profilesData req = Some descriptors
    /\ truthy (Scraper.req_userId req) = true
    /\ validProfiles = Scraper.valid_profiles descriptors
    /\ validProfiles <> []
    /\ truthy (Scraper.APIFY_API_KEY env) = true.

(** The submission, polling and retrieval stage fails. *)
Definition StageFails (up : Scraper.Upstream)
    (validProfiles : list Scraper.ProfileInput) (w : Store.World) : Prop :=
  exists e st,
    Scraper.scrape up validProfiles (initial_state validProfiles w) = (Js.Throw e, st).

(** Every profile failed, for the one reason. *)
Definition all_failed (validProfiles : list Scraper.ProfileInput) : Scraper.Results :=
  {| Scraper.total := length validProfiles;
     Scraper.processed := length validProfiles;
     Scraper.successful := 0;
     Scraper.failed := length validProfiles;
     Scraper.results :=
       map (fun p => Scraper.ItemFailed (Scraper.url p)
                       "LinkedIn scraping service failed") validProfiles |}.

(** [n] rounds of waiting three seconds and asking for the status. *)
Fixpoint poll_rounds (runId : string) (n : nat) : list Scraper.Call :=
  match n with
  | O => []
  | S n' => Scraper.Sleep 3000 :: Scraper.GetRunStatus runId :: poll_rounds runId n'
  end.

(** The handler has left the database alone, and its success counter
    counts the successful entries. *)
Definition Consistent (w : Store.World) (st : Scraper.HState) : Prop :=
  Scraper.h_world st = w
  /\ Scraper.successful (Scraper.h_results st)
     = successes (Scraper.results (Scraper.h_results st)).

(** Sample surroundings for the examples. *)
Definition stuck_upstream : Scraper.Upstream :=
  {| Scraper.start_run :=
       fun _ => Scraper.Ok {| Scraper.run_id := "run-1";
                              Scraper.defaultDatasetId := "set-1" |};
     Scraper.run_status := fun _ => Scraper.Ok "RUNNING";
     Scraper.dataset_items := Scraper.Ok [];
     Scraper.save_profile := fun _ _ => Scraper.Saved |}.

Definition sample_request : Scraper.Request :=
  {| Scraper.profilesData :=
       Some [ {| Scraper.raw_url := Some "https://www.linkedin.com/in/ada";
                 Scraper.raw_phone := None; Scraper.raw_email := None;
                 Scraper.raw_extraLinks := None |} ];
     Scraper.req_userId := Some "user-1" |}.

Definition sample_env : Scraper.Env := {| Scraper.APIFY_API_KEY := Some "token" |}.

Definition empty_world : Store.World :=
  {| Store.dashboards := ∅; Store.profiles := []; Store.dashboard_writes := [] |}.

(** *** The dashboard *)

(** A user with two uploaded profiles and no dashboard yet, and an update
    whose counters do not agree with each other. *)
Definition uploads_world : Store.World :=
  {| Store.dashboards := ∅;
     Store.profiles := [ {| Store.uploadedBy := "user-1" |};
                         {| Store.uploadedBy := "user-2" |};
                         {| Store.uploadedBy := "user-1" |} ];
     Store.dashboard_writes := [] |}.

Definition drift_body : DashboardRoutes.UpdateBody :=
  {| DashboardRoutes.b_availablePoints := None;
     DashboardRoutes.b_totalContacts := Some 7%Z;
     DashboardRoutes.b_unlockedProfiles := Some 0%Z;
     DashboardRoutes.b_myUploads := Some 2%Z;
     DashboardRoutes.b_unlockedContactIds := None;
     DashboardRoutes.b_uploadedProfileIds := None;
     DashboardRoutes.b_recentActivity := None |}.

(** The payload of the worked example: one position, started in 2018. *)
Definition engineer_since_2018 : Scraper.LinkedInProfile :=
  {| Scraper.firstName := Some "Ada"; Scraper.lastName := Some "Lovelace";
     Scraper.fullName := None; Scraper.jobTitle := None;
     Scraper.occupation := None; Scraper.companyName := None;
     Scraper.industryName := None; Scraper.geoLocationName := None;
     Scraper.geoCountryName := None; Scraper.li_phone := None;
     Scraper.li_email := None; Scraper.pictureUrl := None;
     Scraper.profilePicture := None; Scraper.inputUrl := None;
     Scraper.li_url := None; Scraper.linkedinUrl := None;
     Scraper.positions :=
       Some [ {| Scraper.title := Some "Engineer";
                 Scraper.pos_companyName := Some "Acme";
                 Scraper.pos_company := None;
                 Scraper.locationName := None;
                 Scraper.timePeriod :=
                   Some {| Scraper.startDate :=
                             Some {| Scraper.month := None;
                                     Scraper.year := Some 2018%Z |};
                           Scraper.endDate := None |} |} ];
     Scraper.skills := None; Scraper.courses := None;
     Scraper.certifications := None |}.

(** *** The extractor of the Profile model *)

(** [s] reads [linkedin.com/in/], in any letter case, right after [pre]. *)
Definition MarkerAt (s pre : string) : Prop :=
  exists lit rest : string, s = pre ++ lit ++ rest /\ toLowerCase lit = marker.

Definition not_terminator (c : ascii) : bool := negb (is_terminator c).

(** The identifier found when the model's pattern is tried at the very
    front of [s]. *)
Definition model_token_here (s : chars) : option chars :=
  if starts_with (list_ascii_of_string marker) s then
    match run_of not_terminator (drop 16 s) with
    | [] => None
    | r => Some r
    end
  else None.

End Spec.

(* ===================================================================== *)
(** ** linkedinHelper.js: the duplicate check; the Profile model's hook *)
(* ===================================================================== *)

Module Duplicates.
Import Js.

(** The Profile schema. *)
Record Profile : Type := {
  p_name : option string;
  p_jobTitle : option string;
  p_company : option string;
  p_location : option string;
  p_industry : option string;
  p_experience : option Z;
  p_seniorityLevel : option string;
  p_skills : list string;
  p_education : option string;
  p_workExperience : option string;
  p_email : option string;
  p_phone : option string;
  p_avatar : option string;
  p_linkedinUrl : option string;
  p_linkedinId : option string;
  p_extraLinks : list string;
  p_uploadedBy : option string
}.

(** [this.linkedinId = id] *)
Definition with_linkedinId (id : option string) (doc : Profile) : Profile :=
  {| p_name := p_name doc; p_jobTitle := p_jobTitle doc;
     p_company := p_company doc; p_location := p_location doc;
     p_industry := p_industry doc; p_experience := p_experience doc;
     p_seniorityLevel := p_seniorityLevel doc; p_skills := p_skills doc;
     p_education := p_education doc; p_workExperience := p_workExperience doc;
     p_email := p_email doc; p_phone := p_phone doc; p_avatar := p_avatar doc;
     p_linkedinUrl := p_linkedinUrl doc; p_linkedinId := id;
     p_extraLinks := p_extraLinks doc; p_uploadedBy := p_uploadedBy doc |}.

(** The pre-save middleware of the schema. *)
Definition pre_save (doc : Profile) : completion Profile :=
  if truthy (p_linkedinUrl doc) then
    match ProfileModel.extractLinkedInId (p_linkedinUrl doc) with
    | Normal id => Normal (with_linkedinId id doc)
    | Throw e => Throw e
    end
  else Normal doc.

Record DuplicateReport : Type := { dup_exists : bool; dup_message : string }.

(** [checkLinkedInDuplicate(url, Profile)]; of the model handed in, only
    [findOne({ linkedinId })] is used, so that is what is passed here.  A
    rejected lookup is caught and answered with [null]. *)
Definition checkLinkedInDuplicate (url : option string)
    (findOne : string -> completion (option Profile))
  : completion (option DuplicateReport) :=
  if negb (truthy url) then Normal None
  else
    match LinkedinHelper.extractLinkedInId url with
    | Throw e => Throw e
    | Normal linkedinId =>
        if negb (truthy linkedinId) then Normal None
        else
          match findOne (or_empty linkedinId) with
          | Normal existingProfile =>
              Normal
                match existingProfile with
                | Some _ =>
                    Some {| dup_exists := true;
                            dup_message :=
                              "A profile with this LinkedIn URL already exists" |}
                | None => None
                end
          | Throw _ => Normal None
          end
    end.

(** [findOne({ linkedinId })] on a collection held as a list, oldest
    document first. *)
Definition find_by_linkedinId (collection : list Profile) (id : string)
  : completion (option Profile) :=
  Normal (find (fun doc => bool_decide (p_linkedinId doc = Some id)) collection).

End Duplicates.

(* ===================================================================== *)
(** ** The dashboard routes that only read *)
(* ===================================================================== *)

Module DashboardReads.
Import Js Store DashboardRoutes.

(** What the listings select of a profile: [name jobTitle company
    uploadedAt]. *)
Record ProfileSummary : Type := {
  ps_name : option string;
  ps_jobTitle : option string;
  ps_company : option string;
  ps_uploadedAt : nat
}.

Inductive ReadResponse : Type :=
| NotFound (error : string)
| UnlockedJson (userId : string) (unlockedContactIds : list string)
    (totalUnlocked : Z) (actualUnlockedCount : nat)
    (unlockedProfiles : list ProfileSummary)
| ActivitySummaryJson (recentActivity : list string)
    (uploadedProfiles : list ProfileSummary) (totalActivities : nat)
    (lastUpdated : nat).

(** [GET /unlocked]; [profilesById] is the answer of the profile
    collection to [find({ _id: { $in: ids } })]. *)
Definition get_unlocked (user : string)
    (profilesById : list string -> list ProfileSummary) (w : World) : ReadResponse :=
  match findOne user w with
  | None => NotFound "Dashboard not found"
  | Some dashboard =>
      UnlockedJson user
        (default [] (unlockedContactIds dashboard))
        (if (unlockedProfiles dashboard =? 0)%Z then 0%Z
         else unlockedProfiles dashboard)
        (match unlockedContactIds dashboard with
         | Some ids => length ids
         | None => 0
         end)
        (profilesById (default [] (unlockedContactIds dashboard)))
  end.

(** [GET /activity]; [uploaded] is the answer of the profile collection to
    the query for the user's ten latest uploads. *)
Definition get_activity (user : string) (uploaded : list ProfileSummary)
    (w : World) : ReadResponse :=
  match findOne user w with
  | None => NotFound "Dashboard not found"
  | Some dashboard =>
      let recentActivity := recentActivity dashboard in
      ActivitySummaryJson (rev (lastn 10 recentActivity)) uploaded
        (length recentActivity) (updatedAt dashboard)
  end.

End DashboardReads.

(* ===================================================================== *)
(** ** routes/auth.js *)
(* ===================================================================== *)

Module Auth.
Import Js Store DashboardRoutes.

(** [s.split(sep)] for a one-character separator. *)
Fixpoint split_chars (sep : ascii) (l : chars) : list chars :=
  match l with
  | [] => [[]]
  | c :: l' =>
      if Ascii.eqb c sep then [] :: split_chars sep l'
      else
        match split_chars sep l' with
        | seg :: rest => (c :: seg) :: rest
        | [] => [[c]]
        end
  end.

Definition split (s : string) (sep : ascii) : list string :=
  map string_of_list_ascii (split_chars sep (list_ascii_of_string s)).

(** What [jwt.verify] can do with a token: return the payload, of which
    only [id] is read, or throw an error of one of these names. *)
Inductive verdict : Type :=
| Verified (id : string)
| TokenExpiredError
| JsonWebTokenError
| OtherError.

(** The user documents, as far as auth.js reads them.  Modelled from the
    code that uses them: models/User.js is not among the sources. *)
Record User : Type := {
  u_id : string;
  u_name : string;
  u_email : string;
  u_password : option string;
  u_avatar : option string;
  u_googleId : option string
}.

(** The libraries and the user collection a handler works with:
    [jwt.verify], [createToken] (that is [jwt.sign] on the id),
    [bcrypt.hash] and [bcrypt.compare], [User.findOne({ email })] and
    [User.create]. *)
Record Services : Type := {
  verify : string -> verdict;
  createToken : string -> string;
  hash : string -> nat -> string;
  compare : string -> string -> bool;
  findUserByEmail : string -> option User;
  createUser : string -> string -> string -> User
}.

Record UserResponse : Type := {
  r_id : string;
  r_name : string;
  r_email : string;
  r_avatar : option string;
  r_googleId : option string
}.

Definition createUserResponse (user : User) : UserResponse :=
  {| r_id := u_id user;
     r_name := u_name user;
     r_email := u_email user;
     r_avatar := u_avatar user ||| None;
     r_googleId := u_googleId user ||| None |}.

(** *** authMiddleware *)

Inductive AuthOutcome : Type :=
| Next (userId : string)
| Rejected (status : nat) (message : string).

Definition authMiddleware (sv : Services) (authorization : option string) : AuthOutcome :=
  if negb (truthy authorization) then Rejected 401 "No authorization header provided"
  else
    let token := split (or_empty authorization) " " !! 1 in
    if negb (truthy token) then Rejected 401 "No token provided"
    else
      match verify sv (or_empty token) with
      | Verified id => Next id
      | TokenExpiredError => Rejected 401 "Token expired"
      | JsonWebTokenError => Rejected 401 "Invalid token"
      | OtherError => Rejected 401 "Token verification failed"
      end.

(** A route registered behind the middleware: the handler runs only when
    the middleware calls [next], with the user id it found. *)
Definition protected {R : Type} (sv : Services) (authorization : option string)
    (handler : string -> World -> R * World) (w : World)
  : (nat * string + R) * World :=
  match authMiddleware sv authorization with
  | Next userId => let '(r, w') := handler userId w in (inr r, w')
  | Rejected status message => (inl (status, message), w)
  end.

(** *** The account routes *)

Inductive AuthResponse : Type :=
| Message (status : nat) (message : string)
| Session (status : nat) (message : string) (user : UserResponse) (token : string).

(** A write to the user collection. *)
Inductive UserWrite : Type :=
| UserCreate (name email password : string).

Record SignupBody : Type := {
  sb_name : option string;
  sb_email : option string;
  sb_password : option string
}.

(** [POST /signup] *)
Definition signup (sv : Services) (production : bool) (now : nat)
    (body : SignupBody) (w : World) : AuthResponse * list UserWrite * World :=
  if negb (truthy (sb_name body)) || negb (truthy (sb_email body))
     || negb (truthy (sb_password body))
  then (Message 400 "Please provide name, email, and password", [], w)
  else
    let name := or_empty (sb_name body) in
    let email := or_empty (sb_email body) in
    let password := or_empty (sb_password body) in
    if (String.length password <? 6)%nat
    then (Message 400 "Password must be at least 6 characters long", [], w)
    else
      match findUserByEmail sv (toLowerCase email) with
      | Some _ => (Message 400 "User already exists with this email", [], w)
      | None =>
          let saltRounds := if production then 12 else 10 in
          let hashedPassword := hash sv password saltRounds in
          let user := createUser sv (trim name) (trim (toLowerCase email))
                        hashedPassword in
          let dashboard :=
            {| userId := u_id user; availablePoints := 100; totalContacts := 0;
               unlockedProfiles := 0; myUploads := 0; uploadedProfileIds := [];
               unlockedContactIds := Some [];
               recentActivity :=
                 ["Welcome to the platform! You started with 100 points."];
               updatedAt := now |} in
          (Session 201 "Account created successfully" (createUserResponse user)
             (createToken sv (u_id user)),
           [UserCreate (trim name) (trim (toLowerCase email)) hashedPassword],
           store DashboardCreate (u_id user) dashboard w)
      end.

Record LoginBody : Type := {
  lb_email : option string;
  lb_password : option string
}.

(** [POST /login]; a dashboard created here gets the defaults of the
    schema for what the call does not name. *)
Definition login (sv : Services) (now : nat) (body : LoginBody) (w : World)
  : AuthResponse * World :=
  if negb (truthy (lb_email body)) || negb (truthy (lb_password body))
  then (Message 400 "Please provide email and password", w)
  else
    let email := or_empty (lb_email body) in
    let password := or_empty (lb_password body) in
    match findUserByEmail sv (trim (toLowerCase email)) with
    | None => (Message 400 "Invalid credentials", w)
    | Some user =>
        if negb (truthy (u_password user))
        then (Message 400 "Please login with Google or reset your password", w)
        else if negb (compare sv password (or_empty (u_password user)))
        then (Message 400 "Invalid credentials", w)
        else
          let w' :=
            match findOne (u_id user) w with
            | Some _ => w
            | None =>
                let defaults := schema_defaults (u_id user) now in
                store DashboardCreate (u_id user)
                  {| userId := u_id user; availablePoints := 100;
                     totalContacts := totalContacts defaults;
                     unlockedProfiles := unlockedProfiles defaults;
                     myUploads := myUploads defaults;
                     uploadedProfileIds := uploadedProfileIds defaults;
                     unlockedContactIds := unlockedContactIds defaults;
                     recentActivity := ["Welcome back! Dashboard created."];
                     updatedAt := updatedAt defaults |} w
            end in
          (Session 200 "Login successful" (createUserResponse user)
             (createToken sv (u_id user)), w')
    end.

(** [POST /forgot-password] *)
Definition forgot_password (sv : Services) (email : option string) : AuthResponse :=
  if negb (truthy email) then Message 400 "Email is required"
  else
    match findUserByEmail sv (trim (toLowerCase (or_empty email))) with
    | None =>
        Message 200 "If an account with that email exists, a reset link has been sent."
    | Some _ =>
        Message 200 "If an account with that email exists, a reset link has been sent."
    end.

End Auth.

(* ===================================================================== *)
(** ** Further vocabulary and sample data *)
(* ===================================================================== *)

Module Samples.
Import Js.

(** A profile document that carries nothing but a URL. *)
Definition profile_with_url (u : string) : Duplicates.Profile :=
  {| Duplicates.p_name := None; Duplicates.p_jobTitle := None;
     Duplicates.p_company := None; Duplicates.p_location := None;
     Duplicates.p_industry := None; Duplicates.p_experience := None;
     Duplicates.p_seniorityLevel := None; Duplicates.p_skills := [];
     Duplicates.p_education := None; Duplicates.p_workExperience := None;
     Duplicates.p_email := None; Duplicates.p_phone := None;
     Duplicates.p_avatar := None; Duplicates.p_linkedinUrl := Some u;
     Duplicates.p_linkedinId := None; Duplicates.p_extraLinks := [];
     Duplicates.p_uploadedBy := None |}.


Definition result_url (e : Scraper.ItemResult) : string :=
  match e with
  | Scraper.ItemSuccess u _ => u
  | Scraper.ItemFailed u _ => u
  end.

Definition is_success (e : Scraper.ItemResult) : Prop :=
  match e with
  | Scraper.ItemSuccess _ _ => True
  | Scraper.ItemFailed _ _ => False
  end.

(** Item [i] has data, the data is sufficient, and the save went through. *)
Definition ItemSucceeds (up : Scraper.Upstream) (currentYear : Z) (userId : string)
    (i : nat) (input : Scraper.ProfileInput)
    (data : option Scraper.LinkedInProfile) : Prop :=
  exists p c,
    data = Some p
    /\ Scraper.transformLinkedInDataWithPhone currentYear (Some p) userId input
       = Normal c
    /\ Spec.Sufficient c
    /\ Scraper.save_profile up i c = Scraper.Saved.

(** An upstream whose run succeeds at the third poll and that returns no
    item at all. *)
Definition empty_handed_upstream : Scraper.Upstream :=
  {| Scraper.start_run :=
       fun _ => Scraper.Ok {| Scraper.run_id := "run-2";
                              Scraper.defaultDatasetId := "set-2" |};
     Scraper.run_status :=
       fun n => Scraper.Ok (if (n <? 2)%nat then "RUNNING" else "SUCCEEDED");
     Scraper.dataset_items := Scraper.Ok [];
     Scraper.save_profile := fun _ _ => Scraper.Saved |}.

(** An update that names no list and no points. *)
Definition counters_only (total uploads unlocked : Z) : DashboardRoutes.UpdateBody :=
  {| DashboardRoutes.b_availablePoints := None;
     DashboardRoutes.b_totalContacts := Some total;
     DashboardRoutes.b_unlockedProfiles := Some unlocked;
     DashboardRoutes.b_myUploads := Some uploads;
     DashboardRoutes.b_unlockedContactIds := None;
     DashboardRoutes.b_uploadedProfileIds := None;
     DashboardRoutes.b_recentActivity := None |}.

(** A string without a space in it. *)
Definition no_space (s : string) : Prop :=
  forallb (fun c => negb (Ascii.eqb c " ")) (list_ascii_of_string s) = true.

(** Services that know the one token ["t-ada"] (of user ["user-1"]) and
    no account. *)
Definition sample_services : Auth.Services :=
  {| Auth.verify :=
       fun t => if String.eqb t "t-ada" then Auth.Verified "user-1"
                else Auth.JsonWebTokenError;
     Auth.createToken := fun id => "token-for-" ++ id;
     Auth.hash := fun p _ => "hashed-" ++ p;
     Auth.compare := fun p h => String.eqb ("hashed-" ++ p) h;
     Auth.findUserByEmail := fun _ => None;
     Auth.createUser :=
       fun n e p => {| Auth.u_id := "user-9"; Auth.u_name := n; Auth.u_email := e;
                       Auth.u_password := Some p; Auth.u_avatar := None;
                       Auth.u_googleId := None |} |}.

End Samples.

(* ===================================================================== *)
(** ** Facts about characters and strings *)
(* ===================================================================== *)

Section Characters.
Import Js Regex Spec.

Lemma all_chars_complete (c : ascii) : In c all_chars.
Proof.
  unfold all_chars. rewrite <- (ascii_nat_embedding c).
  apply in_map, in_seq. pose proof (nat_ascii_bounded c). lia.
Qed.

Lemma for_all_chars (P : ascii -> bool) :
  forallb P all_chars = true -> forall c, P c = true.
Proof.
  intros H c. rewrite forallb_forall in H. apply H, all_chars_complete.
Qed.

Lemma canonical_vs_lower (a c : ascii) :
  Ascii.eqb (canonicalize a) (canonicalize c)
  = Ascii.eqb (lower_char a) (lower_char c).
Proof.
  revert a c.
  assert (H : forallb (fun a => forallb (fun c =>
                Bool.eqb (Ascii.eqb (canonicalize a) (canonicalize c))
                         (Ascii.eqb (lower_char a) (lower_char c)))
              all_chars) all_chars = true) by (vm_compute; reflexivity).
  intros a c.
  pose proof (for_all_chars _ H a) as Ha. cbv beta in Ha.
  pose proof (for_all_chars _ Ha c) as Hc. cbv beta in Hc.
  apply Bool.eqb_prop in Hc. exact Hc.
Qed.

Lemma id_class_matches (c : ascii) :
  atom_matches true LinkedinHelper.id_class c = id_char c.
Proof.
  revert c.
  assert (H : forallb (fun c =>
                Bool.eqb (atom_matches true LinkedinHelper.id_class c) (id_char c))
              all_chars = true) by (vm_compute; reflexivity).
  intros c. apply Bool.eqb_prop. exact (for_all_chars _ H c).
Qed.

Lemma terminator_class_matches (c : ascii) :
  atom_matches true (Class false [One "/"; One "?"]) c = is_terminator c.
Proof.
  revert c.
  assert (H : forallb (fun c =>
                Bool.eqb (atom_matches true (Class false [One "/"; One "?"]) c)
                         (is_terminator c))
              all_chars = true) by (vm_compute; reflexivity).
  intros c. apply Bool.eqb_prop. exact (for_all_chars _ H c).
Qed.

Lemma id_char_not_terminator (c : ascii) :
  id_char c = true -> is_terminator c = false.
Proof.
  revert c.
  assert (H : forallb (fun c => implb (id_char c) (negb (is_terminator c)))
              all_chars = true) by (vm_compute; reflexivity).
  intros c Hc. pose proof (for_all_chars _ H c) as H'. cbv beta in H'.
  rewrite Hc in H'. simpl in H'. destruct (is_terminator c); [discriminate | reflexivity].
Qed.

Lemma lower_char_idempotent (c : ascii) : lower_char (lower_char c) = lower_char c.
Proof.
  revert c.
  assert (H : forallb (fun c => Ascii.eqb (lower_char (lower_char c)) (lower_char c))
              all_chars = true) by (vm_compute; reflexivity).
  intros c. apply Ascii.eqb_eq. exact (for_all_chars _ H c).
Qed.

Lemma id_char_lower (c : ascii) : id_char c = true -> id_char (lower_char c) = true.
Proof.
  revert c.
  assert (H : forallb (fun c => implb (id_char c) (id_char (lower_char c)))
              all_chars = true) by (vm_compute; reflexivity).
  intros c Hc. pose proof (for_all_chars _ H c) as H'. cbv beta in H'.
  rewrite Hc in H'. exact H'.
Qed.

End Characters.

(* ===================================================================== *)
(** ** The matcher on the helper's pattern *)
(* ===================================================================== *)

Section MatcherFacts.
Import Js Regex Spec.
Local Open Scope list_scope.

Lemma star_pointwise {R} (p q : ascii -> bool) (s : chars) (k : chars -> option R) :
  (forall c, p c = q c) -> star p s k = star q s k.
Proof.
  intros Hpq. induction s as [|c s IH]; simpl; [reflexivity|].
  rewrite Hpq, IH. reflexivity.
Qed.

(** When the continuation refuses every input that still starts with a
    [p]-character, the greedy loop ends exactly after the longest run. *)
Lemma star_longest {R} (p : ascii -> bool) (s : chars) (k : chars -> option R) :
  (forall c u, p c = true -> k (c :: u) = None) ->
  star p s k = k (after_run p s).
Proof.
  intros Hk. induction s as [|c s IH]; simpl; [reflexivity|].
  destruct (p c) eqn:Hc; [|reflexivity].
  rewrite IH. destruct (k (after_run p s)) eqn:Hr; [reflexivity|].
  apply Hk, Hc.
Qed.

Lemma run_of_after_run (p : ascii -> bool) (s : chars) :
  (run_of p s ++ after_run p s)%list = s.
Proof.
  induction s as [|c s IH]; simpl; [reflexivity|].
  destruct (p c); simpl; [f_equal; exact IH | reflexivity].
Qed.

Lemma run_of_all (p : ascii -> bool) (s : chars) : forallb p (run_of p s) = true.
Proof.
  induction s as [|c s IH]; simpl; [reflexivity|].
  destruct (p c) eqn:Hc; simpl; [rewrite Hc; exact IH | reflexivity].
Qed.

(** A run of [p]-characters followed by something that does not start
    with one is the longest run. *)
Lemma run_of_app (p : ascii -> bool) (r rest : chars) :
  forallb p r = true ->
  match rest with [] => true | c :: _ => negb (p c) end = true ->
  run_of p (r ++ rest) = r /\ after_run p (r ++ rest) = rest.
Proof.
  intros Hr Hrest. induction r as [|c r IH]; simpl in *.
  - destruct rest as [|c u]; [split; reflexivity|].
    simpl. destruct (p c); [discriminate | split; reflexivity].
  - apply andb_prop in Hr as [Hc Hr]. rewrite Hc.
    destruct (IH Hr) as [-> ->]. split; reflexivity.
Qed.

Lemma run_lit {R} (w s : chars) cap (k : chars -> option chars -> option R) :
  forallb (fun c => Ascii.eqb (lower_char c) c) w = true ->
  run true (fold_right (fun c r => Cat (Atom (Chr c)) r) Empty w) s cap k
  = if lit_prefix w s then k (drop (length w) s) cap else None.
Proof.
  revert s. induction w as [|a w IH]; intros s Hw; simpl.
  - reflexivity.
  - simpl in Hw. apply andb_prop in Hw as [Ha Hw].
    destruct s as [|b s]; [reflexivity|].
    rewrite canonical_vs_lower. apply Ascii.eqb_eq in Ha. rewrite Ha.
    destruct (Ascii.eqb a (lower_char b)); simpl; [apply IH, Hw | reflexivity].
Qed.

Lemma length_after_run (p : ascii -> bool) (s : chars) :
  length s - length (after_run p s) = length (run_of p s).
Proof.
  rewrite <- (run_of_after_run p s) at 1. rewrite length_app. lia.
Qed.

(** The helper's pattern tried at the front of [s]. *)
Lemma match_here_helper (s : chars) :
  match_here true LinkedinHelper.pattern s
  = match token_here s with
    | Some r => Some {| group1 := Some r |}
    | None => None
    end.
Proof.
  unfold match_here, LinkedinHelper.pattern, Lit, token_here.
  cbn [run]. rewrite run_lit by (vm_compute; reflexivity).
  destruct (lit_prefix _ s); [|reflexivity].
  change (length (list_ascii_of_string "linkedin.com/in/")) with 16.
  set (t := drop 16 s).
  destruct t as [|c t'] eqn:Ht; [reflexivity|].
  rewrite id_class_matches.
  cbn [run_of after_run].
  destruct (id_char c) eqn:Hc; [|reflexivity].
  rewrite (star_pointwise _ id_char) by apply id_class_matches.
  rewrite star_longest.
  - pose proof (length_after_run id_char (c :: t')) as Hlen.
    cbn [run_of after_run] in Hlen. rewrite Hc in Hlen.
    rewrite Hlen.
    assert (Htake : take (length (c :: run_of id_char t')) (c :: t')
                    = c :: run_of id_char t').
    { rewrite <- (run_of_after_run id_char t') at 2.
      rewrite app_comm_cons. apply take_app_length. }
    rewrite Htake.
    destruct (after_run id_char t') as [|d u]; [reflexivity|].
    cbn [terminated]. rewrite terminator_class_matches.
    destruct (is_terminator d); reflexivity.
  - intros d u Hd. rewrite terminator_class_matches.
    rewrite (id_char_not_terminator d Hd). reflexivity.
Qed.

Lemma lit_prefix_intro (w l rest : chars) :
  lower_chars l = w -> lit_prefix w (l ++ rest) = true.
Proof.
  intros <-. induction l as [|b l IH]; simpl; [reflexivity|].
  rewrite Ascii.eqb_refl. exact IH.
Qed.

Lemma lit_prefix_elim (w s : chars) :
  lit_prefix w s = true ->
  s = take (length w) s ++ drop (length w) s
  /\ lower_chars (take (length w) s) = w.
Proof.
  revert s. induction w as [|a w IH]; intros s H; simpl in *.
  - rewrite drop_0. split; reflexivity.
  - destruct s as [|b s]; [discriminate|].
    apply andb_prop in H as [Hab H]. apply Ascii.eqb_eq in Hab.
    destruct (IH s H) as [Hs Hl]. simpl. split.
    + f_equal. exact Hs.
    + rewrite <- Hab. f_equal. exact Hl.
Qed.

Lemma terminated_not_id (rest : chars) :
  terminated rest = true ->
  match rest with [] => true | c :: _ => negb (id_char c) end = true.
Proof.
  destruct rest as [|c u]; [reflexivity|]. simpl. intros Hc.
  destruct (id_char c) eqn:Hid; [|reflexivity].
  rewrite (id_char_not_terminator c Hid) in Hc. discriminate.
Qed.

Lemma token_here_intro (l r rest : chars) :
  lower_chars l = list_ascii_of_string marker ->
  r <> [] -> forallb id_char r = true -> terminated rest = true ->
  token_here (l ++ r ++ rest) = Some r.
Proof.
  intros Hl Hr Hid Hrest. unfold token_here.
  rewrite (lit_prefix_intro _ l (r ++ rest) Hl).
  assert (Hlen : length l = 16).
  { rewrite <- (length_map lower_char l). fold (lower_chars l). rewrite Hl. reflexivity. }
  rewrite <- Hlen, drop_app_length.
  destruct (run_of_app id_char r rest Hid (terminated_not_id rest Hrest)) as [-> ->].
  rewrite Hrest. destruct r; [contradiction | reflexivity].
Qed.

Lemma token_here_elim (s r : chars) :
  token_here s = Some r ->
  exists l rest,
    s = l ++ r ++ rest
    /\ lower_chars l = list_ascii_of_string marker
    /\ r <> [] /\ forallb id_char r = true /\ terminated rest = true.
Proof.
  unfold token_here. intros H.
  destruct (lit_prefix _ s) eqn:Hp; [|discriminate].
  apply lit_prefix_elim in Hp as [Hs Hl].
  change (length (list_ascii_of_string marker)) with 16 in Hs, Hl.
  destruct (run_of id_char (drop 16 s)) as [|c r'] eqn:Hrun; [discriminate|].
  destruct (terminated (after_run id_char (drop 16 s))) eqn:Ht; [|discriminate].
  injection H as <-.
  exists (take 16 s), (after_run id_char (drop 16 s)).
  split; [rewrite <- Hrun, run_of_after_run; exact Hs|].
  split; [exact Hl|].
  split; [discriminate|].
  split; [rewrite <- Hrun; apply run_of_all | exact Ht].
Qed.

Lemma exec_helper_none (s : chars) :
  (forall p u, s = p ++ u -> token_here u = None) ->
  exec true LinkedinHelper.pattern s = None.
Proof.
  induction s as [|c s IH]; intros H; cbn [exec]; rewrite match_here_helper.
  - rewrite (H [] [] eq_refl). reflexivity.
  - rewrite (H [] (c :: s) eq_refl). apply IH.
    intros p u ->. apply (H (c :: p) u). reflexivity.
Qed.

Lemma exec_helper_some (pre u r : chars) :
  token_here u = Some r ->
  (forall p1 p2, pre = p1 ++ p2 -> p2 <> [] -> token_here (p2 ++ u) = None) ->
  exec true LinkedinHelper.pattern (pre ++ u) = Some {| group1 := Some r |}.
Proof.
  intros Hu. induction pre as [|c pre IH]; intros Hpre.
  - simpl. destruct u; cbn [exec]; rewrite match_here_helper, Hu; reflexivity.
  - change ((c :: pre) ++ u) with (c :: (pre ++ u)). cbn [exec].
    rewrite match_here_helper.
    assert (H0 : token_here (c :: pre ++ u) = None)
      by (apply (Hpre [] (c :: pre)); [reflexivity | discriminate]).
    rewrite H0. apply IH. intros p1 p2 -> Hp2. apply (Hpre (c :: p1) p2); [reflexivity | exact Hp2].
Qed.

(** Whenever the helper's pattern matches, its group holds text. *)
Lemma exec_helper_group (s : chars) (m : match_array) :
  exec true LinkedinHelper.pattern s = Some m -> exists r, group1 m = Some r.
Proof.
  induction s as [|c s IH]; cbn [exec]; rewrite match_here_helper;
    destruct (token_here _) as [r|]; intros H; try discriminate.
  - injection H as <-. eauto.
  - injection H as <-. eauto.
  - apply IH, H.
Qed.

Lemma chars_app (a b : string) :
  list_ascii_of_string (a ++ b)%string
  = list_ascii_of_string a ++ list_ascii_of_string b.
Proof.
  induction a as [|c a IH]; [reflexivity|].
  change (c :: list_ascii_of_string (a ++ b)%string
          = c :: (list_ascii_of_string a ++ list_ascii_of_string b)).
  f_equal. exact IH.
Qed.

Lemma string_app (a b : chars) :
  string_of_list_ascii (a ++ b)
  = (string_of_list_ascii a ++ string_of_list_ascii b)%string.
Proof.
  induction a as [|c a IH]; [reflexivity|].
  change (String c (string_of_list_ascii (a ++ b))
          = String c (string_of_list_ascii a ++ string_of_list_ascii b)%string).
  f_equal. exact IH.
Qed.

Lemma string_length_chars (l : chars) :
  String.length (string_of_list_ascii l) = length l.
Proof. induction l as [|c l IH]; simpl; [reflexivity | f_equal; exact IH]. Qed.

Lemma chars_nil (s : string) : list_ascii_of_string s = [] -> s = ""%string.
Proof. destruct s; [reflexivity | discriminate]. Qed.

Lemma lower_of_string (s : string) :
  list_ascii_of_string (toLowerCase s) = lower_chars (list_ascii_of_string s).
Proof. unfold toLowerCase. apply list_ascii_of_string_of_list_ascii. Qed.

(** From an occurrence in the string to the matcher's view of it. *)
Lemma occurs_token (s pre run : string) :
  Occurs s pre run ->
  exists u,
    list_ascii_of_string s = list_ascii_of_string pre ++ u
    /\ token_here u = Some (list_ascii_of_string run).
Proof.
  intros (lit & rest & -> & Hlit & Hrun & Hid & Hrest).
  exists (list_ascii_of_string lit ++ list_ascii_of_string run
          ++ list_ascii_of_string rest).
  split.
  - rewrite !chars_app. reflexivity.
  - apply token_here_intro; try assumption.
    + rewrite <- lower_of_string, Hlit. reflexivity.
    + intros H. apply Hrun, chars_nil, H.
Qed.

(** And back. *)
Lemma token_occurs (s : string) (p u r : chars) :
  list_ascii_of_string s = p ++ u ->
  token_here u = Some r ->
  Occurs s (string_of_list_ascii p) (string_of_list_ascii r).
Proof.
  intros Hs Hu.
  apply token_here_elim in Hu as (l & rest & -> & Hl & Hr & Hid & Hrest).
  exists (string_of_list_ascii l), (string_of_list_ascii rest).
  split; [|split; [|split; [|split]]].
  - rewrite <- !string_app, <- Hs. symmetry. apply string_of_list_ascii_of_string.
  - unfold toLowerCase. rewrite list_ascii_of_string_of_list_ascii, Hl.
    reflexivity.
  - intros H. apply Hr. rewrite <- (list_ascii_of_string_of_list_ascii r), H.
    reflexivity.
  - rewrite list_ascii_of_string_of_list_ascii. exact Hid.
  - rewrite list_ascii_of_string_of_list_ascii. exact Hrest.
Qed.

Lemma occurs_truthy (s pre run : string) :
  Occurs s pre run -> truthy (Some s) = true.
Proof.
  intros (lit & rest & -> & Hlit & _). simpl.
  destruct (String.eqb_spec (pre ++ lit ++ run ++ rest)%string "") as [E|]; [|reflexivity].
  apply (f_equal list_ascii_of_string) in E. rewrite !chars_app in E.
  destruct lit as [|c lit]; [discriminate|].
  destruct (list_ascii_of_string pre); discriminate.
Qed.


(** The helper returns the identifier of the leftmost place that reads as
    a profile path, [null] when there is none, and never throws. *)
Lemma extractLinkedInId_leftmost (url : option string) :
  (forall s pre run,
      url = Some s -> Occurs s pre run ->
      (forall pre' run', Occurs s pre' run' ->
                         String.length pre <= String.length pre') ->
      LinkedinHelper.extractLinkedInId url = Normal (Some (toLowerCase run)))
  /\ ((forall s pre run, url = Some s -> ~ Occurs s pre run) ->
      LinkedinHelper.extractLinkedInId url = Normal None)
  /\ LinkedinHelper.extractLinkedInId None = Normal None
  /\ LinkedinHelper.extractLinkedInId (Some ""%string) = Normal None
  /\ (forall message, LinkedinHelper.extractLinkedInId url <> Throw message).
Proof.
  split; [|split; [|split; [|split]]].
  - intros s pre run -> Hocc Hleft.
    unfold LinkedinHelper.extractLinkedInId.
    rewrite (occurs_truthy _ _ _ Hocc). cbn [negb or_empty].
    unfold str_match.
    destruct (occurs_token _ _ _ Hocc) as (u & Hs & Hu).
    rewrite Hs, (exec_helper_some _ _ _ Hu).
    + cbn [group1]. rewrite string_of_list_ascii_of_string. reflexivity.
    + intros p1 p2 Hpre Hp2.
      destruct (token_here (p2 ++ u)) as [r'|] eqn:Hr'; [|reflexivity].
      exfalso. rewrite Hpre, <- app_assoc in Hs.
      pose proof (Hleft _ _ (token_occurs _ _ _ _ Hs Hr')) as Hle.
      rewrite string_length_chars in Hle.
      rewrite <- (string_of_list_ascii_of_string pre), string_length_chars in Hle.
      rewrite Hpre, length_app in Hle.
      destruct p2; [contradiction | simpl in Hle; lia].
  - intros Hnone. unfold LinkedinHelper.extractLinkedInId.
    destruct (truthy url) eqn:Ht; [|reflexivity]. cbn [negb].
    destruct url as [s|]; [|discriminate]. cbn [or_empty]. unfold str_match.
    rewrite exec_helper_none; [reflexivity|].
    intros p u Hs. destruct (token_here u) as [r|] eqn:Hr; [|reflexivity].
    exfalso. exact (Hnone s _ _ eq_refl (token_occurs _ _ _ _ Hs Hr)).
  - reflexivity.
  - reflexivity.
  - intros message. unfold LinkedinHelper.extractLinkedInId.
    destruct (negb (truthy url)); [discriminate|].
    unfold str_match.
    destruct (exec true LinkedinHelper.pattern _) as [m|] eqn:Hm; [|discriminate].
    destruct (exec_helper_group _ _ Hm) as [r ->]. discriminate.
Qed.


End MatcherFacts.

Section Leftmost.
Import Js Regex Spec.
Local Open Scope list_scope.

(** What a successful search found: the first place, from the left, at
    which the pattern matches. *)
Lemma exec_helper_found (s : chars) (m : match_array) :
  exec true LinkedinHelper.pattern s = Some m ->
  exists p u r,
    s = p ++ u /\ token_here u = Some r /\ m = {| group1 := Some r |}
    /\ forall p1 p2, p = p1 ++ p2 -> p2 <> [] -> token_here (p2 ++ u) = None.
Proof.
  induction s as [|c s IH]; cbn [exec]; rewrite match_here_helper.
  - destruct (token_here []) as [r|] eqn:Hr; [|discriminate].
    intros [= <-]. exists [], [], r.
    split; [reflexivity|]. split; [exact Hr|]. split; [reflexivity|].
    intros p1 p2 Hp. destruct p1, p2; try discriminate; try contradiction.
  - destruct (token_here (c :: s)) as [r|] eqn:Hr.
    + intros [= <-]. exists [], (c :: s), r.
      split; [reflexivity|]. split; [exact Hr|]. split; [reflexivity|].
      intros p1 p2 Hp. destruct p1, p2; try discriminate; try contradiction.
    + intros Hm. destruct (IH Hm) as (p & u & r & -> & Hu & -> & Hleft).
      exists (c :: p), u, r.
      split; [reflexivity|]. split; [exact Hu|]. split; [reflexivity|].
      intros p1 p2 Hp Hp2. destruct p1 as [|c1 p1].
      * simpl in Hp. subst p2. exact Hr.
      * injection Hp as <- ->. apply (Hleft p1 p2); [reflexivity | exact Hp2].
Qed.

Lemma exec_helper_missed (s : chars) :
  exec true LinkedinHelper.pattern s = None ->
  forall p u, s = p ++ u -> token_here u = None.
Proof.
  induction s as [|c s IH]; cbn [exec]; rewrite match_here_helper.
  - destruct (token_here []) eqn:Hr; [discriminate|].
    intros _ p u Hs. destruct p, u; try discriminate. exact Hr.
  - destruct (token_here (c :: s)) eqn:Hr; [discriminate|].
    intros Hm p u Hs. destruct p as [|c1 p].
    + simpl in Hs. subst u. exact Hr.
    + injection Hs as <- ->. apply (IH Hm p u). reflexivity.
Qed.

Lemma app_eq_shorter {A} (a b x y : list A) :
  a ++ x = b ++ y -> length a < length b ->
  exists c, c <> [] /\ b = a ++ c /\ x = c ++ y.
Proof.
  revert b. induction a as [|h a IH]; intros b Heq Hlen.
  - simpl in Heq. exists b. split; [|split; [reflexivity | exact Heq]].
    intros ->. simpl in Hlen. lia.
  - destruct b as [|h' b]; simpl in Hlen; [lia|].
    injection Heq as <- Heq. destruct (IH b Heq) as (c & Hc & -> & ->); [lia|].
    exists c. split; [exact Hc|]. split; reflexivity.
Qed.

Lemma chars_length (s : string) : length (list_ascii_of_string s) = String.length s.
Proof.
  rewrite <- (string_of_list_ascii_of_string s) at 2. symmetry.
  apply string_length_chars.
Qed.

(** C1.  On a string that reads [linkedin.com/in/] (in any letter case)
    followed by a non-empty run of word characters, hyphens, percent
    signs, dots and digits that ends the string or is followed by [/] or
    [?], [extractLinkedInId] returns that run in lower case; when the
    string has several such places, the run is that of the leftmost one.
    On every other input, [null] and the empty string among them, it
    returns [null].  It never throws. *)
Theorem extractLinkedInId_spec (url : option string) :
  (forall s,
      url = Some s ->
      (exists pre run, Occurs s pre run) ->
      exists pre run,
        Occurs s pre run
        /\ (forall pre' run', Occurs s pre' run' ->
                              String.length pre <= String.length pre')
        /\ LinkedinHelper.extractLinkedInId url = Normal (Some (toLowerCase run)))
  /\ ((forall s pre run, url = Some s -> ~ Occurs s pre run) ->
      LinkedinHelper.extractLinkedInId url = Normal None)
  /\ LinkedinHelper.extractLinkedInId None = Normal None
  /\ LinkedinHelper.extractLinkedInId (Some ""%string) = Normal None
  /\ (forall message, LinkedinHelper.extractLinkedInId url <> Throw message).
Proof.
  destruct (extractLinkedInId_leftmost url) as (Hleftmost & Hnone & Hnull & Hempty & Hthrow).
  split; [|split; [exact Hnone | split; [exact Hnull | split; [exact Hempty | exact Hthrow]]]].
  intros s -> (pre0 & run0 & Hocc0).
  destruct (exec true LinkedinHelper.pattern (list_ascii_of_string s)) as [m|] eqn:Hm.
  2:{ exfalso. destruct (occurs_token _ _ _ Hocc0) as (u & Hs & Hu).
      rewrite (exec_helper_missed _ Hm _ _ Hs) in Hu. discriminate. }
  destruct (exec_helper_found _ _ Hm) as (p & u & r & Hs & Hu & _ & Hleft).
  pose proof (token_occurs s p u r Hs Hu) as Hocc.
  assert (Hmin : forall pre' run', Occurs s pre' run' ->
            String.length (string_of_list_ascii p) <= String.length pre').
  { intros pre' run' Hocc'. rewrite string_length_chars, <- chars_length.
    destruct (Nat.le_gt_cases (length p) (length (list_ascii_of_string pre')))
      as [Hle | Hlt]; [exact Hle|].
    exfalso. destruct (occurs_token _ _ _ Hocc') as (u' & Hs' & Hu').
    rewrite Hs in Hs'. symmetry in Hs'.
    destruct (app_eq_shorter _ _ _ _ Hs' Hlt) as (c & Hc & Hp & Hu'').
    rewrite Hu'', (Hleft _ _ Hp Hc) in Hu'. discriminate. }
  exists (string_of_list_ascii p), (string_of_list_ascii r).
  split; [exact Hocc|]. split; [exact Hmin|].
  exact (Hleftmost s _ _ eq_refl Hocc Hmin).
Qed.

Lemma extractLinkedInId_spec_witness :
  exists pre run,
    Occurs "https://www.LinkedIn.com/in/John-Doe?trk=1" pre run
    /\ LinkedinHelper.extractLinkedInId
         (Some "https://www.LinkedIn.com/in/John-Doe?trk=1"%string)
       = Normal (Some (toLowerCase run)).
Proof.
  destruct (proj1 (extractLinkedInId_spec
                     (Some "https://www.LinkedIn.com/in/John-Doe?trk=1"%string))
              "https://www.LinkedIn.com/in/John-Doe?trk=1"%string eq_refl)
    as (pre & run & Hocc & _ & Hid).
  - exists "https://www."%string, "John-Doe"%string,
           "LinkedIn.com/in/"%string, "?trk=1"%string.
    split; [reflexivity|]. split; [reflexivity|]. split; [discriminate|].
    split; reflexivity.
  - exists pre, run. split; [exact Hocc | exact Hid].
Defined.

End Leftmost.

(* ===================================================================== *)
(** ** Seniority *)
(* ===================================================================== *)

Section SeniorityFacts.
Import Js Spec Scraper.
Local Open Scope list_scope.

Lemma starts_with_spec (w l : chars) :
  starts_with w l = true <-> exists post, l = w ++ post.
Proof.
  revert l. induction w as [|a w IH]; intros l; simpl.
  - split; [intros _; exists l; reflexivity | reflexivity].
  - destruct l as [|b l].
    + split; [discriminate | intros [post H]; discriminate].
    + rewrite andb_true_iff, Ascii.eqb_eq, IH. split.
      * intros [-> [post ->]]. exists post. reflexivity.
      * intros [post H]. injection H as -> ->. eauto.
Qed.

Lemma includes_chars_spec (l w : chars) :
  includes_chars l w = true <-> exists pre post, l = pre ++ w ++ post.
Proof.
  induction l as [|b l IH]; simpl.
  - rewrite orb_false_r, starts_with_spec. split.
    + intros [post H]. exists [], post. exact H.
    + intros (pre & post & H). destruct pre; [|discriminate]. exists post. exact H.
  - rewrite orb_true_iff, starts_with_spec, IH. split.
    + intros [[post H] | (pre & post & ->)].
      * exists [], post. exact H.
      * exists (b :: pre), post. reflexivity.
    + intros (pre & post & H). destruct pre as [|c pre].
      * left. exists post. exact H.
      * right. injection H as -> ->. eauto.
Qed.

Lemma mentions_includes (title kw : string) :
  includes (toLowerCase title) kw = true <-> Mentions title kw.
Proof.
  unfold includes, Mentions. rewrite lower_of_string, includes_chars_spec. split.
  - intros (pre & post & H). unfold lower_chars in H.
    apply map_eq_app in H as (pre' & rest & Ht & Hpre & H).
    apply map_eq_app in H as (mid' & post' & Hrest & Hmid & Hpost).
    exists (string_of_list_ascii pre'), (string_of_list_ascii mid'),
           (string_of_list_ascii post').
    split.
    + rewrite <- !string_app, <- Hrest, <- Ht. symmetry.
      apply string_of_list_ascii_of_string.
    + unfold toLowerCase. rewrite list_ascii_of_string_of_list_ascii.
      unfold lower_chars. rewrite Hmid. apply string_of_list_ascii_of_string.
  - intros (pre & mid & post & -> & Hmid).
    exists (lower_chars (list_ascii_of_string pre)),
           (lower_chars (list_ascii_of_string post)).
    rewrite !chars_app. unfold lower_chars. rewrite !map_app. do 2 f_equal.
    rewrite <- Hmid. symmetry. apply lower_of_string.
Qed.

Lemma mentions_any_existsb (title : string) (kws : list string) :
  existsb (includes (toLowerCase title)) kws = true <-> MentionsAny title kws.
Proof.
  unfold MentionsAny. rewrite existsb_exists. split.
  - intros (kw & Hin & H). exists kw. split; [exact Hin | apply mentions_includes, H].
  - intros (kw & Hin & H). exists kw. split; [exact Hin | apply mentions_includes, H].
Qed.

Lemma not_mentions_any (title : string) (kws : list string) :
  existsb (includes (toLowerCase title)) kws = false -> ~ MentionsAny title kws.
Proof.
  intros H Hm. apply mentions_any_existsb in Hm. congruence.
Qed.

Lemma seniority_rules (title : string) (years : Z) :
  Seniority title years (seniority title years).
Proof.
  unfold seniority.
  set (tl := toLowerCase title).
  assert (Hc : includes tl "ceo" || includes tl "cto" || includes tl "cfo"
               || includes tl "chief" = existsb (includes tl) c_level_words)
    by (simpl; rewrite orb_false_r, !orb_assoc; reflexivity).
  assert (Hv : includes tl "vp" || includes tl "vice president"
               = existsb (includes tl) vp_words)
    by (simpl; rewrite orb_false_r; reflexivity).
  assert (Hd : includes tl "director" || includes tl "manager"
               = existsb (includes tl) director_words)
    by (simpl; rewrite orb_false_r; reflexivity).
  assert (Hs : includes tl "senior" || includes tl "lead" || includes tl "principal"
               = existsb (includes tl) senior_words)
    by (simpl; rewrite orb_false_r, !orb_assoc; reflexivity).
  rewrite Hc, Hv, Hd, Hs. clear Hc Hv Hd Hs. subst tl.
  destruct (existsb _ c_level_words) eqn:Ec.
  { apply seniority_c_level, mentions_any_existsb, Ec. }
  apply not_mentions_any in Ec.
  destruct (existsb _ vp_words) eqn:Ev.
  { apply seniority_vp; [exact Ec | apply mentions_any_existsb, Ev]. }
  apply not_mentions_any in Ev.
  destruct (existsb _ director_words) eqn:Ed.
  { apply seniority_director; [exact Ec | exact Ev | apply mentions_any_existsb, Ed]. }
  apply not_mentions_any in Ed.
  destruct (existsb _ senior_words) eqn:Es.
  { apply seniority_senior; try assumption. apply mentions_any_existsb, Es. }
  apply not_mentions_any in Es.
  destruct (includes (toLowerCase title) "junior" || (years <? 2)%Z) eqn:Ej.
  - apply seniority_entry; try assumption.
    apply orb_true_iff in Ej as [Ej | Ej].
    + left. apply mentions_includes, Ej.
    + right. apply Z.ltb_lt, Ej.
  - apply seniority_mid; try assumption.
    apply orb_false_iff in Ej as [Ej Ey]. intros [H | H].
    + apply mentions_includes in H. congruence.
    + apply Z.ltb_lt in H. congruence.
Qed.

Lemma truthy_present (v : option string) :
  truthy v = true -> present v (or_empty v).
Proof.
  destruct v as [s|]; simpl; [|discriminate]. intros H. split; [reflexivity|].
  intros ->. discriminate.
Qed.

Lemma falsy_absent (v : option string) : truthy v = false -> absent v.
Proof.
  destruct v as [s|]; simpl; [|left; reflexivity]. intros H. right. f_equal.
  destruct (String.eqb_spec s ""); [assumption | discriminate].
Qed.

Lemma absent_falsy (v : option string) : absent v -> truthy v = false.
Proof. intros [-> | ->]; reflexivity. Qed.

Lemma job_title_effective (p : LinkedInProfile) : EffectiveTitle p (job_title p).
Proof.
  unfold job_title, or_else.
  destruct (truthy (jobTitle p)) eqn:Hj.
  { rewrite Hj. apply title_of_payload, truthy_present, Hj. }
  apply falsy_absent in Hj as Hj'.
  destruct (truthy (occupation p)) eqn:Ho.
  { apply title_of_occupation; [exact Hj' | apply truthy_present, Ho]. }
  apply falsy_absent in Ho as Ho'.
  unfold first_position.
  destruct (positions p) as [[|pos rest]|] eqn:Hp; cbn [mbind option_bind or_empty].
  - apply title_missing; try assumption. intros ? ? H0. congruence.
  - destruct (truthy (title pos)) eqn:Ht.
    + apply (title_of_first_position p pos rest); try assumption.
      apply truthy_present, Ht.
    + replace (or_empty (title pos)) with "".
      * apply title_missing; try assumption. intros ? ? H0.
        rewrite Hp in H0. injection H0 as <- <-. apply falsy_absent, Ht.
      * apply falsy_absent in Ht as [-> | ->]; reflexivity.
  - apply title_missing; try assumption. intros ? ? H0. congruence.
Qed.

End SeniorityFacts.

Section SeniorityClaims.
Import Js Spec Scraper.

(** C2.  For every payload the normaliser returns a record whose job
    title is the effective title (the payload's [jobTitle], else its
    [occupation], else the first position's title) and whose seniority
    level follows from that title and the experience years by the rules in
    their order: ceo/cto/cfo/chief, then vp/vice president, then
    director/manager, then senior/lead/principal, then junior or fewer than
    two years, and Mid-level otherwise; keywords are found as substrings,
    letter case aside. *)
Theorem seniority_follows_precedence
    (currentYear : Z) (p : LinkedInProfile) (userId : string) (input : ProfileInput) :
  exists c,
    transformLinkedInDataWithPhone currentYear (Some p) userId input = Normal c
    /\ EffectiveTitle p (c_jobTitle c)
    /\ c_experience c = experience_years currentYear p
    /\ Seniority (c_jobTitle c) (c_experience c) (c_seniorityLevel c).
Proof.
  eexists. split; [reflexivity|]. cbn [c_jobTitle c_experience c_seniorityLevel].
  split; [apply job_title_effective|]. split; [reflexivity|].
  apply seniority_rules.
Qed.

(** C3, as stated, fails: a Senior Manager is a Director. *)
Lemma senior_manager_is_director :
  exists c,
    transformLinkedInDataWithPhone 2024 (Some (titled "Senior Manager")) "user-1"
      sample_input = Normal c
    /\ Mentions (c_jobTitle c) "senior"
    /\ c_seniorityLevel c = "Director"
    /\ c_seniorityLevel c <> "Senior".
Proof.
  eexists. split; [reflexivity|]. split; [|split].
  - exists "", "Senior", " Manager". split; reflexivity.
  - vm_compute. reflexivity.
  - vm_compute. discriminate.
Qed.

(** C3, amended.  A title that contains "senior" (letter case aside) and
    none of the keywords of the three rules above it gives the level
    Senior, whatever the experience years. *)
Theorem senior_title_gives_senior
    (currentYear : Z) (p : LinkedInProfile) (userId : string) (input : ProfileInput)
    (c : ContactData) :
  transformLinkedInDataWithPhone currentYear (Some p) userId input = Normal c ->
  Mentions (c_jobTitle c) "senior" ->
  ~ MentionsAny (c_jobTitle c) (c_level_words ++ vp_words ++ director_words)%list ->
  c_seniorityLevel c = "Senior".
Proof.
  intros Hc Hsenior Hnone. injection Hc as <-.
  cbn [c_jobTitle c_seniorityLevel] in *.
  assert (Hs : MentionsAny (job_title p) senior_words)
    by (exists "senior"; split; [left; reflexivity | exact Hsenior]).
  assert (Hno : forall kws, incl kws (c_level_words ++ vp_words ++ director_words)%list ->
                            ~ MentionsAny (job_title p) kws).
  { intros kws Hincl (kw & Hin & Hm). apply Hnone. exists kw. split; [apply Hincl, Hin | exact Hm]. }
  destruct (seniority_rules (job_title p) (experience_years currentYear p))
    as [H | _ H | _ _ H | | _ _ _ H | _ _ _ H]; try reflexivity; exfalso.
  - revert H. apply Hno. intros x Hx. apply in_or_app. left. exact Hx.
  - revert H. apply Hno. intros x Hx. apply in_or_app. right. apply in_or_app. left. exact Hx.
  - revert H. apply Hno. intros x Hx. apply in_or_app. right. apply in_or_app. right. exact Hx.
  - exact (H Hs).
  - exact (H Hs).
Qed.

Lemma senior_title_gives_senior_witness :
  exists c,
    transformLinkedInDataWithPhone 2024 (Some (titled "Senior Engineer")) "user-1"
      sample_input = Normal c
    /\ c_experience c = 0%Z
    /\ c_seniorityLevel c = "Senior".
Proof.
  eexists. split; [reflexivity|]. split; [reflexivity|].
  apply (senior_title_gives_senior 2024 (titled "Senior Engineer") "user-1" sample_input).
  - vm_compute. reflexivity.
  - exists "", "Senior", " Engineer". split; reflexivity.
  - apply not_mentions_any. vm_compute. reflexivity.
Defined.

End SeniorityClaims.

(* ===================================================================== *)
(** ** Skills *)
(* ===================================================================== *)

Section SkillsFacts.
Import Js Spec Scraper.
Local Open Scope list_scope.

Lemma drop_spaces_nil (l : chars) :
  drop_spaces l = [] <-> Forall (fun c => is_space c = true) l.
Proof.
  induction l as [|c l IH]; simpl.
  - split; [constructor | reflexivity].
  - destruct (is_space c) eqn:Hc.
    + rewrite IH. split; [intros H; constructor; assumption | intros H; inversion H; assumption].
    + split; [discriminate | intros H; inversion H; congruence].
Qed.

Lemma drop_spaces_all_space (l : chars) :
  Forall (fun c => is_space c = true) (drop_spaces l) -> drop_spaces l = [].
Proof.
  induction l as [|c l IH]; simpl; [reflexivity|].
  destruct (is_space c) eqn:Hc; [exact IH|].
  intros H. inversion H. congruence.
Qed.

Lemma trim_chars_nil (l : chars) :
  trim_chars l = [] <-> Forall (fun c => is_space c = true) l.
Proof.
  unfold trim_chars. split.
  - intros H. apply (f_equal (@rev ascii)) in H. rewrite rev_involutive in H.
    simpl in H. apply drop_spaces_nil in H.
    apply Forall_rev in H. rewrite rev_involutive in H.
    apply drop_spaces_all_space in H. apply drop_spaces_nil, H.
  - intros H. apply drop_spaces_nil in H. rewrite H. reflexivity.
Qed.

Lemma not_blank_spec (s : string) : not_blank s = true <-> ~ Blank s.
Proof.
  unfold not_blank, Blank, trim. rewrite <- trim_chars_nil.
  destruct (trim_chars (list_ascii_of_string s)); simpl.
  - split; [discriminate | intros H; contradiction].
  - split; [intros _; discriminate | reflexivity].
Qed.

Lemma entry_names_spec (l : list Entry) : entry_names l = names_of (Some l).
Proof.
  unfold entry_names, names_of. apply list_filter_iff. intros s. apply not_blank_spec.
Qed.

Lemma entry_text_spec (e : Entry) : EntryText e (entry_text e).
Proof.
  destruct e as [s | name title]; simpl; [constructor|].
  unfold or_else. destruct (truthy name) eqn:Hn.
  - apply text_name, truthy_present, Hn.
  - apply falsy_absent in Hn as Hn'. destruct (truthy title) eqn:Ht.
    + apply text_title; [exact Hn' | apply truthy_present, Ht].
    + apply falsy_absent in Ht as Ht'.
      replace (or_empty title) with "" by (destruct Ht' as [-> | ->]; reflexivity).
      apply text_none; assumption.
Qed.

Lemma set_add_spec (members : list string) (x : string) :
  set_add members x = if decide (x ∈ members) then members else members ++ [x].
Proof.
  unfold set_add.
  destruct (existsb (String.eqb x) members) eqn:E.
  - apply existsb_exists in E as (y & Hy & Hxy). apply String.eqb_eq in Hxy. subst y.
    apply list_elem_of_In in Hy. rewrite decide_True by exact Hy. reflexivity.
  - rewrite decide_False; [reflexivity|]. intros Hx.
    apply list_elem_of_In in Hx.
    assert (existsb (String.eqb x) members = true)
      by (apply existsb_exists; exists x; split; [exact Hx | apply String.eqb_refl]).
    congruence.
Qed.

Lemma fold_set_add (l acc : list string) :
  fold_left set_add l acc = acc ++ filter (fun y => y ∉ acc) (keep_first l).
Proof.
  revert acc. induction l as [|x l IH]; intros acc; simpl.
  - rewrite app_nil_r. reflexivity.
  - rewrite IH, set_add_spec. destruct (decide (x ∈ acc)) as [Hx | Hx].
    + rewrite filter_cons_False by (intros H; exact (H Hx)).
      rewrite list_filter_filter. f_equal. apply list_filter_iff.
      intros y. split; [intros H; split; [exact H | intros ->; exact (H Hx)] | intros [H _]; exact H].
    + rewrite filter_cons_True by exact Hx.
      rewrite <- app_assoc. simpl. do 2 f_equal.
      rewrite list_filter_filter. apply list_filter_iff.
      intros y. rewrite elem_of_app, list_elem_of_singleton. tauto.
Qed.

Lemma new_Set_keep_first (l : list string) : new_Set l = keep_first l.
Proof.
  unfold new_Set. rewrite fold_set_add. simpl.
  induction (keep_first l) as [|y k IH]; [reflexivity|].
  rewrite filter_cons_True by apply not_elem_of_nil. f_equal. exact IH.
Qed.

Lemma keep_first_elem (l : list string) (x : string) : x ∈ keep_first l <-> x ∈ l.
Proof.
  induction l as [|y l IH]; simpl; [reflexivity|].
  rewrite !elem_of_cons, list_elem_of_filter, IH.
  destruct (decide (x = y)); tauto.
Qed.

Lemma keep_first_NoDup (l : list string) : NoDup (keep_first l).
Proof.
  induction l as [|y l IH]; simpl; [constructor|].
  constructor.
  - rewrite list_elem_of_filter. intros [H _]. exact (H eq_refl).
  - apply NoDup_filter, IH.
Qed.

End SkillsFacts.

Section SkillsClaim.
Import Js Spec Scraper.
Local Open Scope list_scope.

Lemma collect_skills_spec (p : LinkedInProfile) :
  collect_skills p
  = take 25 (keep_first (names_of (skills p) ++ names_of (courses p)
                         ++ take 10 (names_of (certifications p)))).
Proof.
  unfold collect_skills. rewrite new_Set_keep_first. do 2 f_equal.
  destruct (skills p) as [s|], (courses p) as [c|], (certifications p) as [t|];
    rewrite ?entry_names_spec; cbn [app]; rewrite ?app_nil_r, <- ?app_assoc;
    reflexivity.
Qed.

(** C4.  The skills of the normalised record are the names of the explicit
    skills, then of the courses, then the first ten names of the
    certifications -- a name being the entry itself when it is a string,
    else its [name], else its [title], and blank names being discarded --
    with every value kept at its first occurrence only, cut after 25
    entries.  The list has no duplicate, at most 25 entries, and no blank
    entry. *)
Theorem skills_assembled
    (currentYear : Z) (p : LinkedInProfile) (userId : string) (input : ProfileInput) :
  exists c,
    transformLinkedInDataWithPhone currentYear (Some p) userId input = Normal c
    /\ c_skills c
       = take 25 (keep_first (names_of (skills p) ++ names_of (courses p)
                              ++ take 10 (names_of (certifications p))))
    /\ NoDup (c_skills c)
    /\ length (c_skills c) <= 25
    /\ (forall x, x ∈ c_skills c -> ~ Blank x)
    /\ (forall e, EntryText e (entry_text e)).
Proof.
  eexists. split; [reflexivity|]. cbn [c_skills].
  rewrite collect_skills_spec.
  split; [reflexivity|]. split; [|split; [|split]].
  - eapply sublist_NoDup; [apply keep_first_NoDup | apply sublist_take].
  - rewrite length_take. lia.
  - intros x Hx. apply elem_of_take in Hx as (i & Hx & _).
    apply list_elem_of_lookup_2 in Hx.
    apply (proj1 (keep_first_elem _ _)) in Hx.
    assert (Hnames : forall src, x ∈ names_of src -> ~ Blank x).
    { intros src H. unfold names_of in H. apply list_elem_of_filter in H as [H _]. exact H. }
    apply elem_of_app in Hx as [Hx | Hx]; [exact (Hnames _ Hx)|].
    apply elem_of_app in Hx as [Hx | Hx]; [exact (Hnames _ Hx)|].
    apply elem_of_take in Hx as (j & Hx & _).
    apply list_elem_of_lookup_2 in Hx. exact (Hnames _ Hx).
  - apply entry_text_spec.
Qed.

End SkillsClaim.

(* ===================================================================== *)
(** ** The scrape handler *)
(* ===================================================================== *)

Section HandlerFacts.
Import Js Store Spec Scraper.
Local Open Scope list_scope.

Lemma truthy_some (s : string) : truthy (Some s) = true <-> s <> "".
Proof.
  simpl. destruct (String.eqb_spec s ""); simpl; split; congruence.
Qed.

Lemma hasMinimumData_spec (c : ContactData) :
  hasMinimumData c = true <-> Sufficient c.
Proof.
  unfold hasMinimumData, Sufficient.
  rewrite andb_true_iff, !orb_true_iff, !truthy_some, Z.ltb_lt. tauto.
Qed.

Lemma saves_app (a b : list Call) : saves (a ++ b) = saves a ++ saves b.
Proof.
  induction a as [|c a IH]; [reflexivity|].
  destruct c; simpl; rewrite IH; reflexivity.
Qed.

Lemma polls_app (a b : list Call) : polls (a ++ b) = polls a + polls b.
Proof.
  induction a as [|c a IH]; [reflexivity|].
  destruct c; simpl; rewrite IH; reflexivity.
Qed.

Lemma successes_app (a b : list ItemResult) :
  successes (a ++ b) = successes a + successes b.
Proof.
  induction a as [|c a IH]; [reflexivity|].
  destruct c; simpl; rewrite IH; reflexivity.
Qed.

Lemma poll_rounds_saves (runId : string) (n : nat) : saves (poll_rounds runId n) = [].
Proof. induction n; [reflexivity | exact IHn]. Qed.

Lemma poll_rounds_polls (runId : string) (n : nat) : polls (poll_rounds runId n) = n.
Proof. induction n; [reflexivity | simpl; f_equal; exact IHn]. Qed.

Lemma poll_rounds_snoc (runId : string) (n : nat) :
  [Sleep 3000; GetRunStatus runId] ++ poll_rounds runId n = poll_rounds runId (S n).
Proof. reflexivity. Qed.

(** The polling loop only waits and polls, at most [remaining] times. *)
Lemma poll_effect (up : Upstream) (runId : string) (remaining attempts : nat)
    (runStatus : string) (st : HState) :
  exists k,
    k <= remaining
    /\ h_calls (snd (poll up runId remaining attempts runStatus st))
       = h_calls st ++ poll_rounds runId k
    /\ h_results (snd (poll up runId remaining attempts runStatus st)) = h_results st
    /\ h_world (snd (poll up runId remaining attempts runStatus st)) = h_world st.
Proof.
  revert attempts runStatus st.
  induction remaining as [|r IH]; intros attempts runStatus st; simpl.
  - exists 0. destruct (String.eqb runStatus "RUNNING"); simpl;
      rewrite app_nil_r; auto.
  - destruct (String.eqb runStatus "RUNNING"); simpl.
    2:{ exists 0. rewrite app_nil_r. split; [lia | auto]. }
    unfold bind, call; simpl.
    destruct (run_status up attempts) as [e | status | status']; simpl.
    + exists 1. split; [lia|]. rewrite <- app_assoc. auto.
    + exists 1. split; [lia|]. rewrite <- app_assoc. auto.
    + match goal with
      | |- context [poll up runId r (S attempts) status' ?s] =>
          destruct (IH (S attempts) status' s) as (k & Hk & Hc & Hr & Hw)
      end.
      exists (S k). split; [lia|]. rewrite Hc, Hr, Hw. simpl.
      rewrite <- !app_assoc. auto.
Qed.

(** A run that is still RUNNING at every poll is given up after
    [remaining] rounds. *)
Lemma poll_exhausted (up : Upstream) (runId : string) (remaining attempts : nat)
    (st : HState) :
  (forall n, attempts <= n < attempts + remaining -> run_status up n = Ok "RUNNING") ->
  poll up runId remaining attempts "RUNNING" st
  = (Normal "RUNNING",
     {| h_results := h_results st;
        h_calls := h_calls st ++ poll_rounds runId remaining;
        h_world := h_world st |}).
Proof.
  revert attempts st. induction remaining as [|r IH]; intros attempts st Hrun.
  - simpl. rewrite app_nil_r. destruct st; reflexivity.
  - cbn [poll]. change (String.eqb "RUNNING" "RUNNING") with true. cbv iota.
    unfold bind, call. cbn [fst snd h_results h_calls h_world].
    rewrite (Hrun attempts) by lia.
    rewrite IH by (intros n Hn; apply Hrun; lia).
    cbn [h_results h_calls h_world]. rewrite <- !app_assoc. reflexivity.
Qed.

(** A run that leaves RUNNING at poll [k] ends the loop with that status. *)
Lemma poll_terminal (up : Upstream) (runId : string) (remaining attempts k : nat)
    (status : string) (st : HState) :
  k < remaining ->
  (forall n, attempts <= n < attempts + k -> run_status up n = Ok "RUNNING") ->
  run_status up (attempts + k) = Ok status ->
  status <> "RUNNING" ->
  poll up runId remaining attempts "RUNNING" st
  = (Normal status,
     {| h_results := h_results st;
        h_calls := h_calls st ++ poll_rounds runId (S k);
        h_world := h_world st |}).
Proof.
  revert attempts k st. induction remaining as [|r IH]; intros attempts k st Hk Hrun Hat Hs.
  - lia.
  - cbn [poll]. change (String.eqb "RUNNING" "RUNNING") with true. cbv iota.
    unfold bind, call. cbn [fst snd h_results h_calls h_world].
    destruct k as [|k].
    + rewrite Nat.add_0_r in Hat. rewrite Hat.
      destruct r; cbn [poll]; (destruct (String.eqb_spec status "RUNNING"); [contradiction|]);
        unfold ret; rewrite <- !app_assoc; reflexivity.
    + rewrite (Hrun attempts) by lia.
      rewrite (IH (S attempts) k); try assumption; try lia.
      * cbn [h_results h_calls h_world]. rewrite <- !app_assoc. reflexivity.
      * intros n Hn. apply Hrun. lia.
      * replace (S attempts + k) with (attempts + S k) by lia. exact Hat.
Qed.


(** The stage before the loop only submits, waits, polls and fetches. *)
Lemma scrape_effect (up : Upstream) (vps : list ProfileInput) (st : HState) :
  h_results (snd (scrape up vps st)) = h_results st
  /\ h_world (snd (scrape up vps st)) = h_world st
  /\ exists cs, h_calls (snd (scrape up vps st)) = h_calls st ++ cs
                /\ saves cs = [] /\ polls cs <= 60.
Proof.
  unfold scrape, bind, call. cbn [fst snd h_results h_calls h_world].
  destruct (start_run up (map url vps)) as [e | status | runData].
  - cbn. split; [reflexivity|]. split; [reflexivity|]. exists [StartRun (map url vps)].
    split; [reflexivity|]. split; [reflexivity | simpl; lia].
  - cbn. split; [reflexivity|]. split; [reflexivity|]. exists [StartRun (map url vps)].
    split; [reflexivity|]. split; [reflexivity | simpl; lia].
  - match goal with
    | |- context [poll up ?id ?r ?a ?s ?st1] =>
        destruct (poll_effect up id r a s st1) as (k & Hk & Hc & Hr & Hw);
        destruct (poll up id r a s st1) as [[status | e] st2]
    end; cbn [fst snd h_results h_calls h_world] in *.
    + destruct (negb (String.eqb status "SUCCEEDED")); cbn.
      * rewrite Hr, Hw, Hc. split; [reflexivity|]. split; [reflexivity|].
        exists (StartRun (map url vps) :: poll_rounds (run_id runData) k).
        rewrite <- app_assoc. split; [reflexivity|].
        simpl. rewrite poll_rounds_saves, poll_rounds_polls. split; [reflexivity | unfold maxAttempts in Hk; lia].
      * assert (Hcs : exists cs,
                   h_calls st2 ++ [GetItems (defaultDatasetId runData)] = h_calls st ++ cs
                   /\ saves cs = [] /\ polls cs <= 60).
        { exists (StartRun (map url vps) :: poll_rounds (run_id runData) k
                  ++ [GetItems (defaultDatasetId runData)]).
          rewrite Hc, <- !app_assoc. split; [reflexivity|].
          simpl. rewrite saves_app, polls_app, poll_rounds_saves, poll_rounds_polls.
          simpl. split; [reflexivity | unfold maxAttempts in Hk; lia]. }
        destruct (dataset_items up); cbn; rewrite Hr, Hw; auto.
    + rewrite Hr, Hw, Hc. split; [reflexivity|]. split; [reflexivity|].
      exists (StartRun (map url vps) :: poll_rounds (run_id runData) k).
      rewrite <- app_assoc. split; [reflexivity|].
      simpl. rewrite poll_rounds_saves, poll_rounds_polls. split; [reflexivity | unfold maxAttempts in Hk; lia].
Qed.

Lemma scrape_exhausted (up : Upstream) (vps : list ProfileInput) (st : HState)
    (runData : RunData) :
  start_run up (map url vps) = Ok runData ->
  (forall n, n < 60 -> run_status up n = Ok "RUNNING") ->
  scrape up vps st
  = (Throw "Scraping failed with status: RUNNING",
     {| h_results := h_results st;
        h_calls := h_calls st ++ StartRun (map url vps)
                              :: poll_rounds (run_id runData) 60;
        h_world := h_world st |}).
Proof.
  intros Hstart Hrun. unfold scrape, bind, call.
  cbn [fst snd h_results h_calls h_world]. rewrite Hstart.
  unfold maxAttempts. rewrite poll_exhausted by (intros n Hn; apply Hrun; lia).
  cbn [h_results h_calls h_world].
  change (negb (String.eqb "RUNNING" "SUCCEEDED")) with true. cbv iota.
  unfold throw. rewrite <- app_assoc. reflexivity.
Qed.

Lemma scrape_terminal (up : Upstream) (vps : list ProfileInput) (st : HState)
    (runData : RunData) (k : nat) (status : string) :
  start_run up (map url vps) = Ok runData ->
  k < 60 ->
  (forall n, n < k -> run_status up n = Ok "RUNNING") ->
  run_status up k = Ok status ->
  status <> "RUNNING" -> status <> "SUCCEEDED" ->
  scrape up vps st
  = (Throw ("Scraping failed with status: " ++ status)%string,
     {| h_results := h_results st;
        h_calls := h_calls st ++ StartRun (map url vps)
                              :: poll_rounds (run_id runData) (S k);
        h_world := h_world st |}).
Proof.
  intros Hstart Hk Hrun Hat Hnr Hns. unfold scrape, bind, call.
  cbn [fst snd h_results h_calls h_world]. rewrite Hstart.
  unfold maxAttempts.
  rewrite (poll_terminal up _ 60 0 k status); try assumption.
  2:{ intros n Hn. apply Hrun. lia. }
  cbn [h_results h_calls h_world].
  destruct (String.eqb_spec status "SUCCEEDED"); [contradiction|].
  cbn [negb]. unfold throw. rewrite <- app_assoc. reflexivity.
Qed.

Lemma mark_all_failed_effect (vps : list ProfileInput) (st : HState) :
  mark_all_failed vps st
  = (Normal tt,
     {| h_results :=
          {| total := total (h_results st);
             processed := processed (h_results st) + length vps;
             successful := successful (h_results st);
             failed := failed (h_results st) + length vps;
             results := results (h_results st)
                        ++ map (fun p => ItemFailed (url p)
                                           "LinkedIn scraping service failed") vps |};
        h_calls := h_calls st;
        h_world := h_world st |}).
Proof.
  revert st. induction vps as [|p vps IH]; intros st.
  - simpl. unfold ret. rewrite !Nat.add_0_r, app_nil_r.
    destruct st as [[] ? ?]; reflexivity.
  - cbn [mark_all_failed]. unfold bind, update_results. rewrite IH.
    cbn [h_results h_calls h_world total processed successful failed results
         incr_processed record_failure length map].
    rewrite <- !app_assoc. cbn [app].
    replace (S (processed (h_results st)) + length vps)
      with (processed (h_results st) + S (length vps)) by lia.
    replace (S (failed (h_results st)) + length vps)
      with (failed (h_results st) + S (length vps)) by lia.
    reflexivity.
Qed.


Lemma process_profile_insufficient (up : Upstream) (currentYear : Z) (userId : string)
    (i : nat) (input : ProfileInput) (p : LinkedInProfile) (c : ContactData)
    (st : HState) :
  transformLinkedInDataWithPhone currentYear (Some p) userId input = Normal c ->
  hasMinimumData c = false ->
  process_profile up currentYear userId i input (Some p) st
  = (Normal tt,
     {| h_results := record_failure (url input) insufficient_data
                       (incr_processed (h_results st));
        h_calls := h_calls st;
        h_world := h_world st |}).
Proof.
  intros Hc Hmin. unfold process_profile, try_catch, bind, update_results, throw.
  rewrite Hc, Hmin. reflexivity.
Qed.

Lemma process_profile_sufficient (up : Upstream) (currentYear : Z) (userId : string)
    (i : nat) (input : ProfileInput) (p : LinkedInProfile) (c : ContactData)
    (st : HState) :
  transformLinkedInDataWithPhone currentYear (Some p) userId input = Normal c ->
  hasMinimumData c = true ->
  h_calls (snd (process_profile up currentYear userId i input (Some p) st))
  = h_calls st ++ [SaveProfile c].
Proof.
  intros Hc Hmin. unfold process_profile, try_catch, bind, update_results, throw, call.
  rewrite Hc, Hmin. cbn [negb fst snd h_results h_calls h_world].
  destruct (save_profile up i c); reflexivity.
Qed.

(** A turn of the loop never throws, and keeps the state consistent. *)
Lemma process_profile_consistent (up : Upstream) (currentYear : Z) (userId : string)
    (i : nat) (input : ProfileInput) (data : option LinkedInProfile)
    (w : World) (st : HState) :
  Consistent w st ->
  fst (process_profile up currentYear userId i input data st) = Normal tt
  /\ Consistent w (snd (process_profile up currentYear userId i input data st)).
Proof.
  intros [Hw Hs]. unfold Consistent, process_profile, try_catch, bind,
    update_results, throw, call.
  destruct data as [p|]; cbn [fst snd h_results h_calls h_world].
  2:{ cbn. rewrite successes_app, Hs. simpl. split; [reflexivity | split; [exact Hw | lia]]. }
  destruct (transformLinkedInDataWithPhone currentYear (Some p) userId input) as [c|e].
  2:{ cbn. rewrite successes_app, Hs. simpl. split; [reflexivity | split; [exact Hw | lia]]. }
  destruct (hasMinimumData c); cbn [negb fst snd h_results h_calls h_world].
  2:{ cbn. rewrite successes_app, Hs. simpl. split; [reflexivity | split; [exact Hw | lia]]. }
  destruct (save_profile up i c); cbn; rewrite successes_app, Hs; simpl;
    (split; [reflexivity | split; [exact Hw | lia]]).
Qed.

Lemma process_from_consistent (up : Upstream) (currentYear : Z) (userId : string)
    (scrapedData : list (option LinkedInProfile)) (i : nat)
    (rest : list ProfileInput) (w : World) (st : HState) :
  Consistent w st ->
  fst (process_from up currentYear userId scrapedData i rest st) = Normal tt
  /\ Consistent w (snd (process_from up currentYear userId scrapedData i rest st)).
Proof.
  revert i st. induction rest as [|input rest IH]; intros i st Hst.
  - split; [reflexivity | exact Hst].
  - cbn [process_from]. unfold bind.
    destruct (process_profile_consistent up currentYear userId i input
                (mjoin (scrapedData !! i)) w st Hst) as [Hn Hc].
    destruct (process_profile up currentYear userId i input
                (mjoin (scrapedData !! i)) st) as [[[]|e] st1];
      cbn [fst snd] in *; [|discriminate].
    apply IH, Hc.
Qed.

Lemma successes_failed (vps : list ProfileInput) :
  successes (map (fun p => ItemFailed (url p) "LinkedIn scraping service failed") vps) = 0.
Proof. induction vps; [reflexivity | exact IHvps]. Qed.

Lemma batch_consistent (up : Upstream) (currentYear : Z) (userId : string)
    (vps : list ProfileInput) (w : World) (st : HState) :
  Consistent w st ->
  fst (batch up currentYear userId vps st) = Normal tt
  /\ Consistent w (snd (batch up currentYear userId vps st)).
Proof.
  intros Hst. unfold batch, try_catch, bind.
  destruct (scrape_effect up vps st) as (Hr & Hw & _).
  destruct (scrape up vps st) as [[scrapedData | e] st1]; cbn [fst snd] in *.
  - assert (Hst1 : Consistent w st1).
    { destruct Hst as [H1 H2]. split; [congruence | rewrite Hr; exact H2]. }
    destruct (process_from_consistent up currentYear userId scrapedData 0 vps w st1 Hst1)
      as [Hn Hc].
    destruct (process_from up currentYear userId scrapedData 0 vps st1) as [[[]|e] st2];
      cbn [fst snd] in *; [|discriminate].
    split; [reflexivity | exact Hc].
  - rewrite mark_all_failed_effect. cbn [fst snd]. split; [reflexivity|].
    destruct Hst as [H1 H2]. split; cbn; [congruence|].
    rewrite successes_app, successes_failed, Hr, H2. lia.
Qed.

Lemma batch_stage_failed (up : Upstream) (currentYear : Z) (userId : string)
    (vps : list ProfileInput) (w : World) :
  StageFails up vps w ->
  exists calls,
    batch up currentYear userId vps (initial_state vps w)
    = (Normal tt,
       {| h_results := all_failed vps; h_calls := calls; h_world := w |})
    /\ saves calls = [] /\ polls calls <= 60.
Proof.
  intros (e & st1 & Hfail). unfold batch, try_catch, bind.
  destruct (scrape_effect up vps (initial_state vps w)) as (Hr & Hw & cs & Hc & Hs & Hp).
  rewrite Hfail in *. cbn [fst snd] in *.
  exists cs. rewrite mark_all_failed_effect, Hr, Hw, Hc.
  split; [reflexivity | split; assumption].
Qed.

Lemma valid_profiles_nil : valid_profiles [] = [].
Proof. reflexivity. Qed.

Lemma scrape_linkedin_validated (env : Env) (up : Upstream) (currentYear : Z)
    (req : Request) (w : World) (vps : list ProfileInput) :
  Validated env req vps ->
  scrape_linkedin env up currentYear req w
  = match batch up currentYear (or_empty (req_userId req)) vps (initial_state vps w) with
    | (Normal _, st) =>
        (ScrapeResponse 200 true (h_results st) (successful (h_results st) * 10),
         h_calls st, h_world st)
    | (Throw e, st) =>
        (ErrorResponse 500 "Internal server error", h_calls st, h_world st)
    end.
Proof.
  intros (ds & Hd & Hu & -> & Hne & Hk). unfold scrape_linkedin.
  rewrite Hd. destruct ds as [|d ds]; [contradiction|].
  rewrite Hu, Hk. cbn [negb].
  destruct (valid_profiles (d :: ds)) as [|v vs] eqn:Hv; [contradiction|].
  reflexivity.
Qed.

End HandlerFacts.

Section HandlerClaims.
Import Js Store Spec Scraper.
Local Open Scope list_scope.

(** C5.  A normalised record passes the test of the handler exactly when
    it has a non-empty name and at least one of: experience above zero, a
    non-empty company, a non-empty job title.  A record that passes is
    sent to the profiles endpoint; one that does not is recorded as a
    failed item with the insufficient-data message, and no call is made
    for it. *)
Theorem minimum_data_gate
    (up : Upstream) (currentYear : Z) (userId : string) (i : nat)
    (input : ProfileInput) (p : LinkedInProfile) (st : HState) :
  exists c,
    transformLinkedInDataWithPhone currentYear (Some p) userId input = Normal c
    /\ (hasMinimumData c = true <-> Sufficient c)
    /\ (Sufficient c ->
        h_calls (snd (process_profile up currentYear userId i input (Some p) st))
        = h_calls st ++ [SaveProfile c])
    /\ (~ Sufficient c ->
        process_profile up currentYear userId i input (Some p) st
        = (Normal tt,
           {| h_results := record_failure (url input) insufficient_data
                             (incr_processed (h_results st));
              h_calls := h_calls st;
              h_world := h_world st |})).
Proof.
  destruct (transformLinkedInDataWithPhone currentYear (Some p) userId input)
    as [c|e] eqn:Hc; [|discriminate Hc].
  exists c. split; [reflexivity|]. split; [apply hasMinimumData_spec|]. split.
  - intros Hs. apply (process_profile_sufficient _ _ _ _ _ _ _ _ Hc).
    apply hasMinimumData_spec, Hs.
  - intros Hs. apply (process_profile_insufficient _ _ _ _ _ _ _ _ Hc).
    destruct (hasMinimumData c) eqn:Hm; [|reflexivity].
    exfalso. apply Hs, hasMinimumData_spec, Hm.
Qed.

Lemma minimum_data_gate_witness :
  (exists c,
      transformLinkedInDataWithPhone 2024 (Some (titled "Engineer")) "user-1"
        sample_input = Normal c
      /\ Sufficient c
      /\ saves (h_calls (snd (process_profile stuck_upstream 2024 "user-1" 0 sample_input
                                (Some (titled "Engineer"))
                                (initial_state [sample_input] empty_world))))
         = [c])
  /\ (exists c,
      transformLinkedInDataWithPhone 2024 (Some empty_profile) "user-1"
        sample_input = Normal c
      /\ ~ Sufficient c
      /\ saves (h_calls (snd (process_profile stuck_upstream 2024 "user-1" 0 sample_input
                                (Some empty_profile)
                                (initial_state [sample_input] empty_world))))
         = []).
Proof.
  split.
  - destruct (minimum_data_gate stuck_upstream 2024 "user-1" 0 sample_input
                (titled "Engineer") (initial_state [sample_input] empty_world))
      as (c & Hc & Hiff & Hyes & Hno).
    exists c. split; [exact Hc|].
    assert (Hs : Sufficient c).
    { injection Hc as <-. split; [discriminate | right; right; discriminate]. }
    split; [exact Hs|]. rewrite (Hyes Hs). reflexivity.
  - destruct (minimum_data_gate stuck_upstream 2024 "user-1" 0 sample_input
                empty_profile (initial_state [sample_input] empty_world))
      as (c & Hc & Hiff & Hyes & Hno).
    exists c. split; [exact Hc|].
    assert (Hs : ~ Sufficient c).
    { injection Hc as <-. intros [Hname _]. apply Hname. reflexivity. }
    split; [exact Hs|]. rewrite (Hno Hs). reflexivity.
Defined.

(** C6.  For a request that passed validation: when the submission,
    polling and retrieval stage fails, every validated profile is reported
    failed with the reason 'LinkedIn scraping service failed', nothing is
    sent to the profiles endpoint, at most 60 status polls were made, and
    the answer is still the 200 result with its counts.  The stage does
    fail when the run is still RUNNING after 60 polls, three seconds
    apart, and when a poll reports a status other than RUNNING and
    SUCCEEDED. *)
Theorem service_failure_fails_every_item
    (env : Env) (up : Upstream) (currentYear : Z) (req : Request) (w : World)
    (vps : list ProfileInput) :
  Validated env req vps ->
  (StageFails up vps w ->
   exists calls,
     scrape_linkedin env up currentYear req w
     = (ScrapeResponse 200 true (all_failed vps) 0, calls, w)
     /\ saves calls = [] /\ polls calls <= 60)
  /\ (forall runData,
         start_run up (map url vps) = Ok runData ->
         (forall n, n < 60 -> run_status up n = Ok "RUNNING") ->
         StageFails up vps w
         /\ snd (fst (scrape_linkedin env up currentYear req w))
            = StartRun (map url vps) :: poll_rounds (run_id runData) 60)
  /\ (forall runData k status,
         start_run up (map url vps) = Ok runData ->
         k < 60 ->
         (forall n, n < k -> run_status up n = Ok "RUNNING") ->
         run_status up k = Ok status ->
         status <> "RUNNING" -> status <> "SUCCEEDED" ->
         StageFails up vps w).
Proof.
  intros Hvalid. split; [|split].
  - intros Hfail. rewrite (scrape_linkedin_validated _ _ _ _ _ _ Hvalid).
    destruct (batch_stage_failed up currentYear (or_empty (req_userId req)) vps w Hfail)
      as (calls & -> & Hs & Hp).
    exists calls. split; [reflexivity | split; assumption].
  - intros runData Hstart Hrun.
    pose proof (scrape_exhausted up vps (initial_state vps w) runData Hstart Hrun) as Hex.
    split; [eexists _, _; exact Hex|].
    rewrite (scrape_linkedin_validated _ _ _ _ _ _ Hvalid).
    unfold batch, try_catch, bind. rewrite Hex, mark_all_failed_effect. reflexivity.
  - intros runData k status Hstart Hk Hrun Hat Hnr Hns.
    eexists _, _.
    exact (scrape_terminal up vps (initial_state vps w) runData k status
             Hstart Hk Hrun Hat Hnr Hns).
Qed.

Lemma service_failure_fails_every_item_witness :
  scrape_linkedin sample_env stuck_upstream 2024 sample_request empty_world
  = (ScrapeResponse 200 true (all_failed [sample_input]) 0,
     StartRun ["https://www.linkedin.com/in/ada"%string] :: poll_rounds "run-1" 60,
     empty_world).
Proof.
  assert (Hvalid : Validated sample_env sample_request [sample_input]).
  { eexists. split; [reflexivity|]. split; [reflexivity|].
    split; [vm_compute; reflexivity|]. split; [discriminate | reflexivity]. }
  destruct (service_failure_fails_every_item sample_env stuck_upstream 2024
              sample_request empty_world [sample_input] Hvalid)
    as (Hmain & Htimeout & _).
  destruct (Htimeout {| run_id := "run-1"; defaultDatasetId := "set-1" |}
              eq_refl (fun n _ => eq_refl)) as [Hfail Hcalls].
  destruct (Hmain Hfail) as (calls & Heq & _ & _).
  rewrite Heq in Hcalls |- *. cbn [fst snd] in Hcalls. rewrite Hcalls. reflexivity.
Defined.

(** C9.  Whatever the request, the scrape handler leaves the database as
    it found it: no dashboard is written, so no points balance and no
    other ledger field changes.  When it answers with a result, the
    points it reports are ten times the number of successful items. *)
Theorem points_reported_not_credited
    (env : Env) (up : Upstream) (currentYear : Z) (req : Request) (w : World) :
  exists resp calls,
    scrape_linkedin env up currentYear req w = (resp, calls, w)
    /\ forall status success res pointsEarned,
         resp = ScrapeResponse status success res pointsEarned ->
         pointsEarned = 10 * successes (results res)
         /\ successful res = successes (results res).
Proof.
  unfold scrape_linkedin.
  destruct (profilesData req) as [[|d ds]|];
    try (eexists _, _; split; [reflexivity | intros; discriminate]).
  destruct (negb (truthy (req_userId req)));
    try (eexists _, _; split; [reflexivity | intros; discriminate]).
  cbv zeta.
  destruct (length (valid_profiles (d :: ds)) =? 0)%nat;
    try (eexists _, _; split; [reflexivity | intros; discriminate]).
  destruct (negb (truthy (APIFY_API_KEY env)));
    try (eexists _, _; split; [reflexivity | intros; discriminate]).
  match goal with
  | |- context [batch ?u ?y ?i ?v ?s] =>
      destruct (batch_consistent u y i v w s) as [Hn [Hw Hs]];
      [split; reflexivity|];
      destruct (batch u y i v s) as [[[]|e] st]
  end; cbn [fst snd] in *; [|discriminate].
  eexists _, _. rewrite Hw. split; [reflexivity|].
  intros status success res pts [= _ _ <- <-]. rewrite Hs. split; [lia | reflexivity].
Qed.

End HandlerClaims.

(* ===================================================================== *)
(** ** The dashboard ledger *)
(* ===================================================================== *)

Section DashboardFacts.
Import Js Store Spec DashboardRoutes.
Local Open Scope list_scope.

Lemma length_lastn {A} (n : nat) (l : list A) : length (lastn n l) = Nat.min n (length l).
Proof. unfold lastn. rewrite length_drop. lia. Qed.

(** Trimming to the last [n] before appending changes nothing after the
    next trim. *)
Lemma lastn_lastn_app {A} (n : nat) (l m : list A) :
  lastn n (lastn n l ++ m) = lastn n (l ++ m).
Proof.
  unfold lastn. rewrite !drop_app, !length_app, !length_drop, drop_drop.
  f_equal; f_equal; lia.
Qed.

Lemma activity_log_store (kind : string -> DbWrite) (user : string) (d : Dashboard)
    (w : World) :
  activity_log user (store kind user d w) = recentActivity d.
Proof.
  unfold activity_log, findOne, store. cbn [dashboards].
  rewrite lookup_insert_eq. reflexivity.
Qed.

Lemma patch_activity_log (now : nat) (user a : string) (w : World) :
  a <> "" ->
  activity_log user (snd (patch_activity now user (Some a) w))
  = lastn 20 (activity_log user w ++ [a]).
Proof.
  intros Ha. unfold patch_activity.
  assert (Ht : truthy (Some a) = true).
  { simpl. destruct (String.eqb_spec a ""); [contradiction | reflexivity]. }
  rewrite Ht. cbn [negb snd or_empty]. rewrite activity_log_store.
  cbn [recentActivity]. unfold push_each_slice, activity_log.
  destruct (findOne user w); reflexivity.
Qed.

Lemma patch_activities_log (now : nat) (user : string) (activities : list string)
    (w : World) :
  Forall (fun a => a <> "") activities ->
  activities <> [] ->
  activity_log user (patch_activities now user activities w)
  = lastn 20 (activity_log user w ++ activities).
Proof.
  revert w. induction activities as [|a rest IH]; intros w Hall Hne; [contradiction|].
  inversion Hall as [|? ? Ha Hrest]; subst.
  unfold patch_activities. cbn [fold_left].
  fold (patch_activities now user rest (snd (patch_activity now user (Some a) w))).
  destruct rest as [|b rest'].
  - apply patch_activity_log, Ha.
  - rewrite IH by (try assumption; discriminate).
    rewrite patch_activity_log by exact Ha.
    rewrite lastn_lastn_app, <- app_assoc. reflexivity.
Qed.

Lemma countDocuments_store (kind : string -> DbWrite) (user u : string) (d : Dashboard)
    (w : World) :
  countDocuments u (store kind user d w) = countDocuments u w.
Proof. reflexivity. Qed.

Lemma findOne_store (kind : string -> DbWrite) (user : string) (d : Dashboard)
    (w : World) :
  findOne user (store kind user d w) = Some d.
Proof. unfold findOne, store. cbn [dashboards]. apply lookup_insert_eq. Qed.

(** What a read does bring in line: the stored upload counter and the
    stored unlocked counter.  It writes only when one of the two was off. *)
Lemma get_dashboard_reconciles (now : nat) (user : string) (w : World) :
  exists d,
    fst (get_dashboard now user w) = DashboardJson d
    /\ findOne user (snd (get_dashboard now user w)) = Some d
    /\ myUploads d = countDocuments user w
    /\ unlockedProfiles d = Z.of_nat (length (default [] (unlockedContactIds d)))
    /\ (forall d0, findOne user w = Some d0 ->
          myUploads d0 = countDocuments user w ->
          unlockedProfiles d0 = Z.of_nat (length (default [] (unlockedContactIds d0))) ->
          snd (get_dashboard now user w) = w /\ d = d0).
Proof.
  unfold get_dashboard.
  destruct (findOne user w) as [d0|] eqn:Hfind.
  - set (count := match unlockedContactIds d0 with
                  | Some ids => Z.of_nat (length ids)
                  | None => 0%Z
                  end).
    assert (Hcount : count = Z.of_nat (length (default [] (unlockedContactIds d0))))
      by (subst count; destruct (unlockedContactIds d0); reflexivity).
    destruct (Z.eqb_spec (myUploads d0) (countDocuments user w)) as [Hu | Hu];
      [destruct (Z.eqb_spec (unlockedProfiles d0) count) as [Hk | Hk]|];
      cbn [negb orb fst snd].
    + exists d0. split; [reflexivity|]. split; [exact Hfind|].
      split; [exact Hu|]. split; [congruence|].
      intros d1 [= <-] _ _. split; reflexivity.
    + eexists. split; [reflexivity|]. split; [apply findOne_store|].
      cbn [myUploads unlockedProfiles unlockedContactIds].
      split; [reflexivity|]. split; [exact Hcount|].
      intros d1 [= <-] _ Hk'. congruence.
    + eexists. split; [reflexivity|]. split; [apply findOne_store|].
      cbn [myUploads unlockedProfiles unlockedContactIds].
      split; [reflexivity|]. split; [exact Hcount|].
      intros d1 [= <-] Hu' _. congruence.
  - rewrite countDocuments_store. cbn [myUploads unlockedProfiles unlockedContactIds length].
    destruct (Z.eqb_spec 0 (countDocuments user w)) as [Hu | Hu]; cbn [negb orb fst snd].
    + eexists. split; [reflexivity|]. split; [apply findOne_store|].
      cbn [myUploads unlockedProfiles unlockedContactIds].
      split; [exact Hu|]. split; [reflexivity|]. intros d1 [=].
    + eexists. split; [reflexivity|]. split; [apply findOne_store|].
      cbn [myUploads unlockedProfiles unlockedContactIds].
      split; [reflexivity|]. split; [reflexivity|]. intros d1 [=].
Qed.

End DashboardFacts.

Section DashboardClaims.
Import Js Store Spec DashboardRoutes.
Local Open Scope list_scope.

(** C7.  Every append of a message to a user's activity log puts that one
    message at the end and keeps the last 20 entries, in their order;
    after a run of appends the log is the last 20 entries of the old log
    followed by the new messages, so it has at most 20 entries, and 25
    messages appended to an empty log leave the last 20 of them. *)
Theorem activity_log_keeps_last_20
    (now : nat) (user : string) (w : World) (activities : list string) :
  Forall (fun a => a <> "") activities ->
  (forall a, a <> "" ->
     activity_log user (snd (patch_activity now user (Some a) w))
     = lastn 20 (activity_log user w ++ [a]))
  /\ (activities <> [] ->
      activity_log user (patch_activities now user activities w)
      = lastn 20 (activity_log user w ++ activities)
      /\ length (activity_log user (patch_activities now user activities w)) <= 20)
  /\ (activity_log user w = [] -> length activities = 25 ->
      activity_log user (patch_activities now user activities w) = drop 5 activities).
Proof.
  intros Hall. split; [|split].
  - intros a Ha. apply patch_activity_log, Ha.
  - intros Hne. rewrite patch_activities_log by assumption.
    split; [reflexivity | rewrite length_lastn; lia].
  - intros Hempty Hlen. rewrite patch_activities_log.
    + rewrite Hempty. unfold lastn. cbn [app]. rewrite Hlen. reflexivity.
    + exact Hall.
    + intros ->. discriminate.
Qed.

Lemma activity_log_keeps_last_20_witness :
  activity_log "user-1"
    (patch_activities 0 "user-1"
       ["m01"; "m02"; "m03"; "m04"; "m05"; "m06"; "m07"; "m08"; "m09"; "m10";
        "m11"; "m12"; "m13"; "m14"; "m15"; "m16"; "m17"; "m18"; "m19"; "m20";
        "m21"; "m22"; "m23"; "m24"; "m25"]%string empty_world)
  = ["m06"; "m07"; "m08"; "m09"; "m10"; "m11"; "m12"; "m13"; "m14"; "m15";
     "m16"; "m17"; "m18"; "m19"; "m20"; "m21"; "m22"; "m23"; "m24"; "m25"]%string.
Proof.
  refine (proj2 (proj2 (activity_log_keeps_last_20 0 "user-1" empty_world _ _)) _ _).
  - repeat constructor; discriminate.
  - reflexivity.
  - reflexivity.
Defined.

End DashboardClaims.

Section DashboardDrift.
Import Js Store Spec DashboardRoutes.

(** C8, on a dashboard whose [totalContacts] alone is off.  An update sets
    [totalContacts] to 7 and [myUploads] to 2 for a user with two uploaded
    profiles; the read that follows finds the upload counter and the
    unlocked counter in order, writes nothing, and answers with
    [totalContacts] still at 7. *)
Theorem total_contacts_drift_survives_read :
  let w1 := snd (post_dashboard 1 "user-1" drift_body uploads_world) in
  exists d,
    get_dashboard 2 "user-1" w1 = (DashboardJson d, w1)
    /\ findOne "user-1" w1 = Some d
    /\ countDocuments "user-1" w1 = 2%Z
    /\ myUploads d = 2%Z
    /\ unlockedProfiles d = Z.of_nat (length (default [] (unlockedContactIds d)))
    /\ totalContacts d = 7%Z.
Proof.
  cbv zeta. unfold post_dashboard, get_dashboard. cbn [snd].
  rewrite findOne_store, countDocuments_store.
  eexists. split; [reflexivity|]. split; [reflexivity|].
  repeat split; reflexivity.
Qed.

End DashboardDrift.

(* ===================================================================== *)
(** ** The two identifier extractors *)
(* ===================================================================== *)

Section ModelFacts.
Import Js Regex Spec.
Local Open Scope list_scope.

Lemma model_class_matches (c : ascii) :
  atom_matches false (Class true [One "/"; One "?"]) c = not_terminator c.
Proof.
  revert c.
  assert (H : forallb (fun c =>
                Bool.eqb (atom_matches false (Class true [One "/"; One "?"]) c)
                         (not_terminator c))
              all_chars = true) by (vm_compute; reflexivity).
  intros c. apply Bool.eqb_prop. exact (for_all_chars _ H c).
Qed.

(** When the continuation accepts what follows the longest run, the
    greedy loop stops there. *)
Lemma star_greedy {R} (p : ascii -> bool) (s : chars) (k : chars -> option R) (x : R) :
  k (after_run p s) = Some x -> star p s k = Some x.
Proof.
  induction s as [|c s IH]; simpl; [auto|].
  destruct (p c); [|auto]. intros H. rewrite (IH H). reflexivity.
Qed.

Lemma run_lit_exact {R} (w s : chars) cap (k : chars -> option chars -> option R) :
  run false (fold_right (fun c r => Cat (Atom (Chr c)) r) Empty w) s cap k
  = if starts_with w s then k (drop (length w) s) cap else None.
Proof.
  revert s. induction w as [|a w IH]; intros s; simpl; [reflexivity|].
  destruct s as [|b s]; [reflexivity|].
  destruct (Ascii.eqb a b); simpl; [apply IH | reflexivity].
Qed.

(** The model's pattern tried at the front of [s]. *)
Lemma match_here_model (s : chars) :
  match_here false ProfileModel.pattern s
  = match model_token_here s with
    | Some r => Some {| group1 := Some r |}
    | None => None
    end.
Proof.
  unfold match_here, ProfileModel.pattern, Lit, model_token_here.
  cbn [run]. rewrite run_lit_exact.
  destruct (starts_with _ s); [|reflexivity].
  change (length (list_ascii_of_string "linkedin.com/in/")) with 16.
  set (t := drop 16 s).
  destruct t as [|c t'] eqn:Ht; [reflexivity|].
  rewrite model_class_matches. cbn [run_of].
  destruct (not_terminator c) eqn:Hc; [|reflexivity].
  rewrite (star_pointwise _ not_terminator) by apply model_class_matches.
  erewrite star_greedy; [reflexivity|].
  pose proof (length_after_run not_terminator (c :: t')) as Hlen.
  cbn [run_of after_run] in Hlen. rewrite Hc in Hlen. rewrite Hlen.
  do 3 f_equal.
  rewrite <- (run_of_after_run not_terminator t') at 2.
  rewrite app_comm_cons. apply take_app_length.
Qed.

Lemma exec_model_some (pre u r : chars) :
  model_token_here u = Some r ->
  (forall p1 p2, pre = p1 ++ p2 -> p2 <> [] -> model_token_here (p2 ++ u) = None) ->
  exec false ProfileModel.pattern (pre ++ u) = Some {| group1 := Some r |}.
Proof.
  intros Hu. induction pre as [|c pre IH]; intros Hpre.
  - simpl. destruct u; cbn [exec]; rewrite match_here_model, Hu; reflexivity.
  - change ((c :: pre) ++ u) with (c :: (pre ++ u)). cbn [exec].
    rewrite match_here_model.
    assert (H0 : model_token_here (c :: pre ++ u) = None)
      by (apply (Hpre [] (c :: pre)); [reflexivity | discriminate]).
    rewrite H0. apply IH. intros p1 p2 -> Hp2.
    apply (Hpre (c :: p1) p2); [reflexivity | exact Hp2].
Qed.

Lemma starts_with_marker (s : chars) :
  starts_with (list_ascii_of_string marker) s = true ->
  exists rest, s = list_ascii_of_string marker ++ rest.
Proof. intros H. apply starts_with_spec, H. Qed.

(** Where both extractors agree: on a string whose first reading of
    [linkedin.com/in/] is in lower case and is followed by an identifier
    that ends the string or is followed by [/] or [?]. *)
Lemma extractors_agree_on_canonical_urls (pre run rest : string) :
  run <> ""%string ->
  forallb id_char (list_ascii_of_string run) = true ->
  terminated (list_ascii_of_string rest) = true ->
  (forall pre', MarkerAt (pre ++ marker ++ run ++ rest)%string pre' ->
                String.length pre <= String.length pre') ->
  LinkedinHelper.extractLinkedInId (Some (pre ++ marker ++ run ++ rest)%string)
  = Normal (Some (toLowerCase run))
  /\ ProfileModel.extractLinkedInId (Some (pre ++ marker ++ run ++ rest)%string)
     = Normal (Some (toLowerCase run)).
Proof.
  intros Hrun Hid Hrest Hfirst.
  set (s := (pre ++ marker ++ run ++ rest)%string) in *.
  assert (Hocc : Occurs s pre run).
  { exists marker, rest. split; [reflexivity|]. split; [reflexivity|].
    split; [exact Hrun | split; assumption]. }
  split.
  - apply (proj1 (extractLinkedInId_leftmost (Some s)) s pre run eq_refl Hocc).
    intros pre' run' (lit & rest' & Hs & Hlit & _). apply Hfirst.
    exists lit, (run' ++ rest')%string. split; assumption.
  - unfold ProfileModel.extractLinkedInId.
    rewrite (occurs_truthy _ _ _ Hocc). cbn [negb or_empty]. unfold str_match.
    assert (Hs : list_ascii_of_string s
                 = list_ascii_of_string pre
                   ++ (list_ascii_of_string marker
                       ++ list_ascii_of_string run ++ list_ascii_of_string rest))
      by (subst s; rewrite !chars_app; reflexivity).
    rewrite Hs, (exec_model_some _ _ (list_ascii_of_string run)).
    + cbn [group1]. rewrite string_of_list_ascii_of_string. reflexivity.
    + unfold model_token_here.
      change (starts_with (list_ascii_of_string marker)
                (list_ascii_of_string marker ++ _)) with true.
      cbv iota.
      change (drop 16 (list_ascii_of_string marker ++ ?x)) with x.
      destruct (run_of_app not_terminator (list_ascii_of_string run)
                  (list_ascii_of_string rest)) as [-> _].
      * apply forallb_forall. intros c Hc. unfold not_terminator.
        rewrite (id_char_not_terminator c); [reflexivity|].
        rewrite forallb_forall in Hid. apply Hid, Hc.
      * destruct (list_ascii_of_string rest) as [|c r]; [reflexivity|].
        unfold not_terminator. simpl in Hrest. rewrite Hrest. reflexivity.
      * destruct (list_ascii_of_string run) eqn:E; [|reflexivity].
        apply chars_nil in E. contradiction.
    + intros p1 p2 Hpre Hp2.
      destruct (model_token_here (p2 ++ _)) eqn:Hm; [|reflexivity]. exfalso.
      unfold model_token_here in Hm.
      destruct (starts_with _ (p2 ++ _)) eqn:Hstart; [|discriminate].
      apply starts_with_marker in Hstart as [rest' Hrest'].
      assert (Hat : MarkerAt s (string_of_list_ascii p1)).
      { exists marker, (string_of_list_ascii rest'). split; [|reflexivity].
        rewrite <- (string_of_list_ascii_of_string s), Hs, Hpre, <- app_assoc, Hrest'.
        rewrite !string_app, string_of_list_ascii_of_string. reflexivity. }
      apply Hfirst in Hat. rewrite string_length_chars, <- chars_length in Hat.
      rewrite Hpre, length_app in Hat. destruct p2; [contradiction | simpl in Hat; lia].
Qed.

End ModelFacts.

Section Extractors.
Import Js.

(** C10, on two URLs.  The helper used for the duplicate lookup and the
    extractor of the Profile model's pre-save hook disagree: on a URL whose
    host is not in lower case the helper finds the identifier and the
    model stores none; on a URL with a fragment the helper finds none and
    the model stores the identifier with the fragment. *)
Theorem extractors_disagree :
  LinkedinHelper.extractLinkedInId (Some "https://www.LinkedIn.com/in/John-Doe")
  = Normal (Some "john-doe")
  /\ ProfileModel.extractLinkedInId (Some "https://www.LinkedIn.com/in/John-Doe")
     = Normal None
  /\ LinkedinHelper.extractLinkedInId (Some "https://www.linkedin.com/in/john-doe#about")
     = Normal None
  /\ ProfileModel.extractLinkedInId (Some "https://www.linkedin.com/in/john-doe#about")
     = Normal (Some "john-doe#about").
Proof. repeat split; vm_compute; reflexivity. Qed.

End Extractors.

(* ===================================================================== *)
(** ** Worked examples *)
(* ===================================================================== *)

Section Examples.
Import Js Spec Scraper.

Example helper_on_profile_url :
  LinkedinHelper.extractLinkedInId (Some "https://www.linkedin.com/in/John-Doe/?x=1")
  = Normal (Some "john-doe").
Proof. vm_compute. reflexivity. Qed.

Example helper_on_company_url :
  LinkedinHelper.extractLinkedInId (Some "https://www.linkedin.com/company/acme")
  = Normal None.
Proof. vm_compute. reflexivity. Qed.

Example helper_takes_leftmost :
  LinkedinHelper.extractLinkedInId (Some "linkedin.com/in/a/linkedin.com/in/b")
  = Normal (Some "a").
Proof. vm_compute. reflexivity. Qed.

Example engineer_in_2024 :
  exists c,
    transformLinkedInDataWithPhone 2024 (Some engineer_since_2018) "user-1"
      sample_input = Normal c
    /\ c_experience c = 6%Z
    /\ c_seniorityLevel c = "Mid-level"
    /\ c_company c = "Acme"
    /\ c_name c = "Ada Lovelace".
Proof. eexists. split; [reflexivity|]. repeat split; vm_compute; reflexivity. Qed.

Example both_on_profile_url :
  LinkedinHelper.extractLinkedInId (Some "https://www.linkedin.com/in/john-doe/")
  = Normal (Some "john-doe")
  /\ ProfileModel.extractLinkedInId (Some "https://www.linkedin.com/in/john-doe/")
     = Normal (Some "john-doe").
Proof. split; vm_compute; reflexivity. Qed.

Example dedup_keeps_first :
  new_Set ["rust"; "go"; "rust"; "ocaml"; "go"] = ["rust"; "go"; "ocaml"].
Proof. reflexivity. Qed.

End Examples.

(* ===================================================================== *)
(** ** More on the two extractors and the duplicate check *)
(* ===================================================================== *)

Section IdentifierFacts.
Import Js Regex Spec.
Local Open Scope list_scope.

Lemma not_terminator_lower (c : ascii) :
  not_terminator c = true -> not_terminator (lower_char c) = true.
Proof.
  revert c.
  assert (H : forallb (fun c => implb (not_terminator c) (not_terminator (lower_char c)))
              all_chars = true) by (vm_compute; reflexivity).
  intros c Hc. pose proof (for_all_chars _ H c) as H'. cbv beta in H'.
  rewrite Hc in H'. exact H'.
Qed.

Lemma forallb_lower (p : ascii -> bool) (r : chars) :
  (forall c, p c = true -> p (lower_char c) = true) ->
  forallb p r = true -> forallb p (lower_chars r) = true.
Proof.
  intros Hp. induction r as [|c r IH]; simpl; [reflexivity|].
  intros H. apply andb_prop in H as [Hc Hr]. rewrite (Hp c Hc). exact (IH Hr).
Qed.

Lemma lower_chars_idempotent (r : chars) : lower_chars (lower_chars r) = lower_chars r.
Proof.
  unfold lower_chars. induction r as [|c r IH]; simpl; [reflexivity|].
  rewrite lower_char_idempotent, IH. reflexivity.
Qed.

Lemma toLowerCase_idempotent (s : string) : toLowerCase (toLowerCase s) = toLowerCase s.
Proof.
  unfold toLowerCase. rewrite list_ascii_of_string_of_list_ascii, lower_chars_idempotent.
  reflexivity.
Qed.

Lemma exec_model_found (s : chars) (m : match_array) :
  exec false ProfileModel.pattern s = Some m ->
  exists p u r,
    s = p ++ u /\ model_token_here u = Some r /\ m = {| group1 := Some r |}.
Proof.
  induction s as [|c s IH]; cbn [exec]; rewrite match_here_model.
  - destruct (model_token_here []) as [r|] eqn:Hr; [|discriminate].
    intros [= <-]. exists [], [], r. auto.
  - destruct (model_token_here (c :: s)) as [r|] eqn:Hr.
    + intros [= <-]. exists [], (c :: s), r. auto.
    + intros Hm. destruct (IH Hm) as (p & u & r & -> & Hu & ->).
      exists (c :: p), u, r. auto.
Qed.

Lemma model_token_here_elim (s r : chars) :
  model_token_here s = Some r -> r <> [] /\ forallb not_terminator r = true.
Proof.
  unfold model_token_here. destruct (starts_with _ s); [|discriminate].
  destruct (run_of not_terminator (drop 16 s)) as [|c r'] eqn:Hrun; [discriminate|].
  intros [= <-]. split; [discriminate|]. rewrite <- Hrun. apply run_of_all.
Qed.

(** What the helper returns, when it returns an identifier. *)
Lemma helper_returns (url : option string) (id : string) :
  LinkedinHelper.extractLinkedInId url = Normal (Some id) ->
  exists r, id = toLowerCase (string_of_list_ascii r)
            /\ r <> [] /\ forallb id_char r = true.
Proof.
  unfold LinkedinHelper.extractLinkedInId, str_match.
  destruct (negb (truthy url)); [discriminate|].
  destruct (exec true LinkedinHelper.pattern _) as [m|] eqn:Hm; [|discriminate].
  destruct (exec_helper_found _ _ Hm) as (p & u & r & _ & Hu & -> & _).
  cbn [group1]. intros [= <-]. exists r. split; [reflexivity|].
  apply token_here_elim in Hu as (l & rest & _ & _ & Hr & Hid & _). auto.
Qed.

Lemma model_returns (url : option string) (id : string) :
  ProfileModel.extractLinkedInId url = Normal (Some id) ->
  exists r, id = toLowerCase (string_of_list_ascii r)
            /\ r <> [] /\ forallb not_terminator r = true.
Proof.
  unfold ProfileModel.extractLinkedInId, str_match.
  destruct (negb (truthy url)); [discriminate|].
  destruct (exec false ProfileModel.pattern _) as [m|] eqn:Hm; [|discriminate].
  destruct (exec_model_found _ _ Hm) as (p & u & r & _ & Hu & ->).
  cbn [group1]. intros [= <-]. exists r. split; [reflexivity|].
  exact (model_token_here_elim _ _ Hu).
Qed.

Lemma model_never_throws (url : option string) (message : string) :
  ProfileModel.extractLinkedInId url <> Throw message.
Proof.
  unfold ProfileModel.extractLinkedInId, str_match.
  destruct (negb (truthy url)); [discriminate|].
  destruct (exec false ProfileModel.pattern _) as [m|] eqn:Hm; [|discriminate].
  destruct (exec_model_found _ _ Hm) as (p & u & r & _ & _ & ->). discriminate.
Qed.

Lemma lowered_shape (p : ascii -> bool) (r : chars) :
  (forall c, p c = true -> p (lower_char c) = true) ->
  r <> [] -> forallb p r = true ->
  toLowerCase (string_of_list_ascii r) <> ""%string
  /\ forallb p (list_ascii_of_string (toLowerCase (string_of_list_ascii r))) = true
  /\ toLowerCase (toLowerCase (string_of_list_ascii r))
     = toLowerCase (string_of_list_ascii r).
Proof.
  intros Hp Hr Hall. split; [|split].
  - intros H. apply (f_equal list_ascii_of_string) in H.
    rewrite lower_of_string, list_ascii_of_string_of_list_ascii in H.
    destruct r; [contradiction | discriminate].
  - rewrite lower_of_string, list_ascii_of_string_of_list_ascii.
    apply forallb_lower; assumption.
  - apply toLowerCase_idempotent.
Qed.

(** X1.  An identifier returned by the helper is never empty, is made of
    word characters, hyphens, percent signs, dots and digits only, and is
    in lower case. *)
Theorem helper_id_shape (url : option string) (id : string) :
  LinkedinHelper.extractLinkedInId url = Normal (Some id) ->
  id <> ""%string
  /\ forallb id_char (list_ascii_of_string id) = true
  /\ toLowerCase id = id.
Proof.
  intros H. destruct (helper_returns _ _ H) as (r & -> & Hr & Hid).
  apply lowered_shape; [apply id_char_lower | exact Hr | exact Hid].
Qed.

Lemma helper_id_shape_witness :
  "john-doe"%string <> ""%string
  /\ forallb id_char (list_ascii_of_string "john-doe") = true
  /\ toLowerCase "john-doe" = "john-doe"%string.
Proof.
  apply (helper_id_shape (Some "https://www.LinkedIn.com/in/John-Doe/"%string)).
  vm_compute. reflexivity.
Defined.

(** X2.  An identifier stored by the Profile model is never empty,
    contains neither [/] nor [?], and is in lower case; the extractor of
    the model never throws. *)
Theorem model_id_shape (url : option string) :
  (forall id,
      ProfileModel.extractLinkedInId url = Normal (Some id) ->
      id <> ""%string
      /\ forallb not_terminator (list_ascii_of_string id) = true
      /\ toLowerCase id = id)
  /\ (forall message, ProfileModel.extractLinkedInId url <> Throw message).
Proof.
  split; [|apply model_never_throws].
  intros id H. destruct (model_returns _ _ H) as (r & -> & Hr & Hid).
  apply lowered_shape; [apply not_terminator_lower | exact Hr | exact Hid].
Qed.

Lemma model_id_shape_witness :
  "john-doe#about"%string <> ""%string
  /\ forallb not_terminator (list_ascii_of_string "john-doe#about") = true
  /\ toLowerCase "john-doe#about" = "john-doe#about"%string.
Proof.
  apply (proj1 (model_id_shape (Some "https://www.linkedin.com/in/John-Doe#About"%string))).
  vm_compute. reflexivity.
Defined.

Lemma marker_not_before_host (x : string) (pre' : string) :
  MarkerAt ("https://www.linkedin.com/in/" ++ x)%string pre' ->
  12 <= String.length pre'.
Proof.
  intros (lit & rest & Hs & Hlit).
  destruct (Nat.le_gt_cases 12 (String.length pre')) as [Hle | Hlt]; [exact Hle|].
  exfalso.
  assert (Hp : lit_prefix (list_ascii_of_string marker)
                 (list_ascii_of_string lit ++ list_ascii_of_string rest) = true).
  { apply lit_prefix_intro. rewrite <- lower_of_string, Hlit. reflexivity. }
  apply (f_equal list_ascii_of_string) in Hs.
  rewrite !chars_app in Hs.
  apply (f_equal (drop (String.length pre'))) in Hs.
  rewrite <- (chars_length pre') in Hs at 2. rewrite drop_app_length in Hs.
  rewrite <- Hs in Hp. clear Hs Hlit.
  revert Hp Hlt. generalize (String.length pre') as k. intros k Hp Hlt.
  do 12 (destruct k as [|k]; [vm_compute in Hp; discriminate|]).
  lia.
Qed.

Lemma both_extract_from_profile_url (run tail : string) :
  run <> ""%string ->
  forallb id_char (list_ascii_of_string run) = true ->
  terminated (list_ascii_of_string tail) = true ->
  LinkedinHelper.extractLinkedInId
    (Some ("https://www.linkedin.com/in/" ++ run ++ tail)%string)
  = Normal (Some (toLowerCase run))
  /\ ProfileModel.extractLinkedInId
       (Some ("https://www.linkedin.com/in/" ++ run ++ tail)%string)
     = Normal (Some (toLowerCase run)).
Proof.
  intros Hrun Hid Htail.
  change ("https://www.linkedin.com/in/" ++ run ++ tail)%string
    with ("https://www." ++ marker ++ run ++ tail)%string.
  apply extractors_agree_on_canonical_urls; try assumption.
  intros pre' Hat. change (String.length "https://www.") with 12.
  apply (marker_not_before_host (run ++ tail)%string). exact Hat.
Qed.

(** X3.  From a URL of the usual form, [https://www.linkedin.com/in/]
    followed by an identifier and then nothing, [/...] or [?...], both
    extractors return the identifier in lower case, whatever follows it. *)
Theorem profile_url_identifier (run tail : string) :
  run <> ""%string ->
  forallb id_char (list_ascii_of_string run) = true ->
  terminated (list_ascii_of_string tail) = true ->
  LinkedinHelper.extractLinkedInId
    (Some ("https://www.linkedin.com/in/" ++ run ++ tail)%string)
  = Normal (Some (toLowerCase run))
  /\ ProfileModel.extractLinkedInId
       (Some ("https://www.linkedin.com/in/" ++ run ++ tail)%string)
     = Normal (Some (toLowerCase run)).
Proof. apply both_extract_from_profile_url. Qed.

Lemma profile_url_identifier_witness :
  LinkedinHelper.extractLinkedInId
    (Some "https://www.linkedin.com/in/John.Doe-42?utm=x"%string)
  = Normal (Some "john.doe-42"%string)
  /\ ProfileModel.extractLinkedInId
       (Some "https://www.linkedin.com/in/John.Doe-42?utm=x"%string)
     = Normal (Some "john.doe-42"%string).
Proof.
  apply (profile_url_identifier "John.Doe-42" "?utm=x");
    [discriminate | reflexivity | reflexivity].
Defined.

End IdentifierFacts.

Section DuplicateFacts.
Import Js Regex Spec Duplicates.
Local Open Scope list_scope.

Lemma helper_never_throws (url : option string) (message : string) :
  LinkedinHelper.extractLinkedInId url <> Throw message.
Proof. apply (extractLinkedInId_leftmost url). Qed.

Lemma helper_id_truthy (url : option string) (id : string) :
  LinkedinHelper.extractLinkedInId url = Normal (Some id) -> truthy (Some id) = true.
Proof.
  intros H. destruct (helper_returns _ _ H) as (r & -> & Hr & Hid).
  apply truthy_some.
  apply (lowered_shape id_char r); [apply id_char_lower | exact Hr | exact Hid].
Qed.

Lemma helper_url_truthy (url : option string) (id : string) :
  LinkedinHelper.extractLinkedInId url = Normal (Some id) -> truthy url = true.
Proof.
  unfold LinkedinHelper.extractLinkedInId.
  destruct (truthy url); [reflexivity | discriminate].
Qed.

Lemma find_some_exists {A} (f : A -> bool) (l : list A) (x : A) :
  In x l -> f x = true -> exists y, find f l = Some y /\ f y = true.
Proof.
  induction l as [|a l IH]; intros Hin Hf; [contradiction|]. simpl.
  destruct (f a) eqn:Ha; [eauto|].
  destruct Hin as [-> | Hin]; [congruence | apply IH; assumption].
Qed.

Lemma duplicate_check_outcome
    (url : option string) (findOne : string -> completion (option Profile)) :
  exists r,
    checkLinkedInDuplicate url findOne = Normal r
    /\ ((exists id doc,
            LinkedinHelper.extractLinkedInId url = Normal (Some id)
            /\ findOne id = Normal (Some doc)) ->
        r = Some {| dup_exists := true;
                    dup_message := "A profile with this LinkedIn URL already exists" |})
    /\ (~ (exists id doc,
              LinkedinHelper.extractLinkedInId url = Normal (Some id)
              /\ findOne id = Normal (Some doc)) ->
        r = None).
Proof.
  unfold checkLinkedInDuplicate.
  destruct (truthy url) eqn:Hurl; cbn [negb].
  2:{ exists None. split; [reflexivity|]. split; [|reflexivity].
      intros (id & doc & Hid & _). apply helper_url_truthy in Hid. congruence. }
  destruct (LinkedinHelper.extractLinkedInId url) as [[id|]|e] eqn:Hid.
  - rewrite (helper_id_truthy _ _ Hid). cbn [negb or_empty].
    destruct (findOne id) as [[doc|]|e] eqn:Hfind.
    + eexists. split; [reflexivity|]. split; [reflexivity|].
      intros Hno. exfalso. apply Hno. eauto.
    + exists None. split; [reflexivity|]. split; [|reflexivity].
      intros (id' & doc & [= <-] & Hf). congruence.
    + exists None. split; [reflexivity|]. split; [|reflexivity].
      intros (id' & doc & [= <-] & Hf). congruence.
  - exists None. split; [reflexivity|]. split; [|reflexivity].
    intros (id' & doc & [=] & _).
  - exfalso. exact (helper_never_throws _ _ Hid).
Qed.

(** X4.  The duplicate check never throws.  It reports a duplicate exactly
    when the helper finds an identifier in the URL and the lookup by that
    identifier returns a document; a lookup that fails counts as no
    duplicate. *)
Theorem duplicate_check_fails_open
    (url : option string) (findOne : string -> completion (option Profile)) :
  exists r,
    checkLinkedInDuplicate url findOne = Normal r
    /\ ((exists id doc,
            LinkedinHelper.extractLinkedInId url = Normal (Some id)
            /\ findOne id = Normal (Some doc)) ->
        r = Some {| dup_exists := true;
                    dup_message := "A profile with this LinkedIn URL already exists" |})
    /\ (~ (exists id doc,
              LinkedinHelper.extractLinkedInId url = Normal (Some id)
              /\ findOne id = Normal (Some doc)) ->
        r = None).
Proof. apply duplicate_check_outcome. Qed.

Lemma duplicate_check_fails_open_witness :
  checkLinkedInDuplicate (Some "https://www.linkedin.com/in/ada"%string)
    (fun _ => Throw "connection lost"%string)
  = Normal None.
Proof.
  destruct (duplicate_check_fails_open (Some "https://www.linkedin.com/in/ada"%string)
              (fun _ => Throw "connection lost"%string)) as (r & Hr & _ & Hnone).
  rewrite Hr. f_equal. apply Hnone.
  intros (id & doc & _ & Hf). discriminate.
Defined.

Lemma with_linkedinId_same (doc : Profile) : with_linkedinId (p_linkedinId doc) doc = doc.
Proof. destruct doc; reflexivity. Qed.

Lemma pre_save_effect (doc : Profile) :
  exists saved,
    pre_save doc = Normal saved
    /\ saved = with_linkedinId (p_linkedinId saved) doc
    /\ pre_save saved = Normal saved
    /\ (truthy (p_linkedinUrl doc) = false -> saved = doc)
    /\ (truthy (p_linkedinUrl doc) = true ->
        ProfileModel.extractLinkedInId (p_linkedinUrl doc)
        = Normal (p_linkedinId saved)).
Proof.
  unfold pre_save. destruct (truthy (p_linkedinUrl doc)) eqn:Hurl.
  - destruct (ProfileModel.extractLinkedInId (p_linkedinUrl doc)) as [id|e] eqn:Hid.
    + exists (with_linkedinId id doc). cbn [p_linkedinUrl p_linkedinId with_linkedinId].
      rewrite Hurl, Hid. repeat split; try reflexivity. discriminate.
    + exfalso. exact (model_never_throws _ _ Hid).
  - exists doc. rewrite Hurl. repeat split; try reflexivity.
    + symmetry. apply with_linkedinId_same.
    + discriminate.
Qed.

(** X5.  The pre-save hook never fails and touches nothing but
    [linkedinId]: a document without a URL is left as it is; with a URL,
    [linkedinId] becomes what the model's extractor finds in it (nothing,
    when the URL is not a profile URL).  Running the hook again changes
    nothing. *)
Theorem pre_save_sets_only_the_identifier (doc : Profile) :
  exists saved,
    pre_save doc = Normal saved
    /\ saved = with_linkedinId (p_linkedinId saved) doc
    /\ pre_save saved = Normal saved
    /\ (truthy (p_linkedinUrl doc) = false -> saved = doc)
    /\ (truthy (p_linkedinUrl doc) = true ->
        ProfileModel.extractLinkedInId (p_linkedinUrl doc)
        = Normal (p_linkedinId saved)).
Proof. apply pre_save_effect. Qed.

(** X6.  A profile saved with the URL [https://www.linkedin.com/in/<id>],
    with or without a path or query after the identifier, is found by the
    duplicate check of any URL of that form whose identifier is the same up
    to letter case. *)
Theorem saved_profile_is_found
    (run tail run' tail' : string) (doc saved : Profile) (collection : list Profile) :
  run <> ""%string ->
  forallb id_char (list_ascii_of_string run) = true ->
  terminated (list_ascii_of_string tail) = true ->
  run' <> ""%string ->
  forallb id_char (list_ascii_of_string run') = true ->
  terminated (list_ascii_of_string tail') = true ->
  toLowerCase run = toLowerCase run' ->
  p_linkedinUrl doc = Some ("https://www.linkedin.com/in/" ++ run ++ tail)%string ->
  pre_save doc = Normal saved ->
  In saved collection ->
  checkLinkedInDuplicate
    (Some ("https://www.linkedin.com/in/" ++ run' ++ tail')%string)
    (find_by_linkedinId collection)
  = Normal (Some {| dup_exists := true;
                    dup_message := "A profile with this LinkedIn URL already exists" |}).
Proof.
  intros Hrun Hid Htail Hrun' Hid' Htail' Hsame Hurl Hsave Hin.
  destruct (both_extract_from_profile_url run tail Hrun Hid Htail) as [_ Hmodel].
  destruct (both_extract_from_profile_url run' tail' Hrun' Hid' Htail') as [Hhelper _].
  destruct (pre_save_effect doc) as (saved' & Hsave' & _ & _ & _ & Hset).
  rewrite Hsave in Hsave'. injection Hsave' as <-.
  rewrite Hurl in Hset. specialize (Hset eq_refl). rewrite Hmodel in Hset.
  injection Hset as Hsaved.
  destruct (duplicate_check_outcome
              (Some ("https://www.linkedin.com/in/" ++ run' ++ tail')%string)
              (find_by_linkedinId collection)) as (r & Hr & Hyes & _).
  rewrite Hr. f_equal. apply Hyes.
  destruct (find_some_exists
              (fun d => bool_decide (p_linkedinId d = Some (toLowerCase run')))
              collection saved Hin) as (found & Hfound & _).
  { apply bool_decide_eq_true. rewrite <- Hsame. symmetry. exact Hsaved. }
  exists (toLowerCase run'), found. split; [exact Hhelper|].
  unfold find_by_linkedinId. rewrite Hfound. reflexivity.
Qed.

Lemma saved_profile_is_found_witness :
  checkLinkedInDuplicate
    (Some "https://www.linkedin.com/in/ADA-L?trk=mail"%string)
    (find_by_linkedinId
       [Samples.profile_with_url "https://www.linkedin.com/in/grace/";
        with_linkedinId (Some "ada-l"%string)
          (Samples.profile_with_url "https://www.linkedin.com/in/Ada-L/details")])
  = Normal (Some {| dup_exists := true;
                    dup_message := "A profile with this LinkedIn URL already exists" |}).
Proof.
  apply (saved_profile_is_found "Ada-L" "/details" "ADA-L" "?trk=mail"
           (Samples.profile_with_url "https://www.linkedin.com/in/Ada-L/details")
           (with_linkedinId (Some "ada-l"%string)
              (Samples.profile_with_url "https://www.linkedin.com/in/Ada-L/details")));
    try discriminate; try (vm_compute; reflexivity).
  right. left. reflexivity.
Defined.

End DuplicateFacts.

(* ===================================================================== *)
(** ** More on the normaliser *)
(* ===================================================================== *)

Section NormaliserFacts.
Import Js Spec Scraper Samples.
Local Open Scope list_scope.






Lemma blank_trim (s : string) : Blank s <-> trim s = ""%string.
Proof.
  pose proof (not_blank_spec s) as H. unfold not_blank in H.
  destruct (String.eqb_spec (trim s) ""%string) as [E | E]; simpl in H.
  - split; [intros _; exact E|]. intros _.
    destruct (decide (Blank s)) as [Hb | Hb]; [exact Hb|].
    apply H in Hb. discriminate.
  - split; [|intros E'; contradiction]. intros Hb. exfalso.
    apply (proj1 H eq_refl), Hb.
Qed.

Lemma override_value (raw payload : option string) :
  (forall v, raw = Some v -> ~ Blank v ->
     or_empty (Some (trim (or_empty (raw ||| Some ""%string))) ||| payload) = trim v)
  /\ ((forall v, raw = Some v -> Blank v) ->
      or_empty (Some (trim (or_empty (raw ||| Some ""%string))) ||| payload)
      = or_empty payload).
Proof.
  split.
  - intros v -> Hv. unfold or_else.
    assert (Hne : v <> ""%string) by (intros ->; apply Hv; constructor).
    rewrite (proj2 (truthy_some v) Hne). cbn [or_empty].
    assert (Ht : trim v <> ""%string) by (intros E; apply Hv, blank_trim, E).
    rewrite (proj2 (truthy_some (trim v)) Ht). reflexivity.
  - intros Hblank. unfold or_else.
    assert (Ht : trim (or_empty (if truthy raw then raw else Some ""%string)) = ""%string).
    { destruct raw as [v|]; [|reflexivity].
      destruct (truthy (Some v)); [|reflexivity].
      apply blank_trim, Hblank. reflexivity. }
    rewrite Ht. cbn [truthy String.eqb negb]. 
    destruct payload as [x|]; [|reflexivity].
    destruct (truthy (Some x)) eqn:Hx; reflexivity.
Qed.

(** X8.  The phone and the email a user submits with a URL win over those
    of the scraped payload whenever they hold more than white space, and
    arrive trimmed; a missing or blank one leaves the payload's value (or
    nothing) in place. *)
Theorem user_contact_details_win
    (currentYear : Z) (p : LinkedInProfile) (userId : string) (d : RawDescriptor) :
  exists c,
    transformLinkedInDataWithPhone currentYear (Some p) userId (structure d) = Normal c
    /\ (forall v, raw_phone d = Some v -> ~ Blank v -> c_phone c = trim v)
    /\ ((forall v, raw_phone d = Some v -> Blank v) -> c_phone c = or_empty (li_phone p))
    /\ (forall v, raw_email d = Some v -> ~ Blank v -> c_email c = trim v)
    /\ ((forall v, raw_email d = Some v -> Blank v) -> c_email c = or_empty (li_email p)).
Proof.
  eexists. split; [reflexivity|].
  cbn [c_phone c_email structure phone email].
  destruct (override_value (raw_phone d) (li_phone p)) as [H1 H2].
  destruct (override_value (raw_email d) (li_email p)) as [H3 H4].
  repeat split; assumption.
Qed.

End NormaliserFacts.

(* ===================================================================== *)
(** ** More on the scrape handler *)
(* ===================================================================== *)

Section ValidationFacts.
Import Js Store Spec Scraper Samples.
Local Open Scope list_scope.

(** Dropping leading white space keeps a word that starts with another
    character, and all that follows it. *)
Lemma drop_spaces_keeps (pre w post : chars) (c : ascii) (w' : chars) :
  w = c :: w' -> is_space c = false ->
  exists pre', drop_spaces (pre ++ w ++ post) = pre' ++ w ++ post.
Proof.
  intros -> Hc. induction pre as [|a pre IH].
  - exists []. simpl. rewrite Hc. reflexivity.
  - simpl. destruct (is_space a).
    + exact IH.
    + exists (a :: pre). reflexivity.
Qed.

Lemma trim_chars_keeps (pre w post : chars) (c1 c2 : ascii) (w1 w2 : chars) :
  w = c1 :: w1 -> is_space c1 = false ->
  rev w = c2 :: w2 -> is_space c2 = false ->
  exists pre' post', trim_chars (pre ++ w ++ post) = pre' ++ w ++ post'.
Proof.
  intros Hw Hc1 Hrev Hc2. unfold trim_chars.
  destruct (drop_spaces_keeps pre w post c1 w1 Hw Hc1) as [pre' ->].
  rewrite !rev_app_distr, <- app_assoc.
  destruct (drop_spaces_keeps (rev post) (rev w) (rev pre') c2 w2 Hrev Hc2) as [post' ->].
  exists pre', (rev post'). rewrite !rev_app_distr, rev_involutive, <- app_assoc.
  rewrite rev_involutive. reflexivity.
Qed.

Lemma includes_trim (s w : string) (c1 c2 : ascii) (w1 w2 : chars) :
  list_ascii_of_string w = c1 :: w1 -> is_space c1 = false ->
  rev (list_ascii_of_string w) = c2 :: w2 -> is_space c2 = false ->
  includes s w = true -> includes (trim s) w = true.
Proof.
  intros Hw Hc1 Hrev Hc2. unfold includes, trim.
  rewrite list_ascii_of_string_of_list_ascii, !includes_chars_spec.
  intros (pre & post & ->).
  destruct (trim_chars_keeps pre _ post c1 c2 w1 w2 Hw Hc1 Hrev Hc2) as (pre' & post' & ->).
  eauto.
Qed.

Lemma is_profile_url_trim (d : RawDescriptor) :
  is_profile_url d = true ->
  exists u, raw_url d = Some u
            /\ (includes (trim u) "linkedin.com/in/" = true
                \/ includes (trim u) "linkedin.com/pub/" = true).
Proof.
  unfold is_profile_url. intros H. apply andb_prop in H as [Hu H].
  destruct (raw_url d) as [u|]; [|discriminate]. exists u. split; [reflexivity|].
  cbn [or_empty] in H. apply orb_prop in H as [H | H]; [left | right];
    (eapply includes_trim; [reflexivity | reflexivity | reflexivity | reflexivity | exact H]).
Qed.

Lemma valid_profiles_effect (ds : list RawDescriptor) :
  length (valid_profiles ds) <= length ds
  /\ forall v, In v (valid_profiles ds) ->
       (exists d u, In d ds /\ raw_url d = Some u /\ v = structure d /\ url v = trim u)
       /\ (includes (url v) "linkedin.com/in/" = true
           \/ includes (url v) "linkedin.com/pub/" = true)
       /\ Forall (fun x => x <> ""%string) (extraLinks v).
Proof.
  unfold valid_profiles. split.
  - rewrite length_map. apply length_filter.
  - intros v Hv. apply in_map_iff in Hv as (d & <- & Hd).
    apply list_elem_of_In, list_elem_of_filter in Hd as [Hp Hd].
    apply list_elem_of_In in Hd.
    destruct (is_profile_url_trim d Hp) as (u & Hu & Hinc).
    split; [|split].
    + exists d, u. repeat split; try assumption.
      unfold structure. cbn [url]. rewrite Hu. reflexivity.
    + unfold structure. cbn [url]. rewrite Hu. exact Hinc.
    + unfold structure. cbn [extraLinks].
      destruct (raw_extraLinks d) as [l|]; [|constructor].
      apply Forall_forall. intros x Hx.
      apply list_elem_of_filter in Hx as [Hx _].
      apply truthy_some, Hx.
Qed.

(** X9.  The profiles that pass validation are never more than those
    submitted.  Each comes from a submitted descriptor, its URL is that
    descriptor's URL trimmed and still contains [linkedin.com/in/] or
    [linkedin.com/pub/], and its extra links hold no empty string. *)
Theorem valid_profiles_are_profile_urls (ds : list RawDescriptor) :
  length (valid_profiles ds) <= length ds
  /\ forall v, In v (valid_profiles ds) ->
       (exists d u, In d ds /\ raw_url d = Some u /\ v = structure d /\ url v = trim u)
       /\ (includes (url v) "linkedin.com/in/" = true
           \/ includes (url v) "linkedin.com/pub/" = true)
       /\ Forall (fun x => x <> ""%string) (extraLinks v).
Proof. apply valid_profiles_effect. Qed.

End ValidationFacts.

Section BatchFacts.
Import Js Store Spec Scraper Samples.
Local Open Scope list_scope.

(** One turn of the loop adds one entry, for the profile at hand; the
    entry is a success exactly when the item has data, the data is
    sufficient and the save went through. *)
Lemma process_profile_step (up : Upstream) (currentYear : Z) (userId : string)
    (i : nat) (input : ProfileInput) (data : option LinkedInProfile) (st : HState) :
  exists e cs,
    fst (process_profile up currentYear userId i input data st) = Normal tt
    /\ results (h_results (snd (process_profile up currentYear userId i input data st)))
       = results (h_results st) ++ [e]
    /\ total (h_results (snd (process_profile up currentYear userId i input data st)))
       = total (h_results st)
    /\ processed (h_results (snd (process_profile up currentYear userId i input data st)))
       = S (processed (h_results st))
    /\ successful (h_results (snd (process_profile up currentYear userId i input data st)))
       + failed (h_results (snd (process_profile up currentYear userId i input data st)))
       = S (successful (h_results st) + failed (h_results st))
    /\ h_calls (snd (process_profile up currentYear userId i input data st))
       = h_calls st ++ cs
    /\ length (saves cs) <= 1
    /\ h_world (snd (process_profile up currentYear userId i input data st)) = h_world st
    /\ result_url e = url input
    /\ (is_success e <-> ItemSucceeds up currentYear userId i input data)
    /\ (data = None -> e = ItemFailed (url input) "No profile data received" /\ cs = []).
Proof.
  unfold process_profile, try_catch, bind, update_results, call, throw, ItemSucceeds.
  destruct data as [p|]; cbn [fst snd h_results h_calls h_world].
  2:{ exists (ItemFailed (url input) "No profile data received"), [].
      cbn [fst snd h_results h_calls h_world results total processed successful failed
           record_failure record_success incr_processed result_url is_success saves
           length app negb]. rewrite ?app_nil_r.
      repeat split; try reflexivity; try lia; try tauto; try discriminate;
        try (intros (p & c & Hd & _); discriminate). }
  destruct (transformLinkedInDataWithPhone currentYear (Some p) userId input)
    as [c|e0] eqn:Hc.
  2:{ exists (ItemFailed (url input) e0), [].
      cbn [fst snd h_results h_calls h_world results total processed successful failed
           record_failure record_success incr_processed result_url is_success saves
           length app negb]. rewrite ?app_nil_r.
      repeat split; try reflexivity; try lia; try tauto; try discriminate;
        try (intros (p' & c & Hd & Ht & _); injection Hd as <-; congruence).
 }
  destruct (hasMinimumData c) eqn:Hmin; cbn [negb fst snd h_results h_calls h_world].
  2:{ exists (ItemFailed (url input) insufficient_data), [].
      cbn [fst snd h_results h_calls h_world results total processed successful failed
           record_failure record_success incr_processed result_url is_success saves
           length app negb]. rewrite ?app_nil_r.
      repeat split; try reflexivity; try lia; try tauto; try discriminate;
        try (intros (p' & c' & Hd & Ht & Hs & _); injection Hd as <-;
             rewrite Hc in Ht; injection Ht as <-;
             apply hasMinimumData_spec in Hs; congruence). }
  destruct (save_profile up i c) as [e0 | status message |] eqn:Hsave.
  - exists (ItemFailed (url input) e0), [SaveProfile c].
    cbn [fst snd h_results h_calls h_world results total processed successful failed
           record_failure record_success incr_processed result_url is_success saves
           length app negb].
    repeat split; try reflexivity; try lia; try tauto; try discriminate;
      try (intros (p' & c' & Hd & Ht & _ & Hs); injection Hd as <-;
           rewrite Hc in Ht; injection Ht as <-; congruence).
  - eexists (ItemFailed (url input) _), [SaveProfile c].
    cbn [fst snd h_results h_calls h_world results total processed successful failed
           record_failure record_success incr_processed result_url is_success saves
           length app negb].
    repeat split; try reflexivity; try lia; try tauto; try discriminate;
      try (intros (p' & c' & Hd & Ht & _ & Hs); injection Hd as <-;
           rewrite Hc in Ht; injection Ht as <-; congruence).
  - eexists (ItemSuccess (url input) _), [SaveProfile c].
    cbn [fst snd h_results h_calls h_world results total processed successful failed
           record_failure record_success incr_processed result_url is_success saves
           length app negb].
    repeat split; try reflexivity; try lia; try tauto; try discriminate;
      try (intros _; exists p, c; repeat split; try assumption;
           apply hasMinimumData_spec, Hmin).
Qed.

Lemma process_from_steps (up : Upstream) (currentYear : Z) (userId : string)
    (scrapedData : list (option LinkedInProfile)) (i : nat)
    (rest : list ProfileInput) (st : HState) :
  fst (process_from up currentYear userId scrapedData i rest st) = Normal tt
  /\ exists es cs,
       results (h_results (snd (process_from up currentYear userId scrapedData i rest st)))
       = results (h_results st) ++ es
       /\ map result_url es = map url rest
       /\ total (h_results (snd (process_from up currentYear userId scrapedData i rest st)))
          = total (h_results st)
       /\ processed (h_results (snd (process_from up currentYear userId scrapedData i rest st)))
          = processed (h_results st) + length rest
       /\ successful (h_results (snd (process_from up currentYear userId scrapedData i rest st)))
          + failed (h_results (snd (process_from up currentYear userId scrapedData i rest st)))
          = successful (h_results st) + failed (h_results st) + length rest
       /\ h_calls (snd (process_from up currentYear userId scrapedData i rest st))
          = h_calls st ++ cs
       /\ length (saves cs) <= length rest
       /\ (forall j input,
              rest !! j = Some input ->
              exists e,
                es !! j = Some e
                /\ (is_success e <->
                    ItemSucceeds up currentYear userId (i + j) input
                      (mjoin (scrapedData !! (i + j))))
                /\ (mjoin (scrapedData !! (i + j)) = None ->
                    e = ItemFailed (url input) "No profile data received")).
Proof.
  revert i st. induction rest as [|input rest IH]; intros i st.
  - split; [reflexivity|]. exists [], []. cbn. rewrite !app_nil_r, !Nat.add_0_r.
    repeat split; try reflexivity; try lia. intros j input Hj. discriminate.
  - cbn [process_from]. unfold bind.
    destruct (process_profile_step up currentYear userId i input
                (mjoin (scrapedData !! i)) st)
      as (e & cs1 & Hn & Hres & Htot & Hproc & Hsf & Hcalls & Hsaves & _ & Hurl & Hok & Hmiss).
    destruct (process_profile up currentYear userId i input
                (mjoin (scrapedData !! i)) st) as [[[]|err] st1];
      cbn [fst snd] in *; [|discriminate].
    destruct (IH (S i) st1) as (Hn2 & es & cs2 & Hres2 & Hurls & Htot2 & Hproc2 & Hsf2
                                 & Hcalls2 & Hsaves2 & Hitems).
    split; [exact Hn2|]. exists (e :: es), (cs1 ++ cs2).
    rewrite Hres2, Hres, Htot2, Htot, Hproc2, Hproc, Hsf2, Hsf, Hcalls2, Hcalls.
    rewrite <- !app_assoc, saves_app, length_app. cbn [app map length].
    rewrite Hurl, Hurls.
    repeat split; try reflexivity; try lia.
    intros [|j] input' Hj; cbn in Hj.
    + injection Hj as <-. exists e. rewrite Nat.add_0_r.
      split; [reflexivity|]. split; [exact Hok | intros H; apply Hmiss, H].
    + destruct (Hitems j input' Hj) as (e' & He' & Hok' & Hmiss').
      exists e'. replace (i + S j) with (S i + j) by lia.
      split; [exact He'|]. split; assumption.
Qed.

Lemma scrape_calls_head (up : Upstream) (vps : list ProfileInput) (st : HState) :
  exists cs,
    h_calls (snd (scrape up vps st)) = h_calls st ++ StartRun (map url vps) :: cs.
Proof.
  unfold scrape, bind, call. cbn [fst snd h_results h_calls h_world].
  destruct (start_run up (map url vps)) as [e | status | runData];
    try (exists []; reflexivity).
  match goal with
  | |- context [poll up ?id ?r ?a ?s ?st1] =>
      destruct (poll_effect up id r a s st1) as (k & _ & Hc & _);
      destruct (poll up id r a s st1) as [[status | e] st2]
  end; cbn [fst snd h_results h_calls h_world] in *.
  - destruct (negb (String.eqb status "SUCCEEDED")); cbn [fst snd h_calls throw].
    + unfold throw. cbn [snd]. rewrite Hc, <- app_assoc. eauto.
    + destruct (dataset_items up); unfold throw, ret; cbn [snd h_calls];
        rewrite Hc, <- !app_assoc; cbn [app]; eauto.
  - rewrite Hc, <- app_assoc. eauto.
Qed.

(** The batch of a validated request: it ends normally, with one entry per
    validated profile, in order, after a run submission with their URLs. *)
Lemma batch_effect (up : Upstream) (currentYear : Z) (userId : string)
    (vps : list ProfileInput) (w : World) :
  exists st cs,
    batch up currentYear userId vps (initial_state vps w) = (Normal tt, st)
    /\ h_world st = w
    /\ h_calls st = StartRun (map url vps) :: cs
    /\ total (h_results st) = length vps
    /\ processed (h_results st) = length vps
    /\ successful (h_results st) + failed (h_results st) = length vps
    /\ map result_url (results (h_results st)) = map url vps
    /\ length (saves (h_calls st)) <= length vps
    /\ (forall scrapedData st1,
           scrape up vps (initial_state vps w) = (Normal scrapedData, st1) ->
           forall i input,
             vps !! i = Some input ->
             exists e,
               results (h_results st) !! i = Some e
               /\ (is_success e <->
                   ItemSucceeds up currentYear userId i input (mjoin (scrapedData !! i)))
               /\ (mjoin (scrapedData !! i) = None ->
                   e = ItemFailed (url input) "No profile data received")).
Proof.
  unfold batch, try_catch, bind.
  destruct (scrape_effect up vps (initial_state vps w)) as (Hr & Hw & cs0 & Hc0 & Hs0 & _).
  destruct (scrape_calls_head up vps (initial_state vps w)) as (cs1 & Hhead).
  destruct (scrape up vps (initial_state vps w)) as [[scrapedData | e] st1];
    cbn [fst snd] in *.
  - destruct (process_from_steps up currentYear userId scrapedData 0 vps st1)
      as (Hn & es & cs2 & Hres & Hurls & Htot & Hproc & Hsf & Hcalls & Hsaves & Hitems).
    destruct (process_from up currentYear userId scrapedData 0 vps st1)
      as [[[]|err] st2] eqn:Hpf; cbn [fst snd] in *; [|discriminate].
    destruct (process_from_consistent up currentYear userId scrapedData 0 vps w st1)
      as [_ [Hw2 _]].
    { split; [exact Hw | rewrite Hr; reflexivity]. }
    rewrite Hpf in Hw2. cbn [snd] in Hw2.
    exists st2, (cs1 ++ cs2). split; [reflexivity|]. split; [exact Hw2|].
    split; [rewrite Hcalls, Hhead; reflexivity|].
    split; [rewrite Htot, Hr; reflexivity|].
    split; [rewrite Hproc, Hr; reflexivity|].
    split; [rewrite Hsf, Hr; reflexivity|].
    split; [rewrite Hres, Hr; exact Hurls|].
    split.
    + rewrite Hcalls, Hc0, !saves_app, Hs0. cbn. exact Hsaves.
    + intros data' st' [= <- <-] i input Hi. rewrite Hres, Hr. cbn.
      exact (Hitems i input Hi).
  - rewrite mark_all_failed_effect.
    eexists _, cs1. split; [reflexivity|].
    cbn [h_world h_calls h_results total processed successful failed results].
    split; [exact Hw|]. split; [exact Hhead|].
    rewrite Hr. cbn [initial_state h_results fresh_results total processed successful
                     failed results app Nat.add].
    split; [reflexivity|]. split; [reflexivity|]. split; [reflexivity|].
    split; [rewrite map_map; reflexivity|].
    split; [rewrite Hc0, saves_app, Hs0; cbn; lia|].
    intros ? ? [=].
Qed.

End BatchFacts.

Section BatchClaims.
Import Js Store Spec Scraper Samples.
Local Open Scope list_scope.




(** X11.  For a validated request the counts add up: [total] and
    [processed] are the number of validated profiles, [successful] and
    [failed] sum to it, the result list has one entry per validated
    profile, in the order of submission and under its URL, and no more
    saves were attempted than there are profiles.  No failure of one item
    keeps the others from being processed. *)
Theorem batch_counts_add_up
    (env : Env) (up : Upstream) (currentYear : Z) (req : Request) (w : World)
    (vps : list ProfileInput) :
  Validated env req vps ->
  exists res pointsEarned calls,
    scrape_linkedin env up currentYear req w
    = (ScrapeResponse 200 true res pointsEarned, calls, w)
    /\ total res = length vps
    /\ processed res = length vps
    /\ successful res + failed res = length vps
    /\ map result_url (results res) = map url vps
    /\ length (saves calls) <= length vps.
Proof.
  intros Hvalid. rewrite (scrape_linkedin_validated _ _ _ _ _ _ Hvalid).
  destruct (batch_effect up currentYear (or_empty (req_userId req)) vps w)
    as (st & cs & Hb & Hw & Hc & Ht & Hp & Hsf & Hurls & Hsaves & _).
  rewrite Hb, Hw. eexists _, _, _. split; [reflexivity|].
  repeat split; assumption.
Qed.

Lemma sample_validated : Validated sample_env sample_request [sample_input].
Proof.
  eexists. split; [reflexivity|]. split; [reflexivity|].
  split; [vm_compute; reflexivity|]. split; [discriminate | reflexivity].
Qed.

Lemma batch_counts_add_up_witness :
  exists res pointsEarned calls,
    scrape_linkedin sample_env empty_handed_upstream 2024 sample_request empty_world
    = (ScrapeResponse 200 true res pointsEarned, calls, empty_world)
    /\ total res = 1
    /\ successful res + failed res = 1.
Proof.
  destruct (batch_counts_add_up sample_env empty_handed_upstream 2024 sample_request
              empty_world [sample_input] sample_validated)
    as (res & pts & calls & Heq & Ht & _ & Hsf & _).
  exists res, pts, calls. repeat split; assumption.
Defined.



Lemma scrape_succeeds (up : Upstream) (vps : list ProfileInput) (st : HState)
    (runData : RunData) (k : nat) (data : list (option LinkedInProfile)) :
  start_run up (map url vps) = Ok runData ->
  k < 60 ->
  (forall n, n < k -> run_status up n = Ok "RUNNING"%string) ->
  run_status up k = Ok "SUCCEEDED"%string ->
  dataset_items up = Ok data ->
  scrape up vps st
  = (Normal data,
     {| h_results := h_results st;
        h_calls := h_calls st ++ StartRun (map url vps)
                              :: poll_rounds (run_id runData) (S k)
                              ++ [GetItems (defaultDatasetId runData)];
        h_world := h_world st |}).
Proof.
  intros Hstart Hk Hrun Hat Hitems. unfold scrape, bind, call.
  cbn [fst snd h_results h_calls h_world]. rewrite Hstart.
  unfold maxAttempts.
  rewrite (poll_terminal up _ 60 0 k "SUCCEEDED"); try assumption; try discriminate.
  2:{ intros n Hn. apply Hrun. lia. }
  cbn [h_results h_calls h_world]. change (negb (String.eqb "SUCCEEDED" "SUCCEEDED")) with false.
  cbv iota. rewrite Hitems. unfold ret. cbn [h_results h_calls h_world].
  rewrite <- !app_assoc. reflexivity.
Qed.

(** X13.  Polling stops at the first poll that reports SUCCEEDED: when
    that is poll number [k] (from 0, below 60), the stage has submitted
    the run, waited and polled [k + 1] times, fetched the items once, and
    hands on the items as they came. *)
Theorem polling_stops_at_success
    (up : Upstream) (vps : list ProfileInput) (st : HState)
    (runData : RunData) (k : nat) (data : list (option LinkedInProfile)) :
  start_run up (map url vps) = Ok runData ->
  k < 60 ->
  (forall n, n < k -> run_status up n = Ok "RUNNING"%string) ->
  run_status up k = Ok "SUCCEEDED"%string ->
  dataset_items up = Ok data ->
  scrape up vps st
  = (Normal data,
     {| h_results := h_results st;
        h_calls := h_calls st ++ StartRun (map url vps)
                              :: poll_rounds (run_id runData) (S k)
                              ++ [GetItems (defaultDatasetId runData)];
        h_world := h_world st |}).
Proof. apply scrape_succeeds. Qed.

Lemma polling_stops_at_success_witness :
  scrape empty_handed_upstream [sample_input] (initial_state [sample_input] empty_world)
  = (Normal [],
     {| h_results := fresh_results 1;
        h_calls := [StartRun ["https://www.linkedin.com/in/ada"%string];
                    Sleep 3000; GetRunStatus "run-2";
                    Sleep 3000; GetRunStatus "run-2";
                    Sleep 3000; GetRunStatus "run-2";
                    GetItems "set-2"];
        h_world := empty_world |}).
Proof.
  apply (polling_stops_at_success empty_handed_upstream [sample_input]
           (initial_state [sample_input] empty_world)
           {| run_id := "run-2"; defaultDatasetId := "set-2" |} 2 []).
  - reflexivity.
  - lia.
  - intros n Hn. destruct n as [|[|n]]; [reflexivity | reflexivity | lia].
  - reflexivity.
  - reflexivity.
Defined.

End BatchClaims.

(* ===================================================================== *)
(** ** More on the dashboard routes *)
(* ===================================================================== *)

Section LedgerFacts.
Import Js Store Spec DashboardRoutes DashboardReads Samples.
Local Open Scope list_scope.

Lemma findOne_store_other (kind : string -> DbWrite) (user other : string)
    (d : Dashboard) (w : World) :
  other <> user -> findOne other (store kind user d w) = findOne other w.
Proof.
  intros Hne. unfold findOne, store. cbn [dashboards].
  apply lookup_insert_ne. congruence.
Qed.

Lemma get_dashboard_profiles (now : nat) (user : string) (w : World) :
  profiles (snd (get_dashboard now user w)) = profiles w.
Proof.
  unfold get_dashboard. destruct (findOne user w);
    match goal with |- context [if ?b then _ else _] => destruct b end; reflexivity.
Qed.

Lemma get_dashboard_other (now : nat) (user other : string) (w : World) :
  other <> user -> findOne other (snd (get_dashboard now user w)) = findOne other w.
Proof.
  intros Hne. unfold get_dashboard. destruct (findOne user w);
    match goal with |- context [if ?b then _ else _] => destruct b end;
    cbn [snd]; rewrite ?findOne_store_other by exact Hne; reflexivity.
Qed.

Lemma countDocuments_profiles (user : string) (w w' : World) :
  profiles w' = profiles w -> countDocuments user w' = countDocuments user w.
Proof. unfold countDocuments. intros ->. reflexivity. Qed.

Lemma get_dashboard_twice (now now' : nat) (user : string) (w : World) :
  get_dashboard now' user (snd (get_dashboard now user w))
  = (fst (get_dashboard now user w), snd (get_dashboard now user w)).
Proof.
  destruct (get_dashboard_reconciles now user w) as (d & Hresp & Hfind & Hup & Hun & _).
  destruct (get_dashboard_reconciles now' user (snd (get_dashboard now user w)))
    as (d' & Hresp' & _ & _ & _ & Hstable).
  rewrite (countDocuments_profiles user w _ (get_dashboard_profiles now user w)) in Hstable.
  destruct (Hstable d Hfind Hup Hun) as [Hw ->].
  rewrite (surjective_pairing (get_dashboard now' user (snd (get_dashboard now user w)))).
  f_equal; [rewrite Hresp', Hresp; reflexivity | exact Hw].
Qed.

(** X14.  Reading a dashboard twice in a row gives the same answer as
    reading it once, and the second read writes nothing: whatever the read
    had to correct, it corrected the first time. *)
Theorem dashboard_read_is_stable (now now' : nat) (user : string) (w : World) :
  get_dashboard now' user (snd (get_dashboard now user w))
  = (fst (get_dashboard now user w), snd (get_dashboard now user w)).
Proof. apply get_dashboard_twice. Qed.

Lemma first_read_effect (now : nat) (user : string) (w : World) :
  findOne user w = None ->
  exists d,
    fst (get_dashboard now user w) = DashboardJson d
    /\ findOne user (snd (get_dashboard now user w)) = Some d
    /\ availablePoints d = 100%Z
    /\ recentActivity d = ["Welcome! Dashboard created."%string]
    /\ myUploads d = countDocuments user w
    /\ totalContacts d = countDocuments user w
    /\ unlockedProfiles d = 0%Z
    /\ unlockedContactIds d = Some []
    /\ uploadedProfileIds d = []
    /\ dashboard_writes (snd (get_dashboard now user w))
       = dashboard_writes w
         ++ DashboardCreate user
            :: (if (countDocuments user w =? 0)%Z then [] else [DashboardSave user]).
Proof.
  intros Hnone. unfold get_dashboard. rewrite Hnone, countDocuments_store.
  cbn [myUploads unlockedProfiles unlockedContactIds length Z.of_nat].
  rewrite Z.eqb_refl. cbn [negb]. rewrite orb_false_r.
  destruct (Z.eqb_spec 0 (countDocuments user w)) as [E | E]; cbn [negb fst snd].
  - eexists. split; [reflexivity|]. split; [apply findOne_store|].
    cbn. rewrite <- E. cbn. repeat split; reflexivity.
  - eexists. split; [reflexivity|]. split; [apply findOne_store|].
    cbn. destruct (Z.eqb_spec (countDocuments user w) 0) as [E' | _]; [congruence|].
    rewrite <- app_assoc. repeat split; reflexivity.
Qed.

(** X15.  The first read for a user without a dashboard creates one with
    100 points, the welcome line, no ids and no unlocked profile, and with
    [myUploads] and [totalContacts] both at the number of profiles the
    user has uploaded; it is written once, and once more when that number
    is not zero. *)
Theorem first_read_creates_dashboard (now : nat) (user : string) (w : World) :
  findOne user w = None ->
  exists d,
    fst (get_dashboard now user w) = DashboardJson d
    /\ findOne user (snd (get_dashboard now user w)) = Some d
    /\ availablePoints d = 100%Z
    /\ recentActivity d = ["Welcome! Dashboard created."%string]
    /\ myUploads d = countDocuments user w
    /\ totalContacts d = countDocuments user w
    /\ unlockedProfiles d = 0%Z
    /\ unlockedContactIds d = Some []
    /\ uploadedProfileIds d = []
    /\ dashboard_writes (snd (get_dashboard now user w))
       = dashboard_writes w
         ++ DashboardCreate user
            :: (if (countDocuments user w =? 0)%Z then [] else [DashboardSave user]).
Proof. apply first_read_effect. Qed.

Lemma first_read_creates_dashboard_witness :
  exists d,
    fst (get_dashboard 5 "user-1" uploads_world) = DashboardJson d
    /\ availablePoints d = 100%Z
    /\ myUploads d = 2%Z
    /\ totalContacts d = 2%Z
    /\ dashboard_writes (snd (get_dashboard 5 "user-1" uploads_world))
       = [DashboardCreate "user-1"; DashboardSave "user-1"].
Proof.
  destruct (first_read_creates_dashboard 5 "user-1" uploads_world eq_refl)
    as (d & Hr & _ & Hp & _ & Hu & Ht & _ & _ & _ & Hw).
  exists d. repeat split; assumption.
Defined.

(** X16.  The dashboard routes of one user never touch another user's
    dashboard, and none of them changes the profile collection. *)
Theorem dashboard_routes_keep_to_their_user
    (now : nat) (user other : string) (body : UpdateBody)
    (activity : option string) (w : World) :
  other <> user ->
  (findOne other (snd (get_dashboard now user w)) = findOne other w
   /\ profiles (snd (get_dashboard now user w)) = profiles w)
  /\ (findOne other (snd (post_dashboard now user body w)) = findOne other w
      /\ profiles (snd (post_dashboard now user body w)) = profiles w)
  /\ (findOne other (snd (patch_activity now user activity w)) = findOne other w
      /\ profiles (snd (patch_activity now user activity w)) = profiles w).
Proof.
  intros Hne. split; [|split].
  - split; [apply get_dashboard_other, Hne | apply get_dashboard_profiles].
  - unfold post_dashboard. cbn [snd].
    split; [apply findOne_store_other, Hne | reflexivity].
  - unfold patch_activity. destruct (negb (truthy activity)); cbn [snd].
    + split; reflexivity.
    + split; [apply findOne_store_other, Hne | reflexivity].
Qed.

Lemma dashboard_routes_keep_to_their_user_witness :
  findOne "user-2" (snd (post_dashboard 1 "user-1" drift_body
                           (snd (get_dashboard 0 "user-2" uploads_world))))
  = findOne "user-2" (snd (get_dashboard 0 "user-2" uploads_world)).
Proof.
  apply (dashboard_routes_keep_to_their_user 1 "user-1" "user-2" drift_body None).
  discriminate.
Defined.

(** X17.  A read and an activity append leave the rest of the user's
    dashboard alone: the read changes neither the points balance, nor the
    activity log, nor the two id lists, nor the timestamp; the append
    changes neither the points balance, nor the three counters, nor the
    two id lists. *)
Theorem read_and_append_keep_the_balance
    (now : nat) (user : string) (a : string) (w : World) (d0 : Dashboard) :
  findOne user w = Some d0 ->
  a <> ""%string ->
  (exists d,
      findOne user (snd (get_dashboard now user w)) = Some d
      /\ availablePoints d = availablePoints d0
      /\ recentActivity d = recentActivity d0
      /\ uploadedProfileIds d = uploadedProfileIds d0
      /\ unlockedContactIds d = unlockedContactIds d0
      /\ updatedAt d = updatedAt d0)
  /\ (exists d,
         findOne user (snd (patch_activity now user (Some a) w)) = Some d
         /\ availablePoints d = availablePoints d0
         /\ totalContacts d = totalContacts d0
         /\ unlockedProfiles d = unlockedProfiles d0
         /\ myUploads d = myUploads d0
         /\ uploadedProfileIds d = uploadedProfileIds d0
         /\ unlockedContactIds d = unlockedContactIds d0).
Proof.
  intros Hfind Ha. split.
  - unfold get_dashboard. rewrite Hfind.
    match goal with |- context [if ?b then _ else _] => destruct b end; cbn [snd].
    + rewrite findOne_store. eexists. split; [reflexivity|]. repeat split; reflexivity.
    + exists d0. repeat split; try reflexivity. exact Hfind.
  - unfold patch_activity. rewrite (proj2 (truthy_some a) Ha). cbn [negb snd].
    rewrite findOne_store, Hfind. eexists. split; [reflexivity|].
    repeat split; reflexivity.
Qed.

Lemma read_and_append_keep_the_balance_witness :
  exists d,
    findOne "user-1"
      (snd (patch_activity 3 "user-1" (Some "Unlocked a contact"%string)
              (snd (get_dashboard 0 "user-1" uploads_world)))) = Some d
    /\ availablePoints d = 100%Z.
Proof.
  destruct (first_read_effect 0 "user-1" uploads_world eq_refl)
    as (d0 & _ & Hfind & Hpoints & _).
  destruct (read_and_append_keep_the_balance 3 "user-1" "Unlocked a contact"
              (snd (get_dashboard 0 "user-1" uploads_world)) d0 Hfind)
    as [_ (d & Hd & Hp & _)]; [discriminate|].
  exists d. split; [exact Hd | rewrite Hp; exact Hpoints].
Defined.

Lemma post_dashboard_effect (now : nat) (user : string) (body : UpdateBody) (w : World) :
  exists d,
    post_dashboard now user body w
    = (DashboardJson d, store DashboardUpdate user d w)
    /\ recentActivity d = default [] (b_recentActivity body)
    /\ uploadedProfileIds d = default [] (b_uploadedProfileIds body)
    /\ unlockedContactIds d = Some (default [] (b_unlockedContactIds body))
    /\ updatedAt d = now
    /\ (forall d0, findOne user w = Some d0 ->
          availablePoints d = default (availablePoints d0) (b_availablePoints body)
          /\ totalContacts d = default (totalContacts d0) (b_totalContacts body)
          /\ unlockedProfiles d = default (unlockedProfiles d0) (b_unlockedProfiles body)
          /\ myUploads d = default (myUploads d0) (b_myUploads body)).
Proof.
  unfold post_dashboard. eexists. split; [reflexivity|].
  cbn [recentActivity uploadedProfileIds unlockedContactIds updatedAt availablePoints
       totalContacts unlockedProfiles myUploads].
  repeat split; try reflexivity; rewrite H; reflexivity.
Qed.

(** X18.  An update replaces the three lists wholesale: after an update
    whose body carries no activity list the stored log is empty, whatever
    had been appended before, and the same holds for the two id lists;
    a counter or a points balance the body does not carry keeps its stored
    value. *)
Theorem update_replaces_the_lists
    (now now' : nat) (user : string) (body : UpdateBody)
    (activities : list string) (w : World) :
  b_recentActivity body = None ->
  activity_log user
    (snd (post_dashboard now' user body (patch_activities now user activities w)))
  = []
  /\ (forall d0,
         findOne user (patch_activities now user activities w) = Some d0 ->
         exists d,
           findOne user
             (snd (post_dashboard now' user body (patch_activities now user activities w)))
           = Some d
           /\ (b_availablePoints body = None -> availablePoints d = availablePoints d0)
           /\ (b_myUploads body = None -> myUploads d = myUploads d0)
           /\ (b_uploadedProfileIds body = None -> uploadedProfileIds d = [])
           /\ (b_unlockedContactIds body = None -> unlockedContactIds d = Some [])).
Proof.
  intros Hlog.
  destruct (post_dashboard_effect now' user body (patch_activities now user activities w))
    as (d & Hpost & Hact & Hup & Hun & _ & Hold).
  rewrite Hpost. cbn [snd]. split.
  - rewrite activity_log_store, Hact, Hlog. reflexivity.
  - intros d0 Hfind. exists d. split; [apply findOne_store|].
    destruct (Hold d0 Hfind) as (Hp & _ & _ & Hm).
    repeat split.
    + intros E. rewrite Hp, E. reflexivity.
    + intros E. rewrite Hm, E. reflexivity.
    + intros E. rewrite Hup, E. reflexivity.
    + intros E. rewrite Hun, E. reflexivity.
Qed.

Lemma update_replaces_the_lists_witness :
  activity_log "user-1"
    (snd (post_dashboard 9 "user-1" (counters_only 2 2 0)
            (patch_activities 1 "user-1" ["Uploaded a profile"; "Unlocked a contact"]%string
               uploads_world)))
  = [].
Proof.
  apply (update_replaces_the_lists 1 9 "user-1" (counters_only 2 2 0)
           ["Uploaded a profile"; "Unlocked a contact"]%string uploads_world).
  reflexivity.
Defined.

Lemma lastn_le {A} (m n : nat) (l : list A) :
  m <= n -> lastn m (lastn n l) = lastn m l.
Proof.
  intros Hmn. unfold lastn. rewrite length_drop, drop_drop. f_equal. lia.
Qed.

Lemma lastn_snoc {A} (m : nat) (l : list A) (a : A) :
  lastn (S m) (l ++ [a]) = lastn m l ++ [a].
Proof.
  unfold lastn. rewrite drop_app, length_app. cbn [length].
  replace (length l + 1 - S m) with (length l - m) by lia.
  replace (length l - m - length l) with 0 by lia. reflexivity.
Qed.

Lemma patch_then_activity (now : nat) (user a : string)
    (uploaded : list ProfileSummary) (w : World) :
  a <> ""%string ->
  get_activity user uploaded (snd (patch_activity now user (Some a) w))
  = ActivitySummaryJson (a :: rev (lastn 9 (activity_log user w))) uploaded
      (Nat.min 20 (S (length (activity_log user w)))) now.
Proof.
  intros Ha. unfold patch_activity. rewrite (proj2 (truthy_some a) Ha).
  cbn [negb snd or_empty]. unfold get_activity. rewrite findOne_store.
  cbn [recentActivity updatedAt]. unfold push_each_slice.
  replace (recentActivity (default (schema_defaults user now) (findOne user w)))
    with (activity_log user w)
    by (unfold activity_log; destruct (findOne user w); reflexivity).
  rewrite lastn_le by lia. rewrite lastn_snoc, rev_app_distr. cbn [rev app].
  rewrite length_lastn, length_app. cbn [length]. f_equal. lia.
Qed.

(** X19.  Right after an activity is appended, the activity summary lists
    it first, followed by the nine entries that were newest before,
    newest first; it reports the size of the stored log, which is one more
    than before but never more than 20, and the time of the append. *)
Theorem appended_activity_is_listed_first
    (now : nat) (user a : string) (uploaded : list ProfileSummary) (w : World) :
  a <> ""%string ->
  get_activity user uploaded (snd (patch_activity now user (Some a) w))
  = ActivitySummaryJson (a :: rev (lastn 9 (activity_log user w))) uploaded
      (Nat.min 20 (S (length (activity_log user w)))) now.
Proof. apply patch_then_activity. Qed.

Lemma appended_activity_is_listed_first_witness :
  get_activity "user-1" []
    (snd (patch_activity 7 "user-1" (Some "second"%string)
            (snd (patch_activity 6 "user-1" (Some "first"%string) empty_world))))
  = ActivitySummaryJson ["second"; "first"]%string [] 2 7.
Proof.
  apply (appended_activity_is_listed_first 7 "user-1" "second" []
           (snd (patch_activity 6 "user-1" (Some "first"%string) empty_world))).
  discriminate.
Defined.

(** X20.  After a dashboard read, the unlocked-contacts listing of the
    same user reports a stored total equal to the actual number of
    unlocked ids.  For a user without a dashboard the listing and the
    activity summary answer 'Dashboard not found'. *)
Theorem unlocked_listing_after_read
    (now : nat) (user : string) (profilesById : list string -> list ProfileSummary)
    (uploaded : list ProfileSummary) (w : World) :
  (exists ids,
      get_unlocked user profilesById (snd (get_dashboard now user w))
      = UnlockedJson user ids (Z.of_nat (length ids)) (length ids) (profilesById ids))
  /\ (findOne user w = None ->
      get_unlocked user profilesById w = NotFound "Dashboard not found"
      /\ get_activity user uploaded w = NotFound "Dashboard not found").
Proof.
  split.
  - destruct (get_dashboard_reconciles now user w) as (d & _ & Hfind & _ & Hun & _).
    unfold get_unlocked. rewrite Hfind. exists (default [] (unlockedContactIds d)).
    rewrite Hun.
    replace (match unlockedContactIds d with Some ids => length ids | None => 0 end)
      with (length (default [] (unlockedContactIds d)))
      by (destruct (unlockedContactIds d); reflexivity).
    destruct (Z.eqb_spec (Z.of_nat (length (default [] (unlockedContactIds d)))) 0)
      as [E | _]; [rewrite E|]; reflexivity.
  - intros Hnone. unfold get_unlocked, get_activity. rewrite Hnone. split; reflexivity.
Qed.

(** X21.  An activity append without a message, or with the empty one, is
    answered 400 and writes nothing.  Any other append is answered with
    the message and the new size of the log, between 1 and 20, issues one
    write, and stamps the dashboard with the time of the request. *)
Theorem activity_append_answers
    (now : nat) (user : string) (activity : option string) (w : World) :
  (truthy activity = false ->
   patch_activity now user activity w = (ErrorJson 400 "Activity message required", w))
  /\ (forall a,
         activity = Some a -> a <> ""%string ->
         exists n d,
           fst (patch_activity now user activity w) = ActivityJson true a n
           /\ findOne user (snd (patch_activity now user activity w)) = Some d
           /\ n = length (recentActivity d)
           /\ 1 <= n <= 20
           /\ updatedAt d = now
           /\ dashboard_writes (snd (patch_activity now user activity w))
              = dashboard_writes w ++ [DashboardUpdate user]).
Proof.
  split.
  - intros Hf. unfold patch_activity. rewrite Hf. reflexivity.
  - intros a -> Ha. unfold patch_activity. rewrite (proj2 (truthy_some a) Ha).
    cbn [negb fst snd or_empty]. rewrite findOne_store.
    eexists _, _. split; [reflexivity|]. split; [reflexivity|].
    cbn [recentActivity updatedAt]. split; [reflexivity|].
    split; [|split; reflexivity].
    unfold push_each_slice. rewrite length_lastn, length_app. cbn [length]. lia.
Qed.

End LedgerFacts.

(* ===================================================================== *)
(** ** routes/auth.js: who gets in, and what the account routes write *)
(* ===================================================================== *)

Section AccessFacts.
Import Js Store Spec DashboardRoutes Auth Samples.
Local Open Scope list_scope.

Lemma split_chars_no_sep (l : chars) :
  forallb (fun c => negb (Ascii.eqb c " ")) l = true ->
  split_chars " " l = [l].
Proof.
  induction l as [|c l IH]; [reflexivity|].
  cbn [forallb split_chars]. intros H. apply andb_prop in H as [Hc Hl].
  destruct (Ascii.eqb c " "); [discriminate|]. rewrite (IH Hl). reflexivity.
Qed.

Lemma split_chars_word (a rest : chars) :
  forallb (fun c => negb (Ascii.eqb c " ")) a = true ->
  split_chars " " (a ++ " "%char :: rest) = a :: split_chars " " rest.
Proof.
  induction a as [|c a IH]; [reflexivity|].
  cbn [forallb app split_chars]. intros H. apply andb_prop in H as [Hc Hl].
  destruct (Ascii.eqb c " "); [discriminate|]. rewrite (IH Hl). reflexivity.
Qed.

Lemma split_chars_head (a rest : chars) :
  forallb (fun c => negb (Ascii.eqb c " ")) a = true ->
  (rest = [] \/ exists r, rest = " "%char :: r) ->
  exists more, split_chars " " (a ++ rest) = a :: more.
Proof.
  intros Ha [->|[r ->]].
  - exists []. rewrite app_nil_r. apply split_chars_no_sep, Ha.
  - eexists. apply split_chars_word, Ha.
Qed.

Lemma second_word (scheme tok tail : string) :
  no_space scheme -> no_space tok ->
  (tail = ""%string \/ exists r, tail = String " " r) ->
  split (scheme ++ " " ++ tok ++ tail)%string " " !! 1 = Some tok.
Proof.
  intros Hs Ht Htail. unfold split.
  rewrite chars_app.
  change (list_ascii_of_string (" " ++ tok ++ tail)%string)
    with (" "%char :: list_ascii_of_string (tok ++ tail)%string).
  rewrite chars_app, (split_chars_word _ _ Hs).
  destruct (split_chars_head (list_ascii_of_string tok) (list_ascii_of_string tail) Ht)
    as [more Hm].
  { destruct Htail as [->|[r ->]]; [left; reflexivity | right; eexists; reflexivity]. }
  rewrite Hm. cbn [map lookup list_lookup].
  rewrite string_of_list_ascii_of_string. reflexivity.
Qed.

Lemma single_word (s : string) : no_space s -> split s " " !! 1 = None.
Proof.
  intros Hs. unfold split. rewrite (split_chars_no_sep _ Hs). reflexivity.
Qed.

Lemma middleware_with_token (sv : Services) (s tok : string) :
  s <> ""%string -> tok <> ""%string ->
  split s " " !! 1 = Some tok ->
  authMiddleware sv (Some s)
  = match verify sv tok with
    | Verified id => Next id
    | TokenExpiredError => Rejected 401 "Token expired"
    | JsonWebTokenError => Rejected 401 "Invalid token"
    | OtherError => Rejected 401 "Token verification failed"
    end.
Proof.
  intros Hs Ht Hsplit. unfold authMiddleware.
  apply truthy_some in Hs. rewrite Hs. cbn [negb or_empty]. rewrite Hsplit.
  apply truthy_some in Ht. rewrite Ht. reflexivity.
Qed.

Lemma middleware_next (sv : Services) (authorization : option string) (id : string) :
  authMiddleware sv authorization = Next id ->
  exists s tok,
    authorization = Some s /\ split s " " !! 1 = Some tok /\ tok <> ""%string
    /\ verify sv tok = Verified id.
Proof.
  unfold authMiddleware.
  destruct authorization as [s|]; [|discriminate].
  destruct (truthy (Some s)); [|discriminate]. cbn [negb or_empty].
  destruct (split s " " !! 1) as [tok|] eqn:Hsplit; [|discriminate].
  destruct (truthy (Some tok)) eqn:Ht; [|discriminate]. cbn [negb or_empty].
  destruct (verify sv tok) as [id'| | |] eqn:Hv; try discriminate.
  intros [= <-]. exists s, tok. repeat split; try assumption.
  apply truthy_some, Ht.
Qed.

Lemma middleware_rejects_401 (sv : Services) (authorization : option string)
    (status : nat) (message : string) :
  authMiddleware sv authorization = Rejected status message -> status = 401.
Proof.
  unfold authMiddleware.
  destruct (negb (truthy authorization)); [intros [= <- _]; reflexivity|].
  destruct (negb (truthy _)); [intros [= <- _]; reflexivity|].
  destruct (verify sv _); [discriminate| | |]; intros [= <- _]; reflexivity.
Qed.

Lemma no_space_nonempty_app (scheme tok tail : string) :
  (scheme ++ " " ++ tok ++ tail)%string <> ""%string.
Proof. destruct scheme; discriminate. Qed.

(** X22.  In a header of the form [<word> <token>], with anything after a
    further space, the second word is the token: the request goes on as
    user [id] exactly when [jwt.verify] accepts that word with this id.
    The first word is not looked at. *)
Theorem second_word_is_the_token
    (sv : Services) (scheme tok tail id : string) :
  no_space scheme -> no_space tok -> tok <> ""%string ->
  (tail = ""%string \/ exists r, tail = String " " r) ->
  authMiddleware sv (Some (scheme ++ " " ++ tok ++ tail)%string) = Next id
  <-> verify sv tok = Verified id.
Proof.
  intros Hs Ht Hne Htail.
  rewrite (middleware_with_token sv _ tok (no_space_nonempty_app _ _ _) Hne
             (second_word _ _ _ Hs Ht Htail)).
  destruct (verify sv tok); split; congruence.
Qed.

Lemma second_word_is_the_token_witness :
  authMiddleware sample_services (Some "Anything t-ada trailing") = Next "user-1"
  <-> verify sample_services "t-ada" = Verified "user-1".
Proof.
  apply (second_word_is_the_token sample_services "Anything" "t-ada" " trailing").
  - reflexivity.
  - reflexivity.
  - discriminate.
  - right. eexists. reflexivity.
Defined.

(** X23.  A header that is one word, without a space, is refused with
    401 "No token provided", also when the word is a token [jwt.verify]
    would accept. *)
Theorem token_without_scheme_is_refused (sv : Services) (s : string) :
  no_space s -> s <> ""%string ->
  authMiddleware sv (Some s) = Rejected 401 "No token provided".
Proof.
  intros Hs Hne. unfold authMiddleware.
  apply truthy_some in Hne. rewrite Hne. cbn [negb or_empty].
  rewrite (single_word _ Hs). reflexivity.
Qed.

Lemma token_without_scheme_is_refused_witness :
  verify sample_services "t-ada" = Verified "user-1"
  /\ authMiddleware sample_services (Some "t-ada")
     = Rejected 401 "No token provided".
Proof.
  split; [reflexivity|].
  apply (token_without_scheme_is_refused sample_services "t-ada").
  - reflexivity.
  - discriminate.
Defined.

(** X24.  The middleware calls [next] only for a header whose second
    word is a non-empty token that [jwt.verify] accepts, and then with
    the id of that token; every other answer has status 401. *)
Theorem middleware_lets_through_only_verified
    (sv : Services) (authorization : option string) :
  (forall id, authMiddleware sv authorization = Next id ->
     exists s tok,
       authorization = Some s /\ split s " " !! 1 = Some tok
       /\ tok <> ""%string /\ verify sv tok = Verified id)
  /\ (forall status message,
        authMiddleware sv authorization = Rejected status message ->
        status = 401).
Proof.
  split.
  - intros id. apply middleware_next.
  - intros status message. apply middleware_rejects_401.
Qed.

Lemma protected_other {R : Type} (sv : Services) (authorization : option string)
    (handler : string -> World -> R * World) (user other : string) (w : World) :
  (forall tok id, verify sv tok = Verified id -> id = user) ->
  (forall w0, findOne other (snd (handler user w0)) = findOne other w0) ->
  findOne other (snd (protected sv authorization handler w)) = findOne other w.
Proof.
  intros Honly Hh. unfold protected.
  destruct (authMiddleware sv authorization) as [id|st m] eqn:Ha; [|reflexivity].
  apply middleware_next in Ha as (s & tok & _ & _ & _ & Hv).
  apply Honly in Hv as ->. specialize (Hh w).
  destruct (handler user w) as [r w']. exact Hh.
Qed.

(** X25.  Behind the middleware: if every token [jwt.verify] accepts
    carries the id of [user], then no request to the dashboard routes,
    whatever its header and body, changes the dashboard of another
    user. *)
Theorem protected_dashboard_routes_confined
    (sv : Services) (now : nat) (user other : string)
    (authorization : option string) (body : UpdateBody)
    (activity : option string) (w : World) :
  (forall tok id, verify sv tok = Verified id -> id = user) ->
  other <> user ->
  findOne other (snd (protected sv authorization (get_dashboard now) w))
  = findOne other w
  /\ findOne other
       (snd (protected sv authorization
               (fun u => post_dashboard now u body) w))
     = findOne other w
  /\ findOne other
       (snd (protected sv authorization
               (fun u => patch_activity now u activity) w))
     = findOne other w.
Proof.
  intros Honly Hne. split; [|split].
  - apply (protected_other sv authorization (get_dashboard now) user other w Honly).
    intros w0. apply get_dashboard_other, Hne.
  - apply (protected_other sv authorization
             (fun u => post_dashboard now u body) user other w Honly).
    intros w0. unfold post_dashboard. cbn [snd]. apply findOne_store_other, Hne.
  - apply (protected_other sv authorization
             (fun u => patch_activity now u activity) user other w Honly).
    intros w0. unfold patch_activity.
    destruct (negb (truthy activity)); cbn [snd];
      [reflexivity | apply findOne_store_other, Hne].
Qed.

Lemma sample_tokens (tok id : string) :
  verify sample_services tok = Verified id -> id = "user-1"%string.
Proof.
  cbn [verify sample_services]. destruct (String.eqb tok "t-ada"); congruence.
Qed.

Lemma protected_dashboard_routes_confined_witness :
  findOne "user-2"
    (snd (protected sample_services (Some "Bearer t-ada")
            (fun u => post_dashboard 1 u drift_body)
            (snd (get_dashboard 0 "user-2" uploads_world))))
  = findOne "user-2" (snd (get_dashboard 0 "user-2" uploads_world)).
Proof.
  apply (protected_dashboard_routes_confined sample_services 1 "user-1" "user-2"
           (Some "Bearer t-ada") drift_body None
           (snd (get_dashboard 0 "user-2" uploads_world)) sample_tokens).
  discriminate.
Defined.

End AccessFacts.

Section AccountFacts.
Import Js Store Spec DashboardRoutes Auth Samples.
Local Open Scope list_scope.

Lemma signup_accepts (sv : Services) (production : bool) (now : nat)
    (name email password : string) (w : World) :
  name <> ""%string -> email <> ""%string ->
  (6 <= String.length password)%nat ->
  findUserByEmail sv (toLowerCase email) = None ->
  let user := createUser sv (trim name) (trim (toLowerCase email))
                (hash sv password (if production then 12 else 10)) in
  exists d,
    signup sv production now
      {| sb_name := Some name; sb_email := Some email;
         sb_password := Some password |} w
    = (Session 201 "Account created successfully" (createUserResponse user)
         (createToken sv (u_id user)),
       [UserCreate (trim name) (trim (toLowerCase email))
          (hash sv password (if production then 12 else 10))],
       store DashboardCreate (u_id user) d w)
    /\ availablePoints d = 100%Z
    /\ totalContacts d = 0%Z /\ unlockedProfiles d = 0%Z /\ myUploads d = 0%Z
    /\ recentActivity d
       = ["Welcome to the platform! You started with 100 points."%string].
Proof.
  intros Hn He Hp Hnone user. unfold signup. cbn [sb_name sb_email sb_password].
  apply truthy_some in Hn, He.
  assert (Hpt : truthy (Some password) = true).
  { apply truthy_some. intros ->. simpl in Hp. lia. }
  rewrite Hn, He, Hpt. cbn [negb orb or_empty].
  assert (Hlen : (String.length password <? 6)%nat = false)
    by (apply Nat.ltb_ge; exact Hp).
  rewrite Hlen, Hnone. eexists. split; [reflexivity|].
  cbn [availablePoints totalContacts unlockedProfiles myUploads recentActivity].
  repeat split.
Qed.


(** X26.  A signup with a name, an address nobody is registered under
    (looked up in lower case) and a password of at least six characters
    creates one user, with the name trimmed, the address in lower case
    and trimmed and the password as hashed, with 12 rounds in production
    and 10 otherwise; it creates the dashboard of the new id with 100
    points and the welcome line, and answers 201 with a token for the
    new id. *)
Theorem signup_creates_account (sv : Services) (production : bool) (now : nat)
    (name email password : string) (w : World) :
  name <> ""%string -> email <> ""%string ->
  (6 <= String.length password)%nat ->
  findUserByEmail sv (toLowerCase email) = None ->
  exists d,
    signup sv production now
      {| sb_name := Some name; sb_email := Some email;
         sb_password := Some password |} w
    = (Session 201 "Account created successfully"
         (createUserResponse
            (createUser sv (trim name) (trim (toLowerCase email))
               (hash sv password (if production then 12 else 10))))
         (createToken sv
            (u_id (createUser sv (trim name) (trim (toLowerCase email))
                     (hash sv password (if production then 12 else 10))))),
       [UserCreate (trim name) (trim (toLowerCase email))
          (hash sv password (if production then 12 else 10))],
       store DashboardCreate
         (u_id (createUser sv (trim name) (trim (toLowerCase email))
                  (hash sv password (if production then 12 else 10)))) d w)
    /\ availablePoints d = 100%Z
    /\ totalContacts d = 0%Z /\ unlockedProfiles d = 0%Z /\ myUploads d = 0%Z
    /\ recentActivity d
       = ["Welcome to the platform! You started with 100 points."%string].
Proof. apply signup_accepts. Qed.

Lemma signup_creates_account_witness :
  exists d,
    signup sample_services true 5
      {| sb_name := Some "  Ada Lovelace "; sb_email := Some "Ada@Example.COM ";
         sb_password := Some "secret" |} empty_world
    = (Session 201 "Account created successfully"
         {| r_id := "user-9"; r_name := "Ada Lovelace";
            r_email := "ada@example.com"; r_avatar := None;
            r_googleId := None |}
         "token-for-user-9",
       [UserCreate "Ada Lovelace" "ada@example.com" "hashed-secret"],
       store DashboardCreate "user-9" d empty_world)
    /\ availablePoints d = 100%Z.
Proof.
  destruct (signup_creates_account sample_services true 5 "  Ada Lovelace "
              "Ada@Example.COM " "secret" empty_world)
    as (d & Hs & Hp & _).
  - discriminate.
  - discriminate.
  - simpl. lia.
  - reflexivity.
  - exists d. split; [exact Hs | exact Hp].
Defined.



Lemma login_invalid (sv : Services) (now : nat) (email password : string)
    (w : World) :
  email <> ""%string -> password <> ""%string ->
  (findUserByEmail sv (trim (toLowerCase email)) = None
   \/ exists user stored,
        findUserByEmail sv (trim (toLowerCase email)) = Some user
        /\ u_password user = Some stored /\ stored <> ""%string
        /\ compare sv password stored = false) ->
  login sv now {| lb_email := Some email; lb_password := Some password |} w
  = (Message 400 "Invalid credentials", w).
Proof.
  intros He Hp H. unfold login. cbn [lb_email lb_password].
  apply truthy_some in He, Hp. rewrite He, Hp. cbn [negb orb or_empty].
  destruct H as [->|(user & stored & -> & Hs & Hne & Hc)]; [reflexivity|].
  rewrite Hs. apply truthy_some in Hne. rewrite Hne. cbn [negb or_empty].
  rewrite Hc. reflexivity.
Qed.

(** X28.  A login for an address nobody is registered under and a login
    with a wrong password for a registered address get the same answer,
    400 "Invalid credentials", and neither changes a dashboard. *)
Theorem login_failures_look_alike (sv : Services) (now : nat)
    (email password : string) (w : World) :
  email <> ""%string -> password <> ""%string ->
  (findUserByEmail sv (trim (toLowerCase email)) = None
   \/ exists user stored,
        findUserByEmail sv (trim (toLowerCase email)) = Some user
        /\ u_password user = Some stored /\ stored <> ""%string
        /\ compare sv password stored = false) ->
  login sv now {| lb_email := Some email; lb_password := Some password |} w
  = (Message 400 "Invalid credentials", w).
Proof. apply login_invalid. Qed.

Lemma login_failures_look_alike_witness :
  login sample_services 5
    {| lb_email := Some "ada@example.com"; lb_password := Some "secret" |}
    uploads_world
  = (Message 400 "Invalid credentials", uploads_world).
Proof.
  apply (login_failures_look_alike sample_services 5 "ada@example.com" "secret").
  - discriminate.
  - discriminate.
  - left. reflexivity.
Defined.

Lemma login_session (sv : Services) (now : nat) (body : LoginBody) (w : World)
    (status : nat) (message : string) (answer : UserResponse) (token : string) :
  fst (login sv now body w) = Session status message answer token ->
  exists user stored d,
    findUserByEmail sv (trim (toLowerCase (or_empty (lb_email body)))) = Some user
    /\ u_password user = Some stored
    /\ compare sv (or_empty (lb_password body)) stored = true
    /\ answer = createUserResponse user
    /\ token = createToken sv (u_id user)
    /\ findOne (u_id user) (snd (login sv now body w)) = Some d
    /\ (findOne (u_id user) w = None -> availablePoints d = 100%Z).
Proof.
  unfold login.
  destruct (negb (truthy (lb_email body)) || negb (truthy (lb_password body)));
    [discriminate|].
  destruct (findUserByEmail sv _) as [user|] eqn:Hf; [|discriminate].
  destruct (u_password user) as [stored|] eqn:Hs; [|discriminate].
  destruct (negb (truthy (Some stored))); [discriminate|]. cbn [or_empty].
  destruct (compare sv _ stored) eqn:Hc; [|discriminate]. cbn [negb fst snd].
  intros [= _ _ <- <-].
  destruct (findOne (u_id user) w) as [d|] eqn:Hd.
  - exists user, stored, d.
    repeat split; try reflexivity; try assumption. congruence.
  - eexists user, stored, _.
    repeat split; try reflexivity; try assumption; [apply findOne_store|].
    intros _. reflexivity.
Qed.

Lemma login_keeps (sv : Services) (now : nat) (body : LoginBody) (w : World)
    (u : string) (d : Dashboard) :
  findOne u w = Some d -> findOne u (snd (login sv now body w)) = Some d.
Proof.
  intros Hu. unfold login.
  destruct (negb (truthy (lb_email body)) || negb (truthy (lb_password body)));
    [exact Hu|].
  destruct (findUserByEmail sv _) as [user|]; [|exact Hu].
  destruct (negb (truthy (u_password user))); [exact Hu|].
  destruct (negb (compare sv _ _)); [exact Hu|]. cbn [snd].
  destruct (findOne (u_id user) w) eqn:Hd; [exact Hu|].
  rewrite findOne_store_other; [exact Hu|]. intros Heq. subst u. congruence.
Qed.

(** X29.  A login is answered with a user and a token only when a user
    is found under the address, trimmed and in lower case, and
    [bcrypt.compare] accepts the password against the stored one; the
    token is made for that user's id, and afterwards the user has a
    dashboard, with 100 points if there was none before.  Whatever the
    answer, every dashboard that existed is left as it was. *)
Theorem login_outcome (sv : Services) (now : nat) (body : LoginBody) (w : World) :
  (forall status message answer token,
     fst (login sv now body w) = Session status message answer token ->
     exists user stored d,
       findUserByEmail sv (trim (toLowerCase (or_empty (lb_email body))))
       = Some user
       /\ u_password user = Some stored
       /\ compare sv (or_empty (lb_password body)) stored = true
       /\ answer = createUserResponse user
       /\ token = createToken sv (u_id user)
       /\ findOne (u_id user) (snd (login sv now body w)) = Some d
       /\ (findOne (u_id user) w = None -> availablePoints d = 100%Z))
  /\ (forall u d, findOne u w = Some d ->
        findOne u (snd (login sv now body w)) = Some d).
Proof.
  split.
  - intros status message answer token. apply login_session.
  - intros u d. apply login_keeps.
Qed.

(** X30.  The answer to a password-reset request does not depend on the
    user collection: for the same address it is the same whether or not
    an account exists, so it tells nothing about who is registered. *)
Theorem forgot_password_does_not_disclose
    (sv sv' : Services) (email : option string) :
  forgot_password sv email = forgot_password sv' email.
Proof.
  unfold forgot_password. destruct (negb (truthy email)); [reflexivity|].
  destruct (findUserByEmail sv _), (findUserByEmail sv' _); reflexivity.
Qed.

End AccountFacts.
